(** * ChildesPython: transcript parsing and metrics

    A shallow embedding of [childespython/util.py] and
    [childespython/transcript.py].

    Python [str] values are modelled as [string]; a character is an
    [ascii], read as the code point of the same number (0-255), so the
    character classes below are Python's [str.isspace] and [str.isalnum]
    restricted to that range.  Python [int] is [Z].  The dictionaries
    holding tiers are [gmap string string]; the frequency dictionaries,
    whose item order is observable, are association lists in insertion
    order.  Raised exceptions are an explicit [result]; the one
    [while] loop of the code runs on fuel.  The float that
    [compute_ttr_from_frequencies] returns is computed exactly, as a
    binary64 mantissa and exponent. *)

From Stdlib Require Import ZArith QArith Ascii String List Lia.
From stdpp Require Import base option list strings gmap.

Local Open Scope Z_scope.

(** ** Exceptions *)

Inductive exn : Type :=
| IndexError   (* list index out of range *)
| ValueError.  (* invalid literal for int(), unsupported match_type *)

(** The outcome of a call.  [OutOfFuel] is not a Python outcome: it marks
    a run in which the bound given for the iterations of a [while] loop
    was used up before the loop ended. *)
Inductive result (A : Type) : Type :=
| Ok (a : A)
| Raise (e : exn)
| OutOfFuel.
Arguments Ok {A} a.
Arguments Raise {A} e.
Arguments OutOfFuel {A}.

#[global] Instance result_ret : MRet result := fun A a => Ok a.

#[global] Instance result_bind : MBind result := fun A B k r =>
  match r with
  | Ok a => k a
  | Raise e => Raise e
  | OutOfFuel => OutOfFuel
  end.

(** [for x in xs: st = step(st, x)], leaving at the first exception. *)
Fixpoint for_each {S A} (step : S -> A -> result S) (st : S) (xs : list A)
  : result S :=
  match xs with
  | [] => Ok st
  | x :: rest => st' ← step st x; for_each step st' rest
  end.

(** [xs[i]] on a Python list. *)
Definition index {A} (xs : list A) (i : nat) : result A :=
  match xs !! i with
  | Some x => Ok x
  | None => Raise IndexError
  end.

(** ** Python string primitives *)

Module Py.

Definition TAB : ascii := ascii_of_nat 9.
Definition LF : ascii := ascii_of_nat 10.

(** A marker, a tab, the text: the shape of the lines of a tier. *)
Definition tabbed (marker text : string) : string :=
  marker +:+ String TAB text.

Definition code (c : ascii) : nat := nat_of_ascii c.

Definition between (lo hi : nat) (c : ascii) : bool :=
  (lo <=? code c)%nat && (code c <=? hi)%nat.

(** [c.isspace()] *)
Definition isspace (c : ascii) : bool :=
  between 9 13 c || between 28 32 c || between 133 133 c || between 160 160 c.

(** [c.isalnum()] *)
Definition isalnum (c : ascii) : bool :=
  between 48 57 c || between 65 90 c || between 97 122 c
  || between 170 170 c || between 178 179 c || between 181 181 c
  || between 185 186 c || between 188 190 c
  || between 192 214 c || between 216 246 c || between 248 255 c.

Definition nonempty (s : string) : bool :=
  match s with
  | EmptyString => false
  | String _ _ => true
  end.

(** [all(p(c) for c in s)] and [any(p(c) for c in s)] *)
Fixpoint all_chars (p : ascii -> bool) (s : string) : bool :=
  match s with
  | EmptyString => true
  | String c t => p c && all_chars p t
  end.

Fixpoint any_char (p : ascii -> bool) (s : string) : bool :=
  match s with
  | EmptyString => false
  | String c t => p c || any_char p t
  end.

(** [c in s] for a one-character [c] *)
Definition contains_char (c : ascii) (s : string) : bool :=
  any_char (Ascii.eqb c) s.

(** [s.startswith(p)] *)
Definition startswith (s p : string) : bool := String.prefix p s.

(** [s.endswith(p)] *)
Fixpoint endswith (s p : string) : bool :=
  String.eqb s p ||
  match s with
  | EmptyString => false
  | String _ t => endswith t p
  end.

(** [p in s] *)
Fixpoint contains (s p : string) : bool :=
  startswith s p ||
  match s with
  | EmptyString => false
  | String _ t => contains t p
  end.

(** [s[n:]] *)
Fixpoint drop (n : nat) (s : string) : string :=
  match n, s with
  | O, _ => s
  | S _, EmptyString => EmptyString
  | S n', String _ t => drop n' t
  end.

(** [s[:n]] for [n >= 0] *)
Fixpoint take (n : nat) (s : string) : string :=
  match n, s with
  | O, _ => EmptyString
  | S _, EmptyString => EmptyString
  | S n', String c t => String c (take n' t)
  end.

(** [s[:-k]]: for [k = 0] the stop index is [-0 = 0], so the slice is
    empty; for [k > 0] the last [k] characters are cut. *)
Definition drop_last (k : nat) (s : string) : string :=
  match k with
  | O => EmptyString
  | S _ => take (String.length s - k) s
  end.

(** Leading and trailing characters satisfying [p] removed. *)
Fixpoint lstrip_with (p : ascii -> bool) (s : string) : string :=
  match s with
  | EmptyString => EmptyString
  | String c t => if p c then lstrip_with p t else s
  end.

Fixpoint rstrip_with (p : ascii -> bool) (s : string) : string :=
  match s with
  | EmptyString => EmptyString
  | String c t =>
      match rstrip_with p t with
      | EmptyString => if p c then EmptyString else String c EmptyString
      | t' => String c t'
      end
  end.

Definition strip_with (p : ascii -> bool) (s : string) : string :=
  rstrip_with p (lstrip_with p s).

(** [s.strip()] *)
Definition strip (s : string) : string := strip_with isspace s.

(** [s.strip(":")] *)
Definition strip_colon (s : string) : string := strip_with (Ascii.eqb ":") s.

(** Puts [c] in front of the first piece of a split. *)
Definition cons_first (c : ascii) (pieces : list string) : list string :=
  match pieces with
  | w :: ws => String c w :: ws
  | [] => [String c EmptyString]
  end.

(** [s.split()]: the maximal runs of non-whitespace characters. *)
Fixpoint split (s : string) : list string :=
  match s with
  | EmptyString => []
  | String c t =>
      if isspace c then split t
      else match t with
           | EmptyString => [String c EmptyString]
           | String c' _ =>
               if isspace c' then String c EmptyString :: split t
               else cons_first c (split t)
           end
  end.

(** [s.split(sep)] for a one-character [sep]. *)
Fixpoint split_on (sep : ascii) (s : string) : list string :=
  match s with
  | EmptyString => [EmptyString]
  | String c t =>
      if Ascii.eqb c sep then EmptyString :: split_on sep t
      else cons_first c (split_on sep t)
  end.

(** [s.split(sep, 1)] for a one-character [sep]. *)
Fixpoint split_once (sep : ascii) (s : string) : list string :=
  match s with
  | EmptyString => [EmptyString]
  | String c t =>
      if Ascii.eqb c sep then [EmptyString; t]
      else cons_first c (split_once sep t)
  end.

End Py.


(** ** util.py *)

Definition default_ignored : list string :=
  [","; "."; "?"; "!"; "(.)"; "[?]"].

(** One turn of [for ign in list_of_strings_to_be_ignored]: the prefix
    test, then the suffix test on what the prefix test left. *)
Definition strip_ign (st : string * bool) (ign : string) : string * bool :=
  let '(cleaned, stripping) := st in
  let '(cleaned, stripping) :=
    if Py.startswith cleaned ign
    then (Py.drop (String.length ign) cleaned, true)
    else (cleaned, stripping) in
  if Py.endswith cleaned ign
  then (Py.drop_last (String.length ign) cleaned, true)
  else (cleaned, stripping).

(** The body of the [while] loop: [stripping = False], then the [for]. *)
Definition strip_pass (ignored : list string) (cleaned : string)
  : string * bool :=
  foldl strip_ign (cleaned, false) ignored.

(** [while stripping and cleaned: ...]; [fuel] bounds the passes. *)
Fixpoint strip_loop (fuel : nat) (ignored : list string)
    (cleaned : string) (stripping : bool) : result string :=
  if stripping && Py.nonempty cleaned then
    match fuel with
    | O => OutOfFuel
    | S fuel' =>
        let '(cleaned', stripping') := strip_pass ignored cleaned in
        strip_loop fuel' ignored cleaned' stripping'
    end
  else Ok cleaned.

(** [cleaned and any(c.isalnum() for c in cleaned)] *)
Definition is_token (cleaned : string) : bool :=
  Py.nonempty cleaned && Py.any_char Py.isalnum cleaned.

(** The outer [for raw in text.split()], collecting what is yielded. *)
Fixpoint tokenize_raws (fuel : nat) (ignored : list string)
    (raws : list string) : result (list string) :=
  match raws with
  | [] => Ok []
  | raw :: rest =>
      cleaned ← strip_loop fuel ignored raw true;
      tokens ← tokenize_raws fuel ignored rest;
      Ok (if is_token cleaned then cleaned :: tokens else tokens)
  end.

Definition tokenize (fuel : nat) (text : string) (ignored : list string)
  : result (list string) :=
  tokenize_raws fuel ignored (Py.split text).

(** ** transcript.py *)

(** [line.startswith("@") or line.startswith("*") or line.startswith("%")] *)
Definition is_marked (line : string) : bool :=
  Py.startswith line "@" || Py.startswith line "*" || Py.startswith line "%".

(** [xs[-1] += suffix] on a non-empty list. *)
Fixpoint append_to_last (xs : list string) (suffix : string) : list string :=
  match xs with
  | [] => []
  | [x] => [x +:+ suffix]
  | x :: rest => x :: append_to_last rest suffix
  end.

Definition clean_line (cleaned_up_transcript : list string) (raw : string)
  : list string :=
  let line := Py.strip raw in
  if is_marked line then cleaned_up_transcript ++ [line]
  else match cleaned_up_transcript with
       | _ :: _ => append_to_last cleaned_up_transcript (" " +:+ line)
       | [] => cleaned_up_transcript ++ [line]
       end.

Definition get_cleaned_transcript (recording : list string) : list string :=
  foldl clean_line [] recording.

Record participants_and_age := ParticipantsAndAge {
  participants : string;
  age : string
}.

Definition get_participants_and_age (recording : list string)
  : result participants_and_age :=
  let cleaned_up_transcript := get_cleaned_transcript recording in
  let participants_line :=
    List.filter (fun line => Py.startswith line "@Participants")
                cleaned_up_transcript in
  line0 ← index participants_line 0;
  participants ← index (Py.split_once Py.TAB line0) 1;
  let age_line :=
    List.filter (fun line => Py.startswith line "@ID" && Py.contains_char ";" line)
                cleaned_up_transcript in
  line0 ← index age_line 0;
  age ← index (List.filter (Py.contains_char ";") (Py.split_on "|" line0)) 0;
  Ok (ParticipantsAndAge participants age).

(** [int(s)] on a string: surrounding whitespace, an optional sign, then
    decimal digits in which single underscores may separate digits.  The
    interpreter refuses, with a [ValueError], a literal of more than
    [int_max_str_digits] digits (4300 unless reconfigured); the sign, the
    surrounding whitespace and the underscores are not counted, leading
    zeros are. *)
Definition int_space (c : ascii) : bool :=
  Py.between 9 13 c || Py.between 32 32 c
  || Py.between 133 133 c || Py.between 160 160 c.

Definition is_digit (c : ascii) : bool := Py.between 48 57 c.

Definition digit_value (c : ascii) : Z := Z.of_nat (Py.code c) - 48.

Fixpoint digits_value (acc : Z) (after_digit : bool) (s : string) : option Z :=
  match s with
  | EmptyString => if after_digit then Some acc else None
  | String c t =>
      if is_digit c then digits_value (10 * acc + digit_value c) true t
      else if Ascii.eqb c "_" && after_digit then digits_value acc false t
      else None
  end.

Definition int_max_str_digits : Z := 4300.

Fixpoint digit_count (s : string) : Z :=
  match s with
  | EmptyString => 0
  | String c t => (if is_digit c then 1 else 0) + digit_count t
  end.

Definition py_int (s : string) : result Z :=
  let body := Py.strip_with int_space s in
  let '(sign, digits) :=
    match body with
    | String c t =>
        if Ascii.eqb c "+" then (1, t)
        else if Ascii.eqb c "-" then (-1, t)
        else (1, body)
    | EmptyString => (1, body)
    end in
  match digits_value 0 false digits with
  | Some v =>
      if int_max_str_digits <? digit_count digits then Raise ValueError
      else Ok (sign * v)
  | None => Raise ValueError
  end.

Definition get_age_in_days (recording : list string) : result Z :=
  pa ← get_participants_and_age recording;
  let age_in_childes_format := age pa in
  years_s ← index (Py.split_on ";" age_in_childes_format) 0;
  years ← py_int years_s;
  rest ← index (Py.split_on ";" age_in_childes_format) 1;
  months_s ← index (Py.split_on "." rest) 0;
  months ← py_int months_s;
  rest ← index (Py.split_on ";" age_in_childes_format) 1;
  days_s ← index (Py.split_on "." rest) 1;
  days ← py_int days_s;
  Ok (years * 12 * 30 + months * 30 + days).

(** An entry of the structured transcript: the dictionary with the keys
    ["id"], ["speaker's tier"] and ["dependent tiers"]. *)
Record entry := Entry {
  entry_id : option Z;                       (* [None] or an [int] *)
  speakers_tier : gmap string string;
  dependent_tiers : gmap string string
}.

(** Truth value of a dictionary: it is not empty. *)
Definition truthy (d : gmap string string) : bool := bool_decide (d ≠ ∅).

(** The variables of the loop of [get_structured_transcript]. *)
Record parser := Parser {
  structured_transcript : list entry;
  current_entry : entry;
  id_counter : Z
}.

Definition parser_init : parser :=
  Parser [] (Entry None ∅ ∅) 1.

(** The body of [for line in body_of_transcript]. *)
Definition parse_line (st : parser) (line : string) : result parser :=
  let line_parts := Py.split_once Py.TAB line in
  part0 ← index line_parts 0;
  if Py.contains_char "*" part0 then
    let st :=
      if truthy (speakers_tier (current_entry st)) then
        let id_counter' := id_counter st + 1 in
        Parser (structured_transcript st ++ [current_entry st])
               (Entry (Some id_counter') ∅ ∅)
               id_counter'
      else st in
    part1 ← index line_parts 1;
    Ok (Parser (structured_transcript st)
               (Entry (entry_id (current_entry st))
                      {[ Py.strip_colon part0 := part1 ]}
                      (dependent_tiers (current_entry st)))
               (id_counter st))
  else if Py.contains_char "%" part0 then
    part1 ← index line_parts 1;
    Ok (Parser (structured_transcript st)
               (Entry (entry_id (current_entry st))
                      (speakers_tier (current_entry st))
                      (<[ Py.strip_colon part0 := part1 ]>
                         (dependent_tiers (current_entry st))))
               (id_counter st))
  else Ok st.

(** [bit.startswith(("*", "%"))] *)
Definition in_body (bit : string) : bool :=
  Py.startswith bit "*" || Py.startswith bit "%".

Definition body_of_transcript (cleaned_up_transcript : list string)
  : list string :=
  List.filter in_body cleaned_up_transcript.

(** What is returned once the loop has ended in state [st]. *)
Definition finish (st : parser) : list entry :=
  if truthy (speakers_tier (current_entry st))
     || truthy (dependent_tiers (current_entry st))
  then structured_transcript st ++ [current_entry st]
  else structured_transcript st.

Definition get_structured_transcript (recording : list string)
  : result (list entry) :=
  let cleaned_up_transcript := get_cleaned_transcript recording in
  st ← for_each parse_line parser_init (body_of_transcript cleaned_up_transcript);
  Ok (finish st).

(** [word_counts[token] += 1], or [= 1] for a token not yet counted;
    the items are kept in insertion order. *)
Fixpoint count_token (word_counts : list (string * Z)) (token : string)
  : list (string * Z) :=
  match word_counts with
  | [] => [(token, 1)]
  | (k, v) :: rest =>
      if String.eqb k token then (k, v + 1) :: rest
      else (k, v) :: count_token rest token
  end.

(** [sorted(items, key=lambda item: item[1], reverse=True)]: a stable
    sort, so items of equal count keep their order. *)
Fixpoint insert_by_count (item : string * Z) (sorted : list (string * Z))
  : list (string * Z) :=
  match sorted with
  | [] => [item]
  | item' :: rest =>
      if item.2 <? item'.2 then item' :: insert_by_count item rest
      else item :: sorted
  end.

Definition sorted_by_count (items : list (string * Z)) : list (string * Z) :=
  foldr insert_by_count [] items.

Definition match_types : list string :=
  ["startswith"; "contains"; "endswith"; "equals"].

Definition is_match_type (match_type : string) : bool :=
  existsb (String.eqb match_type) match_types.

(** Truth value of [pattern], which is [None] or a string. *)
Definition pattern_given (pattern : option string) : bool :=
  match pattern with
  | Some p => Py.nonempty p
  | None => false
  end.

(** Whether the filter of the inner loop reaches a [continue]. *)
Definition skipped (pattern : option string) (match_type token : string)
  : bool :=
  match pattern with
  | Some p =>
      if Py.nonempty p then
        if String.eqb match_type "startswith" && negb (Py.startswith token p)
        then true
        else if String.eqb match_type "contains" && negb (Py.contains token p)
        then true
        else if String.eqb match_type "endswith" && negb (Py.endswith token p)
        then true
        else if String.eqb match_type "equals" && negb (String.eqb token p)
        then true
        else false
      else false
  | None => false
  end.

(** The text of entry [el] in the chosen tier.  The entries that reach
    this point have [speaker] as a key of their speaker's tier, so the
    first lookup finds it. *)
Definition tier_text (speaker tier : string) (el : entry) : string :=
  if String.eqb tier "utterance" then default "" (speakers_tier el !! speaker)
  else default "" (dependent_tiers el !! tier).

Definition count_entry (fuel : nat) (speaker tier : string)
    (pattern : option string) (match_type : string)
    (word_counts : list (string * Z)) (el : entry)
  : result (list (string * Z)) :=
  tokens ← tokenize fuel (tier_text speaker tier el) default_ignored;
  Ok (foldl (fun wc token =>
               if skipped pattern match_type token then wc
               else count_token wc token)
            word_counts tokens).

Definition get_frequencies (fuel : nat) (recording : list string)
    (speaker tier : string) (pattern : option string) (match_type : string)
  : result (list (string * Z)) :=
  structured_transcript ← get_structured_transcript recording;
  if pattern_given pattern && negb (is_match_type match_type)
  then Raise ValueError
  else
    let filtered_segments :=
      List.filter (fun el => bool_decide (is_Some (speakers_tier el !! speaker)))
                  structured_transcript in
    word_counts ←
      for_each (count_entry fuel speaker tier pattern match_type)
               [] filtered_segments;
    Ok (sorted_by_count word_counts).

(** ** Floating point

    A finite binary64 value [fmant * 2 ^ fexp].  Python's [a / b] on
    integers is the quotient rounded once to the nearest binary64 value,
    ties to even; [round(x, 2)] rounds the exact value of [x] to the
    nearest multiple of 1/100, ties to even, and returns the binary64
    value nearest to that decimal. *)

Record float := Float { fmant : Z; fexp : Z }.

(** [a / b] rounded to the nearest integer, ties to even ([0 < b]). *)
Definition div_nearest_even (a b : Z) : Z :=
  let q := a / b in
  let r := a mod b in
  if 2 * r <? b then q
  else if b <? 2 * r then q + 1
  else if Z.even q then q else q + 1.

(** The exponent [L] with [2^L <= n / m < 2^(L+1)], for [0 < n], [0 < m]. *)
Definition ratio_log2 (n m : Z) : Z :=
  let l := Z.log2 n - Z.log2 m in
  let below := if 0 <=? l then n <? m * 2 ^ l else n * 2 ^ (- l) <? m in
  if below then l - 1 else l.

(** [n / m] for integers [0 <= n], [0 < m]: 53 significant bits, the
    exponent not below that of the subnormal numbers. *)
Definition true_div (n m : Z) : float :=
  if n =? 0 then Float 0 0
  else
    let e := Z.max (ratio_log2 n m - 52) (-1074) in
    if e <? 0 then Float (div_nearest_even (n * 2 ^ (- e)) m) e
    else Float (div_nearest_even n (m * 2 ^ e)) e.

(** [round(x, 2)] for [0 <= x]. *)
Definition round2 (x : float) : float :=
  let hundredths :=
    if fexp x <? 0
    then div_nearest_even (100 * fmant x) (2 ^ (- fexp x))
    else 100 * fmant x * 2 ^ fexp x in
  true_div hundredths 100.

(** A returned number: the [int] of [else 0] or a [float]. *)
Inductive number : Type :=
| Int (z : Z)
| Flt (x : float).

Definition float_value (x : float) : Q :=
  if fexp x <? 0 then Qmake (fmant x) (Z.to_pos (2 ^ (- fexp x)))
  else inject_Z (fmant x * 2 ^ fexp x).

Definition value (r : number) : Q :=
  match r with
  | Int z => inject_Z z
  | Flt x => float_value x
  end.

(** [sum(frequency_dictionary.values())] *)
Definition sum_values (frequency_dictionary : list (string * Z)) : Z :=
  foldl (fun acc item => acc + item.2) 0 frequency_dictionary.

Definition compute_ttr_from_frequencies
    (frequency_dictionary : list (string * Z)) : number :=
  let num_types := Z.of_nat (length frequency_dictionary) in
  let num_tokens := sum_values frequency_dictionary in
  if 0 <? num_tokens then Flt (round2 (true_div num_types num_tokens))
  else Int 0.


(** ** Vocabulary of the statements *)

(** No string of [ignored] is a prefix or a suffix of [s]. *)
Definition no_edge_match (ignored : list string) (s : string) : Prop :=
  Forall (fun ign => Py.startswith s ign = false /\ Py.endswith s ign = false)
         ignored.

(** [s] has no whitespace character. *)
Definition spaceless (s : string) : Prop :=
  Py.all_chars (fun c => negb (Py.isspace c)) s = true.

(** The record of a marked line followed by the continuation lines
    [continuations]. *)
Definition merged (line : string) (continuations : list string) : string :=
  foldl (fun text c => text +:+ " " +:+ Py.strip c) (Py.strip line)
        continuations.

(** [lines] is empty or begins with a marked line. *)
Definition starts_marked (lines : list string) : Prop :=
  match lines with
  | [] => True
  | line :: _ => is_marked (Py.strip line) = true
  end.

(** The parts of a line of the body, as [parse_line] takes them. *)
Definition line_head (line : string) : string :=
  default "" (Py.split_once Py.TAB line !! 0%nat).

Definition line_marker (line : string) : string :=
  Py.strip_colon (line_head line).

Definition line_text (line : string) : option string :=
  Py.split_once Py.TAB line !! 1%nat.

(** The branch of [parse_line] that a line takes. *)
Definition is_speaker_line (line : string) : bool :=
  Py.contains_char "*" (line_head line).

Definition is_dependent_line (line : string) : bool :=
  negb (is_speaker_line line) && Py.contains_char "%" (line_head line).

(** The dictionary that [update] builds from dependent lines. *)
Definition tiers_of (lines : list string) (tiers : gmap string string)
  : gmap string string :=
  foldl (fun d line => <[ line_marker line := default "" (line_text line) ]> d)
        tiers lines.


(** [parse_line] with its tests named: the state a speaker line starts
    from, and the two updates of the current entry. *)
Definition close_entry (st : parser) : parser :=
  if truthy (speakers_tier (current_entry st)) then
    Parser (structured_transcript st ++ [current_entry st])
           (Entry (Some (id_counter st + 1)) ∅ ∅)
           (id_counter st + 1)
  else st.

Definition set_speaker (st : parser) (marker text : string) : parser :=
  Parser (structured_transcript st)
         (Entry (entry_id (current_entry st))
                {[ marker := text ]}
                (dependent_tiers (current_entry st)))
         (id_counter st).

Definition add_dependent (st : parser) (marker text : string) : parser :=
  Parser (structured_transcript st)
         (Entry (entry_id (current_entry st))
                (speakers_tier (current_entry st))
                (<[ marker := text ]> (dependent_tiers (current_entry st))))
         (id_counter st).

(** What holds of the state of the loop at every turn: the entries put
    aside have a speaker's tier, and as long as the current entry has
    none, nothing has been put aside. *)
Definition parser_inv (st : parser) : Prop :=
  Forall (fun e => speakers_tier e <> ∅) (structured_transcript st) /\
  (speakers_tier (current_entry st) = ∅ -> structured_transcript st = []).

(** The lines from which [get_participants_and_age] reads, and the
    fields of an [@ID] line that hold a [;]. *)
Definition participants_lines (recording : list string) : list string :=
  List.filter (fun line => Py.startswith line "@Participants")
              (get_cleaned_transcript recording).

Definition age_lines (recording : list string) : list string :=
  List.filter (fun line => Py.startswith line "@ID" && Py.contains_char ";" line)
              (get_cleaned_transcript recording).

Definition age_fields (line : string) : list string :=
  List.filter (Py.contains_char ";") (Py.split_on "|" line).

(** The characters that [int] accepts. *)
Definition int_char (c : ascii) : bool :=
  is_digit c || Ascii.eqb c "_" || Ascii.eqb c "+" || Ascii.eqb c "-".

(** A float between 0 and 1, as the quotients of this file are. *)
Definition unit_float (x : float) : Prop :=
  fexp x <= 0 /\ 0 <= fmant x <= 2 ^ (- fexp x).

From Stdlib Require Import Sorted.

(** ** transcript.py: the remaining methods *)

Definition get_participant_tiers_markers (recording : list string)
  : result (list string) :=
  pa ← get_participants_and_age recording;
  let list_of_participants := participants pa in
  Ok (map (fun bit => "*" +:+ bit)
          (List.filter (fun bit => Nat.eqb (String.length bit) 3)
                       (Py.split_on " " list_of_participants))).

(** [utterance.replace("[: ", "[:")]: the occurrences from left to right,
    without overlap. *)
Fixpoint replace_bracket (s : string) : string :=
  match s with
  | EmptyString => EmptyString
  | String a t =>
      match t with
      | String b (String c t') =>
          if Ascii.eqb a "[" && Ascii.eqb b ":" && Ascii.eqb c " "
          then String "[" (String ":" (replace_bracket t'))
          else String a (replace_bracket t)
      | _ => String a (replace_bracket t)
      end
  end.

(** [word in list_of_strings_to_be_ignored] *)
Definition is_ignored (ignored : list string) (word : string) : bool :=
  existsb (String.eqb word) ignored.

(** [word.startswith(("[:", "[*"))] *)
Definition is_marking (word : string) : bool :=
  Py.startswith word "[:" || Py.startswith word "[*".

(** The words of an utterance that are counted: the body of the loop of
    [get_word_mlu] up to [len(list_of_words)]. *)
Definition list_of_words (ignored : list string) (utterance : string)
  : list string :=
  let utterance := replace_bracket utterance in
  let list_of_words := Py.split utterance in
  let list_of_words :=
    List.filter (fun word => negb (is_ignored ignored word)) list_of_words in
  List.filter (fun word => negb (is_marking word)) list_of_words.

(** [element for element in structured_transcript
     if speaker in element["speaker's tier"]] *)
Definition filtered_by_speaker (speaker : string) (entries : list entry)
  : list entry :=
  List.filter (fun el => bool_decide (is_Some (speakers_tier el !! speaker)))
              entries.

(** The variables of the loop of [get_word_mlu]. *)
Record mlu_state := MluState {
  total_words : Z;
  total_utterances : Z;
  word_mlus : list Z
}.

(** The body of the loop.  The entries it runs over have [speaker] as a
    key of their speaker's tier. *)
Definition count_utterance (speaker : string) (ignored : list string)
    (st : mlu_state) (element : entry) : mlu_state :=
  let utterance := default "" (speakers_tier element !! speaker) in
  let words := Z.of_nat (length (list_of_words ignored utterance)) in
  MluState (total_words st + words)
           (total_utterances st + 1)
           (word_mlus st ++ [words]).

(** The dictionary with the keys ["word mlu"] and
    ["word mlu standard deviation"]. *)
Record word_mlu_result := WordMLU {
  word_mlu : number;
  word_mlu_standard_deviation : number
}.

Section WordMLU.

(** [round(math.sqrt(variance), 2)] for the counts of two utterances or
    more.  The float sum, power and square root that lead to it are not
    modelled: the value is left open. *)
Variable std_dev_of : list Z -> float.

Definition get_word_mlu (recording : list string) (speaker : string)
    (ignored : list string) : result word_mlu_result :=
  structured_transcript ← get_structured_transcript recording;
  let st :=
    foldl (count_utterance speaker ignored) (MluState 0 0 [])
          (filtered_by_speaker speaker structured_transcript) in
  let mlu :=
    if 0 <? total_utterances st
    then Flt (round2 (true_div (total_words st) (total_utterances st)))
    else Int 0 in
  let std_dev :=
    if (1 <? length (word_mlus st))%nat then Flt (std_dev_of (word_mlus st))
    else Int 0 in
  Ok (WordMLU mlu std_dev).

End WordMLU.

(** ** Vocabulary of the further statements *)

(** The raw lines that are marked once stripped. *)
Definition marked_lines (recording : list string) : list string :=
  List.filter (fun raw => is_marked (Py.strip raw)) recording.

(** 1 when the first raw line is a continuation line, else 0. *)
Definition leading_continuation (recording : list string) : nat :=
  match recording with
  | raw :: _ => if is_marked (Py.strip raw) then 0 else 1
  | [] => 0
  end.

(** The lines of the body that take the speaker branch. *)
Definition speaker_lines (body : list string) : list string :=
  List.filter is_speaker_line body.

(** The id of the entry at position [i] of the structured transcript. *)
Definition entry_id_at (i : nat) : option Z :=
  match i with
  | O => None
  | S _ => Some (Z.of_nat i + 1)
  end.

(** What the loop keeps true of the ids. *)
Definition parser_ids (st : parser) : Prop :=
  id_counter st = Z.of_nat (length (structured_transcript st)) + 1 /\
  entry_id (current_entry st) = entry_id_at (length (structured_transcript st)) /\
  forall i e, structured_transcript st !! i = Some e -> entry_id e = entry_id_at i.

(** The keys of an entry: its speaker's tier is empty or has the one key
    of a speaker line, which holds a [*]; the keys of its dependent tiers
    hold a [%] and no [*]. *)
Definition entry_keys (e : entry) : Prop :=
  (speakers_tier e = ∅ \/
   exists marker text, speakers_tier e = {[ marker := text ]} /\
                       Py.contains_char "*" marker = true) /\
  map_Forall (fun marker _ => Py.contains_char "%" marker = true /\
                              Py.contains_char "*" marker = false)
             (dependent_tiers e).

(** How many entries a run of the loop from state [st] over [lines]
    ends with. *)
Definition entries_after (st : parser) (lines : list string) : nat :=
  let done := length (structured_transcript st) in
  let speakers := length (speaker_lines lines) in
  if truthy (speakers_tier (current_entry st)) then done + 1 + speakers
  else
    match speakers with
    | O =>
        if truthy (dependent_tiers (current_entry st))
           || match lines with [] => false | _ :: _ => true end
        then done + 1 else done
    | S _ => done + speakers
    end.

(** [token] is a run of consecutive characters of [text]. *)
Definition substring_of (token text : string) : Prop :=
  exists before after, text = before +:+ token +:+ after.

(** [a] may stand before [b] in a table sorted by descending count. *)
Definition count_ge (a b : string * Z) : Prop := b.2 <= a.2.

(** [table.get(token, 0)] *)
Fixpoint table_count (table : list (string * Z)) (token : string) : Z :=
  match table with
  | [] => 0
  | (k, v) :: rest => if String.eqb k token then v else table_count rest token
  end.

(** How often [token] occurs in [tokens]. *)
Definition occurrences (tokens : list string) (token : string) : Z :=
  Z.of_nat (length (List.filter (String.eqb token) tokens)).

(** The tokens that [get_frequencies] counts, in the order in which the
    loops meet them: those of the chosen tier of the entries of the
    speaker that the filter does not skip. *)
Definition counted_tokens (fuel : nat) (speaker tier : string)
    (pattern : option string) (match_type : string) (entries : list entry)
  : result (list string) :=
  for_each (fun acc el =>
              tokens ← tokenize fuel (tier_text speaker tier el) default_ignored;
              Ok (acc ++ List.filter
                           (fun token => negb (skipped pattern match_type token))
                           tokens))
           [] (filtered_by_speaker speaker entries).

(** What the loops of [get_frequencies] keep true of [word_counts]: no
    key twice, counts of at least one, and only tokens that the filter
    lets through as keys. *)
Definition frequency_table (pattern : option string) (match_type : string)
    (table : list (string * Z)) : Prop :=
  NoDup (map fst table) /\
  Forall (fun item => 1 <= item.2) table /\
  Forall (fun item => is_token item.1 = true /\
                      skipped pattern match_type item.1 = false) table.

(** The number of counted words of the utterance of [speaker] in
    [element]. *)
Definition utterance_words (speaker : string) (ignored : list string)
    (element : entry) : Z :=
  Z.of_nat (length (list_of_words ignored
                      (default "" (speakers_tier element !! speaker)))).

(** The sum of a list of integers. *)
Definition sum_ints (xs : list Z) : Z := foldl Z.add 0 xs.
(** * Properties *)

(** ** The primitives on examples *)

Example split_ex : Py.split "  a  bc d " = ["a"; "bc"; "d"].
Proof. reflexivity. Qed.

Example strip_ex :
  Py.strip (String Py.TAB " @x y  " +:+ String Py.LF "") = "@x y".
Proof. reflexivity. Qed.

Example strip_colon_ex : Py.strip_colon "*CHI:" = "*CHI".
Proof. reflexivity. Qed.

Example split_on_ex : Py.split_on "|" "a||b|" = ["a"; ""; "b"; ""].
Proof. reflexivity. Qed.

Example split_once_ex : Py.split_once ":" "a:b:c" = ["a"; "b:c"].
Proof. reflexivity. Qed.

Example endswith_ex :
  Py.endswith "abc" "bc" = true /\ Py.endswith "abc" "" = true /\
  Py.endswith "abc" "ab" = false.
Proof. repeat split; reflexivity. Qed.

Example drop_last_ex :
  Py.drop_last 1 "abc" = "ab" /\ Py.drop_last 0 "abc" = "".
Proof. split; reflexivity. Qed.

Example py_int_ex :
  py_int " 03 " = Ok 3 /\ py_int "-1_0" = Ok (-10) /\
  py_int "" = Raise ValueError /\ py_int "1__0" = Raise ValueError /\
  py_int "+ 1" = Raise ValueError.
Proof. repeat split; reflexivity. Qed.

(** [1 / 8] is 0.125 exactly and rounds to the even 0.12; [1 / 200] is
    the float just above 0.005 and rounds to 0.01. *)
(** [int] reads 4300 digits and refuses 4301, whatever their value. *)
Example py_int_digit_cap :
  (exists v, py_int (String.concat "" (List.repeat "1" 4300)) = Ok v) /\
  py_int (String.concat "" (List.repeat "1" 4301)) = Raise ValueError /\
  py_int (String.concat "" (List.repeat "0" 4301)) = Raise ValueError /\
  py_int (String "-" (String.concat "_" (List.repeat "1" 4300)))
    = py_int (String "-" (String.concat "" (List.repeat "1" 4300))).
Proof.
  split; [eexists; vm_compute; reflexivity|].
  split; [vm_compute; reflexivity|].
  split; vm_compute; reflexivity.
Qed.

Example round2_ex :
  true_div 1 8 = Float (2 ^ 52) (-55) /\
  round2 (true_div 1 8) = true_div 12 100 /\
  round2 (true_div 1 200) = true_div 1 100 /\
  round2 (true_div 3 200) = true_div 1 100 /\
  true_div 1 3 = Float 6004799503160661 (-54).
Proof. repeat split; vm_compute; reflexivity. Qed.

Example tokenize_ex :
  tokenize 30 "(.)hello!! [?] ... world. x," default_ignored
    = Ok ["hello"; "world"; "x"].
Proof. reflexivity. Qed.

Example get_frequencies_ex :
  get_frequencies 14 [Py.tabbed "*CHI:" "[:foo] bar bar"]
    "*CHI" "utterance" (Some "bar") "equals" = Ok [("bar", 2)].
Proof. vm_compute. reflexivity. Qed.

Example get_frequencies_order_ex :
  get_frequencies 40
    [Py.tabbed "*CHI:" "a b b c"; Py.tabbed "*MOT:" "b";
     Py.tabbed "*CHI:" "c d"]
    "*CHI" "utterance" None "contains"
  = Ok [("b", 2); ("c", 2); ("a", 1); ("d", 1)].
Proof. vm_compute. reflexivity. Qed.

(** ** Facts about the string primitives *)

Section StringFacts.

Implicit Types (s t p : string) (c : ascii) (n k : nat).

Lemma nonempty_true s : Py.nonempty s = true <-> s <> EmptyString.
Proof. destruct s; simpl; split; intros; congruence. Qed.

Lemma nonempty_length s : Py.nonempty s = true <-> (0 < String.length s)%nat.
Proof. destruct s; simpl; split; intros; (congruence || lia). Qed.

Lemma length_drop n s :
  String.length (Py.drop n s) = (String.length s - n)%nat.
Proof.
  revert s. induction n as [|n IH]; intros [|c t]; simpl; try reflexivity.
  apply IH.
Qed.

Lemma length_take n s :
  String.length (Py.take n s) = Nat.min n (String.length s).
Proof.
  revert s. induction n as [|n IH]; intros [|c t]; simpl; try reflexivity.
  now rewrite IH.
Qed.

Lemma startswith_empty s : Py.startswith s EmptyString = true.
Proof. destruct s; reflexivity. Qed.

Lemma endswith_unfold s p :
  Py.endswith s p =
  String.eqb s p || match s with
                    | EmptyString => false
                    | String _ t => Py.endswith t p
                    end.
Proof. destruct s; reflexivity. Qed.

Lemma endswith_empty s : Py.endswith s EmptyString = true.
Proof.
  induction s as [|c t IH]; [reflexivity|].
  rewrite endswith_unfold, IH. apply orb_true_r.
Qed.

Lemma startswith_length s p :
  Py.startswith s p = true -> (String.length p <= String.length s)%nat.
Proof.
  unfold Py.startswith. revert s.
  induction p as [|a p IH]; intros [|b s]; simpl; try (intros; lia); try discriminate.
  destruct (ascii_dec a b); [|discriminate].
  intros H. apply IH in H. lia.
Qed.

Lemma endswith_length s p :
  Py.endswith s p = true -> (String.length p <= String.length s)%nat.
Proof.
  induction s as [|c t IH]; rewrite endswith_unfold; intros H;
    apply orb_true_iff in H; destruct H as [H|H]; try discriminate.
  - apply String.eqb_eq in H. subst. simpl. lia.
  - apply String.eqb_eq in H. subst. simpl. lia.
  - apply IH in H. simpl. lia.
Qed.

Lemma startswith_nil p :
  Py.startswith EmptyString p = true -> p = EmptyString.
Proof. destruct p; [reflexivity|discriminate]. Qed.

Lemma endswith_nil p :
  Py.endswith EmptyString p = true -> p = EmptyString.
Proof.
  intros H. apply endswith_length in H. destruct p; [reflexivity|].
  simpl in H. lia.
Qed.

Lemma all_chars_drop f n s :
  Py.all_chars f s = true -> Py.all_chars f (Py.drop n s) = true.
Proof.
  revert s. induction n as [|n IH]; intros [|c t]; simpl; auto.
  intros H. apply andb_true_iff in H. apply IH, H.
Qed.

Lemma all_chars_take f n s :
  Py.all_chars f s = true -> Py.all_chars f (Py.take n s) = true.
Proof.
  revert s. induction n as [|n IH]; intros [|c t]; simpl; auto.
  intros H. apply andb_true_iff in H. destruct H as [H1 H2].
  rewrite H1. simpl. now apply IH.
Qed.

Lemma all_chars_drop_last f k s :
  Py.all_chars f s = true -> Py.all_chars f (Py.drop_last k s) = true.
Proof.
  destruct k; simpl; [reflexivity|]. apply all_chars_take.
Qed.

End StringFacts.

(** ** The tokenizer *)

Section Tokenizer.

Variable ignored : list string.

(** One [ign] never lengthens the token, and once [stripping] is set the
    token is shorter than the one the pass started from (of length [n]). *)
Lemma strip_ign_measure n cleaned stripping ign :
  (0 < n)%nat ->
  (String.length cleaned <= n)%nat ->
  (stripping = true -> (String.length cleaned < n)%nat) ->
  (String.length (strip_ign (cleaned, stripping) ign).1 <= n)%nat /\
  ((strip_ign (cleaned, stripping) ign).2 = true ->
   (String.length (strip_ign (cleaned, stripping) ign).1 < n)%nat).
Proof.
  intros Hn Hle Hlt. unfold strip_ign.
  destruct ign as [|a ign'].
  - rewrite startswith_empty, endswith_empty. simpl. lia.
  - assert (Hk : (0 < String.length (String a ign'))%nat) by (simpl; lia).
    generalize dependent (String a ign'). intros ign Hk.
    destruct (Py.startswith cleaned ign) eqn:Hs;
      destruct (Py.endswith _ ign) eqn:He; cbn [fst snd];
      try apply startswith_length in Hs; try apply endswith_length in He;
      unfold Py.drop_last;
      try (destruct (String.length ign) eqn:E; [lia|]);
      rewrite ?length_take, ?length_drop in *; try lia.
    auto.
Qed.

Lemma strip_fold_measure n igns cleaned stripping :
  (0 < n)%nat ->
  (String.length cleaned <= n)%nat ->
  (stripping = true -> (String.length cleaned < n)%nat) ->
  (String.length (foldl strip_ign (cleaned, stripping) igns).1 <= n)%nat /\
  ((foldl strip_ign (cleaned, stripping) igns).2 = true ->
   (String.length (foldl strip_ign (cleaned, stripping) igns).1 < n)%nat).
Proof.
  intros Hn. revert cleaned stripping.
  induction igns as [|ign igns IH]; intros cleaned stripping Hle Hlt;
    cbn [foldl].
  - auto.
  - pose proof (strip_ign_measure n cleaned stripping ign Hn Hle Hlt) as H.
    destruct (strip_ign (cleaned, stripping) ign) as [c b] eqn:E.
    cbn [fst snd] in H. apply IH; tauto.
Qed.

(** A pass that sets [stripping] strictly shortens a non-empty token. *)
Lemma strip_pass_shortens cleaned :
  cleaned <> EmptyString ->
  (String.length (strip_pass ignored cleaned).1 <= String.length cleaned)%nat /\
  ((strip_pass ignored cleaned).2 = true ->
   (String.length (strip_pass ignored cleaned).1 < String.length cleaned)%nat).
Proof.
  intros Hne. unfold strip_pass.
  apply strip_fold_measure; [|lia|discriminate].
  destruct cleaned; [congruence|simpl; lia].
Qed.

(** The loop ends when the fuel is at least the length of the token. *)
Lemma strip_loop_terminates fuel cleaned stripping :
  (String.length cleaned <= fuel)%nat ->
  exists cleaned', strip_loop fuel ignored cleaned stripping = Ok cleaned'.
Proof.
  revert cleaned stripping.
  induction fuel as [|fuel IH]; intros cleaned stripping Hlen.
  - destruct cleaned; [|simpl in Hlen; lia].
    exists EmptyString. simpl. now rewrite andb_false_r.
  - simpl. destruct (stripping && Py.nonempty cleaned) eqn:Hc; [|eauto].
    apply andb_true_iff in Hc. destruct Hc as [_ Hne].
    apply nonempty_true in Hne.
    destruct (strip_pass_shortens cleaned Hne) as [Hle Hlt].
    destruct (strip_pass ignored cleaned) as [c b] eqn:E. simpl in *.
    destruct b.
    + apply IH. specialize (Hlt eq_refl). lia.
    + destruct fuel; simpl; eauto.
Qed.

End Tokenizer.

(** ** [str.split()] *)

Section Split.

Lemma cons_first_Forall (P Q : string -> Prop) c pieces :
  Q (String c EmptyString) ->
  (forall w, P w -> Q (String c w)) ->
  (forall w, P w -> Q w) ->
  Forall P pieces -> Forall Q (Py.cons_first c pieces).
Proof.
  intros Hc Hw Hmono HP. destruct HP as [|w ws Hw0 Hws]; simpl.
  - constructor; [exact Hc|constructor].
  - constructor; [auto|]. eapply Forall_impl; eauto.
Qed.

(** Every piece of a split is a non-empty run without whitespace, no
    longer than the text. *)
Lemma split_pieces s :
  Forall (fun raw => raw <> EmptyString /\ spaceless raw /\
                     (String.length raw <= String.length s)%nat)
         (Py.split s).
Proof.
  unfold spaceless.
  induction s as [|c t IH]; [constructor|].
  assert (Hweak : Forall (fun raw => raw <> EmptyString /\
             Py.all_chars (fun c => negb (Py.isspace c)) raw = true /\
             (String.length raw <= String.length (String c t))%nat)
           (Py.split t)).
  { eapply Forall_impl; [exact IH|]. simpl. intros raw (?&?&?). auto with lia. }
  cbn [Py.split]. destruct (Py.isspace c) eqn:Hc; [exact Hweak|].
  destruct t as [|c' t'].
  - constructor; [|constructor]. simpl. rewrite Hc. auto with lia.
  - destruct (Py.isspace c') eqn:Hc'.
    + constructor; [|exact Hweak]. simpl. rewrite Hc. repeat split; [discriminate|lia].
    + eapply cons_first_Forall; [| | |exact IH].
      * simpl. rewrite Hc. repeat split; [discriminate|lia].
      * intros w (_&Hw&Hl). cbn [Py.all_chars String.length] in *.
        rewrite Hc, Hw. repeat split; [discriminate|lia].
      * cbn [String.length]. intros w (?&?&?). auto with lia.
Qed.

(** A non-empty string without whitespace splits into itself. *)
Lemma split_spaceless s :
  s <> EmptyString -> spaceless s -> Py.split s = [s].
Proof.
  unfold spaceless.
  induction s as [|c t IH]; [congruence|]. intros _ H.
  cbn [Py.all_chars] in H. apply andb_true_iff in H. destruct H as [Hc Ht].
  apply negb_true_iff in Hc. cbn [Py.split]. rewrite Hc.
  destruct t as [|c' t']; [reflexivity|].
  pose proof Ht as Ht'. cbn [Py.all_chars] in Ht'.
  apply andb_true_iff in Ht'. destruct Ht' as [Hc' _].
  apply negb_true_iff in Hc'. rewrite Hc'.
  rewrite IH; [reflexivity|discriminate|exact Ht].
Qed.

End Split.

Section TokenizerResults.

Variable ignored : list string.

Lemma strip_ign_spaceless cleaned stripping ign :
  spaceless cleaned -> spaceless (strip_ign (cleaned, stripping) ign).1.
Proof.
  unfold spaceless, strip_ign. intros H.
  destruct (Py.startswith cleaned ign); destruct (Py.endswith _ ign);
    cbn [fst snd]; auto using all_chars_drop, all_chars_drop_last.
Qed.

Lemma strip_fold_spaceless igns cleaned stripping :
  spaceless cleaned ->
  spaceless (foldl strip_ign (cleaned, stripping) igns).1.
Proof.
  revert cleaned stripping.
  induction igns as [|ign igns IH]; intros cleaned stripping H; cbn [foldl].
  - exact H.
  - pose proof (strip_ign_spaceless cleaned stripping ign H) as H1.
    destruct (strip_ign (cleaned, stripping) ign) as [c b]. apply IH, H1.
Qed.

(** A turn that leaves [stripping] unset matched on neither edge. *)
Lemma strip_ign_unset cleaned stripping ign c :
  strip_ign (cleaned, stripping) ign = (c, false) ->
  c = cleaned /\ stripping = false /\
  Py.startswith cleaned ign = false /\ Py.endswith cleaned ign = false.
Proof.
  unfold strip_ign.
  destruct (Py.startswith cleaned ign) eqn:Hs.
  - destruct (Py.endswith _ ign); intros [=].
  - destruct (Py.endswith cleaned ign) eqn:He; intros [=]. auto.
Qed.

Lemma strip_fold_unset igns cleaned stripping c :
  foldl strip_ign (cleaned, stripping) igns = (c, false) ->
  c = cleaned /\ stripping = false /\ no_edge_match igns cleaned.
Proof.
  unfold no_edge_match. revert cleaned stripping.
  induction igns as [|ign igns IH]; intros cleaned stripping; cbn [foldl].
  - intros [= -> ->]. auto.
  - destruct (strip_ign (cleaned, stripping) ign) as [c1 b1] eqn:E.
    intros H. apply IH in H. destruct H as (-> & -> & Hrest).
    apply strip_ign_unset in E. destruct E as (-> & -> & Hs & He). auto.
Qed.

Lemma strip_fold_no_match igns cleaned :
  no_edge_match igns cleaned ->
  foldl strip_ign (cleaned, false) igns = (cleaned, false).
Proof.
  unfold no_edge_match.
  induction 1 as [|ign igns [Hs He] _ IH]; cbn [foldl]; [reflexivity|].
  unfold strip_ign at 2. now rewrite Hs, He.
Qed.

(** What the loop hands over is empty or has no ignored edge. *)
Lemma strip_loop_result fuel cleaned stripping cleaned' :
  (stripping = false -> no_edge_match ignored cleaned) ->
  strip_loop fuel ignored cleaned stripping = Ok cleaned' ->
  cleaned' = EmptyString \/ no_edge_match ignored cleaned'.
Proof.
  revert cleaned stripping.
  induction fuel as [|fuel IH]; intros cleaned stripping Hinv; cbn [strip_loop];
    destruct (stripping && Py.nonempty cleaned) eqn:Hc; try discriminate.
  - intros [= <-]. apply andb_false_iff in Hc. destruct Hc as [Hc|Hc]; auto.
    destruct cleaned; [auto|discriminate].
  - destruct (strip_pass ignored cleaned) as [c b] eqn:E. apply IH.
    intros ->. apply strip_fold_unset in E. destruct E as (-> & _ & H). exact H.
  - intros [= <-]. apply andb_false_iff in Hc. destruct Hc as [Hc|Hc]; auto.
    destruct cleaned; [auto|discriminate].
Qed.

Lemma strip_loop_spaceless fuel cleaned stripping cleaned' :
  spaceless cleaned ->
  strip_loop fuel ignored cleaned stripping = Ok cleaned' ->
  spaceless cleaned'.
Proof.
  revert cleaned stripping.
  induction fuel as [|fuel IH]; intros cleaned stripping Hsp; cbn [strip_loop];
    destruct (stripping && Py.nonempty cleaned); try discriminate;
    try (intros [= <-]; exact Hsp).
  pose proof (strip_fold_spaceless ignored cleaned false Hsp) as H.
  fold (strip_pass ignored cleaned) in H.
  destruct (strip_pass ignored cleaned) as [c b]. apply IH, H.
Qed.

End TokenizerResults.

Section Tokenize.

Variable ignored : list string.

Lemma tokenize_raws_terminates fuel raws :
  Forall (fun raw => (String.length raw <= fuel)%nat) raws ->
  exists tokens, tokenize_raws fuel ignored raws = Ok tokens.
Proof.
  induction 1 as [|raw raws Hraw _ [tokens IH]]; cbn [tokenize_raws].
  - eauto.
  - destruct (strip_loop_terminates ignored fuel raw true Hraw) as [c Hc].
    rewrite Hc, IH. cbn. eauto.
Qed.

Lemma tokenize_raws_tokens fuel raws tokens :
  Forall spaceless raws ->
  tokenize_raws fuel ignored raws = Ok tokens ->
  Forall (fun token => is_token token = true /\ spaceless token /\
                       no_edge_match ignored token) tokens.
Proof.
  intros Hraws. revert tokens.
  induction Hraws as [|raw raws Hraw _ IH]; intros tokens; cbn [tokenize_raws].
  - intros [= <-]. constructor.
  - destruct (strip_loop fuel ignored raw true) as [c| |] eqn:Hc;
      cbn; try discriminate.
    destruct (tokenize_raws fuel ignored raws) as [toks| |];
      cbn; try discriminate.
    intros [= <-]. specialize (IH toks eq_refl).
    destruct (is_token c) eqn:Htok; [|exact IH].
    constructor; [|exact IH]. split; [exact Htok|]. split.
    + eapply strip_loop_spaceless; eauto.
    + apply strip_loop_result in Hc; [|discriminate].
      destruct Hc as [->|Hc]; [discriminate|exact Hc].
Qed.

(** A token with no ignored edge goes through [tokenize] unchanged. *)
Lemma tokenize_fixed_point fuel token :
  is_token token = true -> spaceless token -> no_edge_match ignored token ->
  tokenize (S fuel) token ignored = Ok [token].
Proof.
  intros Htok Hsp Hno. unfold tokenize.
  assert (Hne : Py.nonempty token = true).
  { unfold is_token in Htok. apply andb_true_iff in Htok. tauto. }
  rewrite split_spaceless; [|now apply nonempty_true|exact Hsp].
  cbn [tokenize_raws strip_loop]. rewrite Hne. cbn [andb].
  unfold strip_pass. rewrite (strip_fold_no_match _ _ Hno).
  destruct fuel; cbn; now rewrite Htok.
Qed.

End Tokenize.

(** An empty string among the ignored ones empties the token in the pass:
    its suffix test succeeds and [cleaned[:-0]] is empty. *)
Lemma strip_fold_empty igns stripping :
  foldl strip_ign (EmptyString, stripping) igns = (EmptyString, stripping)
  \/ foldl strip_ign (EmptyString, stripping) igns = (EmptyString, true).
Proof.
  revert stripping. induction igns as [|ign igns IH]; intros stripping;
    cbn [foldl]; [auto|].
  destruct ign as [|a ign'].
  - cbn. destruct (IH true); auto.
  - cbn. apply IH.
Qed.

Lemma strip_fold_empty_set igns :
  foldl strip_ign (EmptyString, true) igns = (EmptyString, true).
Proof. destruct (strip_fold_empty igns true); assumption. Qed.

Lemma strip_pass_empty_ignored ignored cleaned :
  EmptyString ∈ ignored -> strip_pass ignored cleaned = (EmptyString, true).
Proof.
  unfold strip_pass. generalize false as stripping.
  revert cleaned. induction ignored as [|ign igns IH]; intros cleaned stripping Hin.
  - inversion Hin.
  - cbn [foldl]. apply elem_of_cons in Hin. destruct Hin as [<-|Hin].
    + unfold strip_ign. rewrite startswith_empty.
      cbn [String.length Py.drop]. rewrite endswith_empty.
      cbn [Py.drop_last]. apply strip_fold_empty_set.
    + destruct (strip_ign (cleaned, stripping) ign) as [c b]. now apply IH.
Qed.

Lemma tokenize_raws_empty_ignored fuel ignored raws :
  EmptyString ∈ ignored ->
  Forall (fun raw => (String.length raw <= fuel)%nat) raws ->
  tokenize_raws fuel ignored raws = Ok [].
Proof.
  intros Hin. induction 1 as [|raw raws Hraw _ IH]; cbn [tokenize_raws].
  - reflexivity.
  - rewrite IH.
    assert (Hc : strip_loop fuel ignored raw true = Ok EmptyString).
    { destruct fuel as [|fuel].
      - destruct raw; [reflexivity|simpl in Hraw; lia].
      - cbn [strip_loop]. destruct raw as [|c t]; [reflexivity|].
        cbn [andb Py.nonempty]. rewrite strip_pass_empty_ignored by exact Hin.
        destruct fuel; reflexivity. }
    rewrite Hc. reflexivity.
Qed.

Lemma split_lengths fuel text :
  (String.length text <= fuel)%nat ->
  Forall (fun raw => (String.length raw <= fuel)%nat) (Py.split text).
Proof.
  intros H. eapply Forall_impl; [apply split_pieces|].
  simpl. intros raw (_ & _ & Hl). lia.
Qed.

(** C10 (amended): for every text and every list of ignored strings,
    with or without an empty string in it, [tokenize] ends with a finite
    list of tokens: a number of passes of the stripping loop equal to the
    length of the text is enough for each raw token.  An empty string
    anywhere in the list does not make the loop run on: it empties the
    token in one pass, so that no token is yielded at all. *)
Theorem tokenize_terminates (text : string) (ignored : list string) (fuel : nat) :
  (String.length text <= fuel)%nat ->
  (exists tokens, tokenize fuel text ignored = Ok tokens) /\
  (EmptyString ∈ ignored -> tokenize fuel text ignored = Ok []).
Proof.
  intros Hfuel. unfold tokenize. split.
  - apply tokenize_raws_terminates, split_lengths, Hfuel.
  - intros Hin. apply tokenize_raws_empty_ignored; [exact Hin|].
    apply split_lengths, Hfuel.
Qed.

Lemma tokenize_terminates_witness :
  (String.length "(.)hello!! [?] world." <= 21)%nat /\
  EmptyString ∈ [","; EmptyString; "!"] /\
  (exists tokens,
     tokenize 21 "(.)hello!! [?] world." [","; EmptyString; "!"] = Ok tokens) /\
  tokenize 21 "(.)hello!! [?] world." [","; EmptyString; "!"] = Ok [].
Proof.
  assert (Hfuel : (String.length "(.)hello!! [?] world." <= 21)%nat)
    by (vm_compute; lia).
  assert (Hin : EmptyString ∈ [","; EmptyString; "!"])
    by (right; left).
  destruct (tokenize_terminates "(.)hello!! [?] world."
              [","; EmptyString; "!"] 21 Hfuel) as [Hends Hnone].
  split; [exact Hfuel|]. split; [exact Hin|].
  split; [exact Hends|exact (Hnone Hin)].
Defined.

(** C10, as stated, fails: with the empty string as the only ignored
    string the loop on the raw token ["ab"] ends after one pass. *)
Lemma empty_ignored_string_ends_loop :
  strip_loop 1 [EmptyString] "ab" true = Ok EmptyString /\
  ~ (forall fuel, strip_loop fuel [EmptyString] "ab" true = OutOfFuel).
Proof.
  split; [reflexivity|]. intros H. specialize (H 1%nat). discriminate H.
Qed.

(** C8: every token that [tokenize] yields is a fixed point of it: with
    the same ignored strings, tokenizing the token yields that one token
    unchanged, and none of the ignored strings is a prefix or a suffix of
    it. *)
Theorem tokenize_idempotent (fuel fuel' : nat) (text : string)
    (ignored tokens : list string) (token : string) :
  tokenize fuel text ignored = Ok tokens ->
  token ∈ tokens ->
  tokenize (S fuel') token ignored = Ok [token] /\
  no_edge_match ignored token.
Proof.
  unfold tokenize at 1. intros Hrun Hin.
  apply tokenize_raws_tokens in Hrun.
  - rewrite Forall_forall in Hrun. destruct (Hrun _ Hin) as (Htok & Hsp & Hno).
    split; [|exact Hno]. now apply tokenize_fixed_point.
  - eapply Forall_impl; [apply split_pieces|]. simpl. tauto.
Qed.

Lemma tokenize_idempotent_witness :
  tokenize 21 "(.)hello!! [?] world." default_ignored = Ok ["hello"; "world"] /\
  "world" ∈ ["hello"; "world"] /\
  tokenize 1 "world" default_ignored = Ok ["world"] /\
  no_edge_match default_ignored "world".
Proof.
  assert (H1 : tokenize 21 "(.)hello!! [?] world." default_ignored
               = Ok ["hello"; "world"]) by reflexivity.
  assert (H2 : "world" ∈ ["hello"; "world"]) by (right; left).
  split; [exact H1|]. split; [exact H2|].
  exact (tokenize_idempotent 21 0 _ _ _ _ H1 H2).
Defined.

(** ** Merging of continuation lines *)

Section CleanedTranscript.

Lemma append_to_last_snoc xs x suffix :
  append_to_last (xs ++ [x]) suffix = xs ++ [x +:+ suffix].
Proof.
  induction xs as [|y ys IH]; [reflexivity|].
  cbn [app append_to_last]. rewrite IH.
  destruct (ys ++ [x]) eqn:E; [|reflexivity].
  destruct ys; discriminate.
Qed.

Lemma clean_line_marked cleaned raw :
  is_marked (Py.strip raw) = true ->
  clean_line cleaned raw = cleaned ++ [Py.strip raw].
Proof. unfold clean_line. now intros ->. Qed.

Lemma clean_line_continuation cleaned x raw :
  is_marked (Py.strip raw) = false ->
  clean_line (cleaned ++ [x]) raw = cleaned ++ [x +:+ " " +:+ Py.strip raw].
Proof.
  unfold clean_line. intros ->. rewrite append_to_last_snoc.
  destruct (cleaned ++ [x]) eqn:E; [|reflexivity].
  destruct cleaned; discriminate.
Qed.

(** The lines read so far, but for the last one, are never touched. *)
Lemma clean_line_frame done x current raw :
  clean_line (done ++ x :: current) raw = done ++ clean_line (x :: current) raw.
Proof.
  destruct (@exists_last _ (x :: current)) as (ys & y & E); [discriminate|].
  rewrite E, app_assoc.
  destruct (is_marked (Py.strip raw)) eqn:Hm.
  - rewrite !clean_line_marked by exact Hm. now rewrite !app_assoc.
  - rewrite !clean_line_continuation by exact Hm. now rewrite !app_assoc.
Qed.

Lemma clean_line_nonempty cleaned raw : clean_line cleaned raw <> [].
Proof.
  unfold clean_line. destruct (is_marked (Py.strip raw)).
  - destruct cleaned; discriminate.
  - destruct cleaned as [|x [|y ys]]; discriminate.
Qed.

Lemma clean_lines_frame done x current lines :
  foldl clean_line (done ++ x :: current) lines =
  done ++ foldl clean_line (x :: current) lines.
Proof.
  revert x current. induction lines as [|raw lines IH]; intros x current;
    cbn [foldl]; [reflexivity|].
  rewrite clean_line_frame.
  destruct (clean_line (x :: current) raw) as [|y ys] eqn:E.
  - now apply clean_line_nonempty in E.
  - apply IH.
Qed.

Lemma clean_lines_continuations cleaned x continuations :
  Forall (fun c => is_marked (Py.strip c) = false) continuations ->
  foldl clean_line (cleaned ++ [x]) continuations =
  cleaned ++ [foldl (fun text c => text +:+ " " +:+ Py.strip c) x continuations].
Proof.
  intros H. revert x. induction H as [|c cs Hc _ IH]; intros x; cbn [foldl].
  - reflexivity.
  - rewrite clean_line_continuation by exact Hc. apply IH.
Qed.

Lemma clean_lines_restart cleaned lines :
  starts_marked lines ->
  foldl clean_line cleaned lines = cleaned ++ get_cleaned_transcript lines.
Proof.
  unfold get_cleaned_transcript.
  destruct lines as [|raw lines]; cbn [starts_marked foldl].
  - intros _. now rewrite app_nil_r.
  - intros Hm. rewrite !clean_line_marked by exact Hm.
    apply clean_lines_frame.
Qed.

(** A marked line and the run of continuation lines after it make one
    record, whatever comes before and after. *)
Lemma get_cleaned_transcript_run before line continuations after :
  is_marked (Py.strip line) = true ->
  Forall (fun c => is_marked (Py.strip c) = false) continuations ->
  starts_marked after ->
  get_cleaned_transcript (before ++ line :: continuations ++ after) =
  get_cleaned_transcript before ++ [merged line continuations]
    ++ get_cleaned_transcript after.
Proof.
  intros Hline Hconts Hafter. unfold get_cleaned_transcript at 1.
  rewrite foldl_app. cbn [foldl]. rewrite foldl_app.
  rewrite clean_line_marked by exact Hline.
  rewrite clean_lines_continuations by exact Hconts.
  rewrite clean_lines_restart by exact Hafter.
  unfold merged, get_cleaned_transcript. now rewrite <- app_assoc.
Qed.

End CleanedTranscript.

(** C9 (amended): when a continuation line [c] comes right after a
    marked line (one that starts with [@], [*] or [%] once stripped),
    [get_cleaned_transcript] has exactly one record for the marked line
    and the continuation lines after it, between the records of the
    lines before and those of the lines after.  Its text is the stripped
    marked line, one space and the stripped continuation when [c] is
    followed by a marked line or by the end of the input ([more] is
    empty); each further continuation line adds one space and its
    stripped content.  The empty input gives the empty list. *)
Theorem continuation_is_merged (before more after : list string)
    (line c : string) :
  is_marked (Py.strip line) = true ->
  is_marked (Py.strip c) = false ->
  Forall (fun c' => is_marked (Py.strip c') = false) more ->
  starts_marked after ->
  get_cleaned_transcript (before ++ line :: c :: more ++ after) =
    get_cleaned_transcript before
      ++ [foldl (fun text c' => text +:+ " " +:+ Py.strip c')
                (Py.strip line +:+ " " +:+ Py.strip c) more]
      ++ get_cleaned_transcript after
  /\ get_cleaned_transcript [] = [].
Proof.
  intros Hline Hc Hmore Hafter. split; [|reflexivity].
  apply (get_cleaned_transcript_run before line (c :: more) after); auto.
Qed.

Lemma continuation_is_merged_witness :
  get_cleaned_transcript
    (["@Begin"] ++ Py.tabbed "*CHI:" "hello "
       :: String " " (String Py.TAB ("world ." +:+ String Py.LF ""))
       :: [] ++ [Py.tabbed "%mor:" "n|hello n|world"]) =
    get_cleaned_transcript ["@Begin"]
      ++ [foldl (fun text c' => text +:+ " " +:+ Py.strip c')
            (Py.strip (Py.tabbed "*CHI:" "hello ") +:+ " "
             +:+ Py.strip (String " " (String Py.TAB
                   ("world ." +:+ String Py.LF ""))))
            []]
      ++ get_cleaned_transcript [Py.tabbed "%mor:" "n|hello n|world"]
  /\ get_cleaned_transcript [] = [].
Proof.
  apply (continuation_is_merged ["@Begin"] []
           [Py.tabbed "%mor:" "n|hello n|world"]
           (Py.tabbed "*CHI:" "hello ")
           (String " " (String Py.TAB ("world ." +:+ String Py.LF "")))).
  - reflexivity.
  - reflexivity.
  - constructor.
  - reflexivity.
Defined.

(** C9, as stated, fails when a second continuation line follows: the
    one record of the marked line holds both, so no record has the text
    "marked line, space, first continuation". *)
Lemma second_continuation_is_merged_too :
  get_cleaned_transcript [Py.tabbed "*CHI:" "one"; "two"; "three"]
    = [Py.tabbed "*CHI:" "one two three"] /\
  ~ (Py.strip (Py.tabbed "*CHI:" "one") +:+ " " +:+ Py.strip "two")
      ∈ get_cleaned_transcript [Py.tabbed "*CHI:" "one"; "two"; "three"].
Proof.
  split; [reflexivity|].
  intros H. apply list_elem_of_singleton in H. vm_compute in H. discriminate H.
Qed.

(** ** Utterances *)

(** C1 (the code at the input of the claim): the one record has the
    speaker's tier and the dependent tiers of the claim, but its id is
    [None], not 1: [id_counter] is only written into the entries made
    after the first one. *)
Theorem first_entry_has_no_id :
  get_structured_transcript
    [Py.tabbed "*CHI:" "hello world ."; Py.tabbed "%mor:" "n|hello n|world"]
  = Ok [Entry None {[ "*CHI" := "hello world ." ]}
                   {[ "%mor" := "n|hello n|world" ]}].
Proof. vm_compute. reflexivity. Qed.

Section ParseLine.

Lemma split_once_cons sep s :
  exists head rest, Py.split_once sep s = head :: rest.
Proof.
  induction s as [|c t (h & r & IH)]; cbn [Py.split_once]; [eauto|].
  destruct (Ascii.eqb c sep); [eauto|]. rewrite IH. cbn. eauto.
Qed.

(** The three branches of [parse_line]. *)
Lemma parse_line_unfold st line :
  parse_line st line =
  if is_speaker_line line then
    match line_text line with
    | Some text => Ok (set_speaker (close_entry st) (line_marker line) text)
    | None => Raise IndexError
    end
  else if Py.contains_char "%" (line_head line) then
    match line_text line with
    | Some text => Ok (add_dependent st (line_marker line) text)
    | None => Raise IndexError
    end
  else Ok st.
Proof.
  unfold parse_line, is_speaker_line, line_marker, line_text, line_head,
    close_entry, set_speaker, add_dependent, index.
  destruct (split_once_cons Py.TAB line) as (h & r & ->).
  cbn -[Py.contains_char truthy Py.strip_colon].
  destruct (Py.contains_char "*" h).
  - destruct (r !! 0%nat); cbn -[truthy Py.strip_colon]; [|reflexivity].
    destruct (truthy (speakers_tier (current_entry st))); reflexivity.
  - destruct (Py.contains_char "%" h); [|reflexivity].
    destruct (r !! 0%nat); reflexivity.
Qed.

Lemma truthy_true d : truthy d = true <-> d <> ∅.
Proof. unfold truthy. apply bool_decide_eq_true. Qed.

Lemma truthy_false d : truthy d = false <-> d = ∅.
Proof.
  unfold truthy. rewrite bool_decide_eq_false. split; [|auto].
  intros H. destruct (decide (d = ∅)); [assumption|contradiction].
Qed.

Lemma parser_inv_init : parser_inv parser_init.
Proof. split; [constructor|reflexivity]. Qed.

Lemma parse_line_inv st line st' :
  parse_line st line = Ok st' -> parser_inv st ->
  parser_inv st' /\
  (speakers_tier (current_entry st') = ∅ ->
   speakers_tier (current_entry st) = ∅ /\ is_speaker_line line = false).
Proof.
  rewrite parse_line_unfold. intros Hstep [Hall Hnone].
  destruct (is_speaker_line line) eqn:Hsp.
  - destruct (line_text line) as [text|]; [|discriminate].
    injection Hstep as <-. unfold parser_inv, set_speaker, close_entry. cbn.
    split.
    + split; [|intros H; now apply map_non_empty_singleton in H].
      destruct (truthy (speakers_tier (current_entry st))) eqn:Ht; cbn; [|exact Hall].
      apply Forall_app. split; [exact Hall|].
      constructor; [|constructor]. now apply truthy_true.
    + intros H. now apply map_non_empty_singleton in H.
  - destruct (Py.contains_char "%" (line_head line)).
    + destruct (line_text line) as [text|]; [|discriminate].
      injection Hstep as <-. unfold parser_inv, add_dependent. cbn. auto.
    + injection Hstep as <-. unfold parser_inv. auto.
Qed.

Lemma parse_lines_inv lines st st' :
  for_each parse_line st lines = Ok st' -> parser_inv st ->
  parser_inv st' /\
  (speakers_tier (current_entry st') = ∅ ->
   speakers_tier (current_entry st) = ∅ /\
   Forall (fun line => is_speaker_line line = false) lines).
Proof.
  revert st. induction lines as [|line lines IH]; intros st; cbn [for_each].
  - intros [= <-] Hinv. auto.
  - destruct (parse_line st line) as [st1| |] eqn:Hstep; cbn; try discriminate.
    intros Hrest Hinv.
    destruct (parse_line_inv _ _ _ Hstep Hinv) as [Hinv1 Hback1].
    destruct (IH _ Hrest Hinv1) as [Hinv' Hback].
    split; [exact Hinv'|]. intros Hnone.
    destruct (Hback Hnone) as [H1 Hlines].
    destruct (Hback1 H1) as [H0 Hline]. auto.
Qed.

Lemma filter_all {A} (f : A -> bool) (xs : list A) :
  Forall (fun x => f x = true) (List.filter f xs).
Proof.
  induction xs as [|x xs IH]; cbn [List.filter]; [constructor|].
  destruct (f x) eqn:Hx; [constructor|]; assumption.
Qed.

Lemma startswith_char s c :
  Py.startswith s (String c EmptyString) = true -> exists t, s = String c t.
Proof.
  unfold Py.startswith. destruct s as [|a t]; cbn [String.prefix]; [discriminate|].
  destruct (ascii_dec c a) as [->|]; [eauto|discriminate].
Qed.

Lemma line_head_cons c t :
  Ascii.eqb c Py.TAB = false ->
  exists w, line_head (String c t) = String c w.
Proof.
  intros Hc. unfold line_head. cbn [Py.split_once]. rewrite Hc.
  destruct (split_once_cons Py.TAB t) as (w & ws & ->). cbn. eauto.
Qed.

(** A line of the body takes the speaker or the dependent branch. *)
Lemma in_body_branch line :
  in_body line = true ->
  is_speaker_line line = true \/
  (is_speaker_line line = false /\
   Py.contains_char "%" (line_head line) = true).
Proof.
  unfold in_body, is_speaker_line. intros H. apply orb_true_iff in H.
  destruct H as [H|H]; apply startswith_char in H; destruct H as [t ->].
  - left. destruct (line_head_cons "*" t eq_refl) as [w ->]. reflexivity.
  - destruct (line_head_cons "%" t eq_refl) as [w ->].
    destruct (Py.contains_char "*" (String "%" w)); [left|right]; auto.
Qed.

Lemma body_lines_in_body cleaned :
  Forall (fun line => in_body line = true) (body_of_transcript cleaned).
Proof. apply filter_all. Qed.

(** A line of the body that is not a speaker line is a dependent line. *)
Lemma body_dependent_lines lines :
  Forall (fun line => in_body line = true) lines ->
  Forall (fun line => is_speaker_line line = false) lines ->
  Forall (fun line => is_dependent_line line = true) lines.
Proof.
  induction 1 as [|line lines Hin _ IH]; intros Hns; [constructor|].
  inversion Hns as [|? ? Hline Hrest]; subst.
  constructor; [|apply IH, Hrest].
  unfold is_dependent_line. rewrite Hline.
  destruct (in_body_branch line Hin) as [Hsp|[_ ->]]; [congruence|reflexivity].
Qed.

Lemma tiers_of_nonempty lines tiers :
  tiers <> ∅ -> tiers_of lines tiers <> ∅.
Proof.
  unfold tiers_of. revert tiers.
  induction lines as [|line lines IH]; intros tiers H; cbn [foldl]; [exact H|].
  apply IH, insert_non_empty.
Qed.

Lemma tiers_of_cons_nonempty line lines tiers :
  tiers_of (line :: lines) tiers <> ∅.
Proof.
  unfold tiers_of. cbn [foldl].
  apply (tiers_of_nonempty lines), insert_non_empty.
Qed.

(** Dependent lines only update the dependent tiers of the current
    entry. *)
Lemma parse_dependent_lines lines st st' :
  Forall (fun line => is_dependent_line line = true) lines ->
  for_each parse_line st lines = Ok st' ->
  st' = Parser (structured_transcript st)
               (Entry (entry_id (current_entry st))
                      (speakers_tier (current_entry st))
                      (tiers_of lines (dependent_tiers (current_entry st))))
               (id_counter st).
Proof.
  intros Hdep. revert st.
  induction Hdep as [|line lines Hline _ IH]; intros st; cbn [for_each].
  - intros [= <-]. now destruct st as [? [] ?].
  - rewrite parse_line_unfold. unfold is_dependent_line in Hline.
    apply andb_true_iff in Hline. destruct Hline as [Hsp Hpc].
    apply negb_true_iff in Hsp. rewrite Hsp, Hpc.
    destruct (line_text line) as [text|] eqn:Htext; cbn; [|discriminate].
    intros Hrest. apply IH in Hrest. rewrite Hrest.
    unfold tiers_of, add_dependent. cbn. now rewrite Htext.
Qed.

End ParseLine.

(** The entries after the first one are numbered from 2. *)
Example later_entries_ids :
  get_structured_transcript
    [Py.tabbed "*CHI:" "one"; Py.tabbed "*MOT:" "two"; Py.tabbed "*CHI:" "three"]
  = Ok [Entry None {[ "*CHI" := "one" ]} ∅;
        Entry (Some 2) {[ "*MOT" := "two" ]} ∅;
        Entry (Some 3) {[ "*CHI" := "three" ]} ∅].
Proof. vm_compute. reflexivity. Qed.

(** C2 (amended): when some line of the body is a speaker line, every
    record returned by [get_structured_transcript] has a non-empty
    speaker's tier.  When the body has lines but none of them is a
    speaker line, the dependent tiers that were read are not dropped:
    the result is the single record without id, with an empty speaker's
    tier and, as its dependent tiers, the marker/text pairs of all the
    lines of the body.  When the body has no line, no record is
    returned. *)
Theorem speakers_tier_nonempty (recording : list string) (out : list entry) :
  get_structured_transcript recording = Ok out ->
  (Exists (fun line => is_speaker_line line = true)
          (body_of_transcript (get_cleaned_transcript recording)) ->
   Forall (fun e => speakers_tier e <> ∅) out) /\
  (Forall (fun line => is_speaker_line line = false)
          (body_of_transcript (get_cleaned_transcript recording)) ->
   body_of_transcript (get_cleaned_transcript recording) <> [] ->
   out = [Entry None ∅
            (tiers_of (body_of_transcript (get_cleaned_transcript recording)) ∅)]
   /\ tiers_of (body_of_transcript (get_cleaned_transcript recording)) ∅ <> ∅) /\
  (body_of_transcript (get_cleaned_transcript recording) = [] -> out = []).
Proof.
  unfold get_structured_transcript.
  pose proof (body_lines_in_body (get_cleaned_transcript recording)) as Hin.
  destruct (for_each parse_line parser_init _) as [st| |] eqn:Hrun;
    cbn; try discriminate.
  intros [= <-]. split; [|split].
  - intros Hsome.
    destruct (parse_lines_inv _ _ _ Hrun parser_inv_init) as [[Hall Hnone] Hback].
    unfold finish.
    destruct (truthy (speakers_tier (current_entry st))) eqn:Hs; cbn [orb].
    + apply Forall_app. split; [exact Hall|].
      constructor; [|constructor]. now apply truthy_true.
    + apply truthy_false in Hs. destruct (Hback Hs) as [_ Hno].
      apply Exists_exists in Hsome. destruct Hsome as (line & Hline & Hsp).
      rewrite Forall_forall in Hno. apply Hno in Hline. congruence.
  - intros Hno Hlines.
    apply (parse_dependent_lines _ _ _ (body_dependent_lines _ Hin Hno)) in Hrun.
    subst st. cbn [structured_transcript current_entry entry_id speakers_tier
                   dependent_tiers parser_init id_counter].
    assert (Hne : tiers_of (body_of_transcript (get_cleaned_transcript recording)) ∅
                  <> ∅).
    { destruct (body_of_transcript (get_cleaned_transcript recording));
        [contradiction|apply tiers_of_cons_nonempty]. }
    split; [|exact Hne]. unfold finish.
    cbn [structured_transcript current_entry speakers_tier dependent_tiers].
    apply truthy_true in Hne. rewrite Hne, orb_true_r. reflexivity.
  - intros Hempty. rewrite Hempty in Hrun. cbn [for_each] in Hrun.
    injection Hrun as <-. reflexivity.
Qed.

Lemma speakers_tier_nonempty_witness :
  get_structured_transcript
    ["@Begin"; Py.tabbed "%com:" "noise"; Py.tabbed "%mor:" "n|hello"]
  = Ok [Entry None ∅ (<[ "%mor" := "n|hello" ]> {[ "%com" := "noise" ]})] /\
  [Entry None ∅ (<[ "%mor" := "n|hello" ]> {[ "%com" := "noise" ]})]
  = [Entry None ∅
       (tiers_of (body_of_transcript (get_cleaned_transcript
          ["@Begin"; Py.tabbed "%com:" "noise"; Py.tabbed "%mor:" "n|hello"])) ∅)]
  /\ tiers_of (body_of_transcript (get_cleaned_transcript
          ["@Begin"; Py.tabbed "%com:" "noise"; Py.tabbed "%mor:" "n|hello"])) ∅
      <> ∅.
Proof.
  assert (H : get_structured_transcript
    ["@Begin"; Py.tabbed "%com:" "noise"; Py.tabbed "%mor:" "n|hello"]
    = Ok [Entry None ∅ (<[ "%mor" := "n|hello" ]> {[ "%com" := "noise" ]})])
    by (vm_compute; reflexivity).
  split; [exact H|].
  destruct (speakers_tier_nonempty _ _ H) as (_ & Hdependent & _).
  apply Hdependent.
  - vm_compute. repeat constructor.
  - vm_compute. discriminate.
Defined.

(** C2, as stated, fails: a transcript whose body is one dependent line
    gives a record with dependent tiers and no speaker's tier. *)
Lemma dependent_only_entry_is_returned :
  get_structured_transcript [Py.tabbed "%mor:" "n|hello"]
    = Ok [Entry None ∅ {[ "%mor" := "n|hello" ]}] /\
  ~ (forall out,
       get_structured_transcript [Py.tabbed "%mor:" "n|hello"] = Ok out ->
       Forall (fun e => speakers_tier e <> ∅) out).
Proof.
  assert (H : get_structured_transcript [Py.tabbed "%mor:" "n|hello"]
              = Ok [Entry None ∅ {[ "%mor" := "n|hello" ]}])
    by (vm_compute; reflexivity).
  split; [exact H|]. intros Hall. specialize (Hall _ H).
  inversion Hall as [|e es Hne _]. now apply Hne.
Qed.

Section LeadingAnnotations.




End LeadingAnnotations.



(** A line that begins with [%] and has a [*] before its first tab is
    taken as a speaker line: it opens the first record, and the speaker
    line after it opens the second. *)
Example starred_annotation_is_a_speaker_line :
  get_structured_transcript
    [Py.tabbed "%x*y:" "z"; Py.tabbed "*CHI:" "hello"]
  = Ok [Entry None {[ "%x*y" := "z" ]} ∅;
        Entry (Some 2) {[ "*CHI" := "hello" ]} ∅].
Proof. vm_compute. reflexivity. Qed.


(** ** Frequencies *)

Section Frequencies.

Lemma parse_line_raises st line e :
  parse_line st line = Raise e -> e = IndexError.
Proof.
  rewrite parse_line_unfold.
  destruct (is_speaker_line line); [|destruct (Py.contains_char _ _)];
    try destruct (line_text line); intros [=]; auto.
Qed.

Lemma parse_line_fuel st line : parse_line st line <> OutOfFuel.
Proof.
  rewrite parse_line_unfold.
  destruct (is_speaker_line line); [|destruct (Py.contains_char _ _)];
    try destruct (line_text line); discriminate.
Qed.

(** Building the structured transcript can only fail on a missing tab. *)
Lemma get_structured_transcript_raises recording e :
  get_structured_transcript recording = Raise e -> e = IndexError.
Proof.
  unfold get_structured_transcript.
  generalize (body_of_transcript (get_cleaned_transcript recording)) as lines.
  generalize parser_init as st. intros st lines. revert st.
  induction lines as [|line lines IH]; intros st; cbn [for_each]; cbn.
  - discriminate.
  - destruct (parse_line st line) as [st1|e1|] eqn:Hstep; cbn.
    + apply IH.
    + intros [= <-]. eapply parse_line_raises, Hstep.
    + discriminate.
Qed.

Lemma strip_loop_raises fuel ignored cleaned stripping e :
  strip_loop fuel ignored cleaned stripping <> Raise e.
Proof.
  revert cleaned stripping.
  induction fuel as [|fuel IH]; intros cleaned stripping; cbn [strip_loop];
    destruct (stripping && Py.nonempty cleaned); try discriminate.
  destruct (strip_pass ignored cleaned). apply IH.
Qed.

(** The tokenizer raises nothing. *)
Lemma tokenize_raises fuel text ignored e :
  tokenize fuel text ignored <> Raise e.
Proof.
  unfold tokenize. induction (Py.split text) as [|raw raws IH];
    cbn [tokenize_raws]; [discriminate|].
  pose proof (strip_loop_raises fuel ignored raw true e) as H.
  destruct (strip_loop fuel ignored raw true); cbn; try congruence.
  destruct (tokenize_raws fuel ignored raws); cbn; congruence.
Qed.

Lemma count_entry_raises fuel speaker tier pattern match_type wc el e :
  count_entry fuel speaker tier pattern match_type wc el <> Raise e.
Proof.
  unfold count_entry.
  pose proof (tokenize_raises fuel (tier_text speaker tier el)
                default_ignored e) as H.
  destruct (tokenize fuel _ default_ignored); cbn; congruence.
Qed.

Lemma count_entries_raises fuel speaker tier pattern match_type els wc e :
  for_each (count_entry fuel speaker tier pattern match_type) wc els
    <> Raise e.
Proof.
  revert wc. induction els as [|el els IH]; intros wc; cbn [for_each];
    [discriminate|].
  pose proof (count_entry_raises fuel speaker tier pattern match_type wc el e)
    as H.
  destruct (count_entry fuel speaker tier pattern match_type wc el);
    cbn; try congruence; try apply IH.
Qed.

(** Counting and sorting raise nothing. *)
Lemma count_and_sort_raises fuel speaker tier pattern match_type els e :
  (word_counts ←
     for_each (count_entry fuel speaker tier pattern match_type) [] els;
   Ok (sorted_by_count word_counts)) <> Raise e.
Proof.
  pose proof (count_entries_raises fuel speaker tier pattern match_type
                els [] e) as H.
  destruct (for_each _ _ _); cbn; congruence.
Qed.

End Frequencies.

(** C5 (amended): [get_frequencies] raises the error of the unsupported
    match mode exactly when the structured transcript could be built, a
    pattern is given (it is neither [None] nor the empty string) and
    [match_type] is not one of ["startswith"], ["contains"], ["endswith"],
    ["equals"].  Without a pattern an unsupported mode is accepted. *)
Theorem invalid_match_type_iff (fuel : nat) (recording : list string)
    (speaker tier : string) (pattern : option string) (match_type : string) :
  get_frequencies fuel recording speaker tier pattern match_type
    = Raise ValueError
  <->
  (exists entries, get_structured_transcript recording = Ok entries) /\
  pattern_given pattern = true /\
  is_match_type match_type = false.
Proof.
  unfold get_frequencies.
  destruct (get_structured_transcript recording) as [entries|e|] eqn:Hst;
    cbn [mbind result_bind].
  - destruct (pattern_given pattern), (is_match_type match_type);
      cbn [andb negb].
    + split; [|intros (_ & _ & [=])].
      intros H. now apply count_and_sort_raises in H.
    + split; eauto.
    + split; [|intros (_ & [=] & _)].
      intros H. now apply count_and_sort_raises in H.
    + split; [|intros (_ & [=] & _)].
      intros H. now apply count_and_sort_raises in H.
  - split.
    + intros [= ->]. apply get_structured_transcript_raises in Hst. discriminate.
    + intros ([? [=]] & _).
  - split; [discriminate|]. intros ([? [=]] & _).
Qed.

Lemma invalid_match_type_iff_witness :
  get_frequencies 0
    [Py.tabbed "*CHI:" "hello world ."; Py.tabbed "%mor:" "n|hello n|world"]
    "*CHI" "utterance" (Some "hel") "prefix" = Raise ValueError.
Proof.
  apply (invalid_match_type_iff 0
    [Py.tabbed "*CHI:" "hello world ."; Py.tabbed "%mor:" "n|hello n|world"]
    "*CHI" "utterance" (Some "hel") "prefix").
  split; [eexists; vm_compute; reflexivity|]. split; reflexivity.
Defined.

(** C5, as stated, fails: with the default [pattern=None] an unsupported
    match mode is not rejected, and the frequencies are returned. *)
Lemma unsupported_mode_without_pattern :
  get_frequencies 13
    [Py.tabbed "*CHI:" "hello world ."; Py.tabbed "%mor:" "n|hello n|world"]
    "*CHI" "utterance" None "prefix" = Ok [("hello", 1); ("world", 1)].
Proof. vm_compute. reflexivity. Qed.

(** ** Header lines *)

Section Header.

Lemma split_on_cons sep s :
  exists piece pieces, Py.split_on sep s = piece :: pieces.
Proof.
  induction s as [|a t (w & ws & IH)]; cbn [Py.split_on]; [eauto|].
  destruct (Ascii.eqb a sep); [eauto|]. rewrite IH. cbn. eauto.
Qed.

(** A character other than the separator is still there after a split. *)
Lemma split_on_keeps c sep s :
  Ascii.eqb c sep = false ->
  Py.contains_char c s = true ->
  Exists (fun piece => Py.contains_char c piece = true) (Py.split_on sep s).
Proof.
  intros Hsep. unfold Py.contains_char.
  induction s as [|a t IH]; cbn [Py.any_char Py.split_on]; [discriminate|].
  intros H. destruct (Ascii.eqb a sep) eqn:Ha.
  - apply Ascii.eqb_eq in Ha. subst a. rewrite Hsep in H. cbn in H.
    apply Exists_cons_tl, IH, H.
  - destruct (split_on_cons sep t) as (w & ws & E). rewrite E in *. cbn.
    destruct (Ascii.eqb c a) eqn:Hc.
    + apply Exists_cons_hd. cbn. now rewrite Hc.
    + cbn in H. specialize (IH H). inversion IH as [? ? Hw|? ? Hws]; subst.
      * apply Exists_cons_hd. cbn. now rewrite Hc.
      * now apply Exists_cons_tl.
Qed.

Lemma filter_Exists {A} (f : A -> bool) (xs : list A) :
  Exists (fun x => f x = true) xs ->
  exists y ys, List.filter f xs = y :: ys.
Proof.
  induction 1 as [x xs Hx|x xs _ IH]; cbn [List.filter].
  - rewrite Hx. eauto.
  - destruct (f x); eauto.
Qed.

Lemma filter_head {A} (f : A -> bool) (xs : list A) y ys :
  List.filter f xs = y :: ys -> f y = true.
Proof.
  induction xs as [|x xs IH]; cbn [List.filter]; [discriminate|].
  destruct (f x) eqn:Hx; [|exact IH]. now intros [= <- _].
Qed.

(** The first line of [age_lines] always has an age field. *)
Lemma age_line_has_field recording line rest :
  age_lines recording = line :: rest ->
  exists field fields, age_fields line = field :: fields.
Proof.
  intros H. apply filter_head in H. apply andb_true_iff in H.
  destruct H as [_ H]. apply filter_Exists, split_on_keeps; [reflexivity|exact H].
Qed.

Lemma get_participants_and_age_unfold recording :
  get_participants_and_age recording =
  match participants_lines recording with
  | [] => Raise IndexError
  | pline :: _ =>
      match line_text pline with
      | None => Raise IndexError
      | Some text =>
          match age_lines recording with
          | [] => Raise IndexError
          | aline :: _ =>
              match age_fields aline with
              | [] => Raise IndexError
              | field :: _ => Ok (ParticipantsAndAge text field)
              end
          end
      end
  end.
Proof.
  unfold get_participants_and_age, index.
  fold (participants_lines recording). fold (age_lines recording).
  destruct (participants_lines recording) as [|pline prest]; [reflexivity|].
  cbn [lookup list_lookup mbind result_bind].
  fold (line_text pline).
  destruct (line_text pline) as [text|]; [|reflexivity].
  destruct (age_lines recording) as [|aline arest]; [reflexivity|].
  cbn [lookup list_lookup mbind result_bind].
  fold (age_fields aline). destruct (age_fields aline); reflexivity.
Qed.

End Header.

(** C6 (amended): [get_participants_and_age] fails, by an index out of
    range, exactly when the merged lines have no line starting with
    [@Participants], or the first such line has no tab in it, or there
    is no line starting with [@ID] that contains [;].  Otherwise it
    returns the text after the first tab of the first [@Participants]
    line, and the first of the fields between [|] of the first such
    [@ID] line that contains [;]. *)
Theorem get_participants_and_age_spec (recording : list string) :
  (get_participants_and_age recording = Raise IndexError <->
     participants_lines recording = [] \/
     (exists line rest, participants_lines recording = line :: rest /\
                        line_text line = None) \/
     age_lines recording = [])
  /\
  (forall pline prest text aline arest,
     participants_lines recording = pline :: prest ->
     line_text pline = Some text ->
     age_lines recording = aline :: arest ->
     exists field fields,
       age_fields aline = field :: fields /\
       get_participants_and_age recording = Ok (ParticipantsAndAge text field)).
Proof.
  rewrite get_participants_and_age_unfold. split.
  - destruct (participants_lines recording) as [|pline prest]; [tauto|].
    destruct (line_text pline) as [text|] eqn:Htext.
    + destruct (age_lines recording) as [|aline arest] eqn:Hage; [tauto|].
      destruct (age_line_has_field _ _ _ Hage) as (field & fields & ->).
      split; [discriminate|].
      intros [[=]|[(l & r & [= <- <-] & H)|[=]]]. congruence.
    + split; [|reflexivity]. intros _. right. left. eauto.
  - intros pline prest text aline arest -> -> Hage.
    rewrite Hage. destruct (age_line_has_field _ _ _ Hage) as (field & fields & E).
    rewrite E. eauto.
Qed.

Lemma get_participants_and_age_spec_witness :
  exists field fields,
    age_fields (Py.tabbed "@ID:" "nld|Schaerlaekens|CHI|2;3.15|male|||Target_Child|||")
      = field :: fields /\
    get_participants_and_age
      ["@UTF8"; Py.tabbed "@Participants:" "CHI Gijs Target_Child , MOT Mother";
       Py.tabbed "@ID:" "nld|Schaerlaekens|CHI|2;3.15|male|||Target_Child|||";
       Py.tabbed "*CHI:" "hello ."]
    = Ok (ParticipantsAndAge "CHI Gijs Target_Child , MOT Mother" field).
Proof.
  apply (proj2 (get_participants_and_age_spec
      ["@UTF8"; Py.tabbed "@Participants:" "CHI Gijs Target_Child , MOT Mother";
       Py.tabbed "@ID:" "nld|Schaerlaekens|CHI|2;3.15|male|||Target_Child|||";
       Py.tabbed "*CHI:" "hello ."])
     (Py.tabbed "@Participants:" "CHI Gijs Target_Child , MOT Mother") []
     "CHI Gijs Target_Child , MOT Mother"
     (Py.tabbed "@ID:" "nld|Schaerlaekens|CHI|2;3.15|male|||Target_Child|||") []);
    reflexivity.
Defined.

(** C6, as stated, fails: both header lines are there, but the
    [@Participants] line, once stripped, has no tab, and the call fails. *)
Lemma participants_line_without_tab :
  participants_lines
    ["@Participants:" +:+ String Py.TAB (String Py.LF "");
     Py.tabbed "@ID:" "nld|Schaerlaekens|CHI|2;3.15|male|||Target_Child|||"]
    = ["@Participants:"] /\
  age_lines
    ["@Participants:" +:+ String Py.TAB (String Py.LF "");
     Py.tabbed "@ID:" "nld|Schaerlaekens|CHI|2;3.15|male|||Target_Child|||"]
    = [Py.tabbed "@ID:" "nld|Schaerlaekens|CHI|2;3.15|male|||Target_Child|||"] /\
  get_participants_and_age
    ["@Participants:" +:+ String Py.TAB (String Py.LF "");
     Py.tabbed "@ID:" "nld|Schaerlaekens|CHI|2;3.15|male|||Target_Child|||"]
    = Raise IndexError.
Proof. repeat split; reflexivity. Qed.

(** ** The age in days *)

Section Age.

Lemma append_nil t : EmptyString +:+ t = t.
Proof. reflexivity. Qed.

Lemma append_cons a s t : String a s +:+ t = String a (s +:+ t).
Proof. reflexivity. Qed.

Lemma contains_char_app c s t :
  Py.contains_char c (s +:+ t) = Py.contains_char c s || Py.contains_char c t.
Proof.
  unfold Py.contains_char.
  induction s as [|a s IH]; rewrite ?append_nil, ?append_cons;
    cbn [Py.any_char]; [reflexivity|].
  now rewrite IH, orb_assoc.
Qed.

Lemma split_on_absent sep s :
  Py.contains_char sep s = false -> Py.split_on sep s = [s].
Proof.
  unfold Py.contains_char.
  induction s as [|a s IH]; cbn [Py.any_char Py.split_on]; [reflexivity|].
  intros H. apply orb_false_iff in H. destruct H as [Ha Hs].
  rewrite Ascii.eqb_sym, Ha, (IH Hs). reflexivity.
Qed.

Lemma split_on_first sep s t :
  Py.contains_char sep s = false ->
  Py.split_on sep (s +:+ String sep t) = s :: Py.split_on sep t.
Proof.
  unfold Py.contains_char.
  induction s as [|a s IH]; rewrite ?append_nil, ?append_cons;
    cbn [Py.any_char Py.split_on].
  - intros _. now rewrite Ascii.eqb_refl.
  - intros H. apply orb_false_iff in H. destruct H as [Ha Hs].
    rewrite Ascii.eqb_sym, Ha, (IH Hs). reflexivity.
Qed.

Lemma all_chars_impl (f g : ascii -> bool) s :
  (forall c, f c = true -> g c = true) ->
  Py.all_chars f s = true -> Py.all_chars g s = true.
Proof.
  intros Hfg. induction s as [|a s IH]; cbn; [reflexivity|].
  intros H. apply andb_true_iff in H. destruct H as [Ha Hs].
  now rewrite (Hfg _ Ha), (IH Hs).
Qed.

Lemma all_chars_absent f c s :
  f c = false -> Py.all_chars f s = true -> Py.contains_char c s = false.
Proof.
  intros Hc. unfold Py.contains_char.
  induction s as [|a s IH]; cbn; [reflexivity|].
  intros H. apply andb_true_iff in H. destruct H as [Ha Hs].
  rewrite (IH Hs), orb_false_r.
  destruct (Ascii.eqb c a) eqn:E; [|reflexivity].
  apply Ascii.eqb_eq in E. congruence.
Qed.

Lemma rstrip_with_empty p s :
  Py.rstrip_with p s = EmptyString -> Py.all_chars p s = true.
Proof.
  induction s as [|a s IH]; cbn [Py.rstrip_with Py.all_chars]; [reflexivity|].
  destruct (Py.rstrip_with p s); [|discriminate].
  destruct (p a); [|discriminate]. intros _. now rewrite IH.
Qed.

(** What stripping leaves tells about the whole string. *)
Lemma all_chars_rstrip p q s :
  Py.all_chars q (Py.rstrip_with p s) = true ->
  Py.all_chars (fun c => p c || q c) s = true.
Proof.
  induction s as [|a s IH]; cbn [Py.rstrip_with Py.all_chars]; [reflexivity|].
  destruct (Py.rstrip_with p s) as [|b r] eqn:E.
  - apply rstrip_with_empty in E.
    assert (Hs : Py.all_chars (fun c => p c || q c) s = true).
    { eapply all_chars_impl; [|exact E]. intros c ->. reflexivity. }
    rewrite Hs, andb_true_r. destruct (p a); [reflexivity|].
    cbn. now rewrite andb_true_r.
  - cbn [Py.all_chars]. intros H. apply andb_true_iff in H.
    destruct H as [Ha Hr]. rewrite Ha, orb_true_r. cbn. apply IH, Hr.
Qed.

Lemma all_chars_lstrip p q s :
  Py.all_chars (fun c => p c || q c) (Py.lstrip_with p s) = true ->
  Py.all_chars (fun c => p c || q c) s = true.
Proof.
  induction s as [|a s IH]; cbn [Py.lstrip_with Py.all_chars]; [reflexivity|].
  destruct (p a) eqn:Ha; [|cbn [Py.all_chars]; now rewrite Ha].
  cbn. exact IH.
Qed.

Lemma all_chars_strip p q s :
  Py.all_chars q (Py.strip_with p s) = true ->
  Py.all_chars (fun c => p c || q c) s = true.
Proof. intros H. apply all_chars_lstrip, all_chars_rstrip, H. Qed.

Lemma digits_value_chars acc after_digit s v :
  digits_value acc after_digit s = Some v ->
  Py.all_chars int_char s = true.
Proof.
  revert acc after_digit.
  induction s as [|a s IH]; intros acc after_digit;
    cbn [digits_value Py.all_chars]; [reflexivity|].
  unfold int_char at 1.
  destruct (is_digit a); [intros H; cbn; eapply IH, H|].
  destruct (Ascii.eqb a "_"); cbn; [|discriminate].
  destruct after_digit; cbn; [|discriminate]. apply IH.
Qed.

Lemma py_int_chars s v :
  py_int s = Ok v ->
  Py.all_chars (fun c => int_space c || int_char c) s = true.
Proof.
  unfold py_int. intros H. apply all_chars_strip.
  destruct (Py.strip_with int_space s) as [|a body]; [discriminate|].
  destruct (Ascii.eqb a "+") eqn:Hplus;
    [|destruct (Ascii.eqb a "-") eqn:Hminus].
  - destruct (digits_value 0 false body) eqn:E; [|discriminate].
    apply digits_value_chars in E. cbn [Py.all_chars]. rewrite E.
    unfold int_char. rewrite Hplus. now rewrite !orb_true_r.
  - destruct (digits_value 0 false body) eqn:E; [|discriminate].
    apply digits_value_chars in E. cbn [Py.all_chars]. rewrite E.
    unfold int_char. rewrite Hminus. now rewrite !orb_true_r.
  - destruct (digits_value 0 false (String a body)) eqn:E; [|discriminate].
    apply digits_value_chars in E. exact E.
Qed.

(** A string that [int] reads has neither [;] nor [.] in it. *)
Lemma py_int_separators s v :
  py_int s = Ok v ->
  Py.contains_char ";" s = false /\ Py.contains_char "." s = false.
Proof.
  intros H. apply py_int_chars in H.
  split; eapply all_chars_absent; try exact H; reflexivity.
Qed.

End Age.

Lemma split_age Y M D y m d :
  py_int Y = Ok y -> py_int M = Ok m -> py_int D = Ok d ->
  Py.split_on ";" (Y +:+ ";" +:+ M +:+ "." +:+ D) = [Y; M +:+ "." +:+ D] /\
  Py.split_on "." (M +:+ "." +:+ D) = [M; D].
Proof.
  intros HY HM HD.
  apply py_int_separators in HY. destruct HY as [HY _].
  apply py_int_separators in HM. destruct HM as [HM1 HM2].
  apply py_int_separators in HD. destruct HD as [HD1 HD2].
  rewrite !append_cons, !append_nil. split.
  - rewrite split_on_first by exact HY. rewrite split_on_absent; [reflexivity|].
    rewrite contains_char_app, HM1. unfold Py.contains_char in *.
    cbn [Py.any_char orb]. rewrite HD1. reflexivity.
  - rewrite split_on_first by exact HM2. now rewrite split_on_absent.
Qed.

(** C7: when the age field has the shape [Y;M.D], with [Y], [M] and [D]
    strings that [int] reads as [y], [m] and [d], [get_age_in_days]
    returns [y * 360 + m * 30 + d]; for the age field "2;3.15" that
    is 825. *)
Theorem age_in_days (recording : list string) (p Y M D : string) (y m d : Z) :
  get_participants_and_age recording
    = Ok (ParticipantsAndAge p (Y +:+ ";" +:+ M +:+ "." +:+ D)) ->
  py_int Y = Ok y -> py_int M = Ok m -> py_int D = Ok d ->
  get_age_in_days recording = Ok (y * 360 + m * 30 + d) /\
  (Y = "2" -> M = "3" -> D = "15" -> get_age_in_days recording = Ok 825).
Proof.
  intros Hpa HY HM HD.
  assert (Hdays : get_age_in_days recording = Ok (y * 360 + m * 30 + d)).
  { unfold get_age_in_days. rewrite Hpa.
    destruct (split_age Y M D y m d HY HM HD) as [H1 H2].
    cbn [mbind result_bind age]. rewrite H1.
    cbn [index lookup list_lookup mbind result_bind]. rewrite HY, H2.
    cbn [index lookup list_lookup mbind result_bind]. rewrite HM, HD.
    cbn [mbind result_bind]. f_equal. lia. }
  split; [exact Hdays|]. intros -> -> ->. rewrite Hdays.
  vm_compute in HY, HM, HD.
  injection HY as <-. injection HM as <-. injection HD as <-. reflexivity.
Qed.

Lemma age_in_days_witness :
  get_age_in_days
    ["@UTF8"; Py.tabbed "@Participants:" "CHI Gijs Target_Child , MOT Mother";
     Py.tabbed "@ID:" "nld|Schaerlaekens|CHI|2;3.15|male|||Target_Child|||";
     Py.tabbed "*CHI:" "hello ."]
  = Ok (2 * 360 + 3 * 30 + 15) /\
  ("2" = "2" -> "3" = "3" -> "15" = "15" ->
   get_age_in_days
    ["@UTF8"; Py.tabbed "@Participants:" "CHI Gijs Target_Child , MOT Mother";
     Py.tabbed "@ID:" "nld|Schaerlaekens|CHI|2;3.15|male|||Target_Child|||";
     Py.tabbed "*CHI:" "hello ."]
   = Ok 825).
Proof.
  apply (age_in_days _ "CHI Gijs Target_Child , MOT Mother" "2" "3" "15" 2 3 15);
    reflexivity.
Defined.

(** ** The type-token ratio *)

Section Ratio.

Lemma div_nearest_even_bounds a b c :
  0 < b -> 0 <= a -> a <= c * b ->
  0 <= div_nearest_even a b <= c.
Proof.
  intros Hb Ha Hc. unfold div_nearest_even.
  pose proof (Z.div_mod a b ltac:(lia)) as Hdiv.
  pose proof (Z.mod_pos_bound a b Hb) as Hmod.
  assert (Hq : 0 <= a / b) by (apply Z.div_pos; lia).
  assert (Hqc : a / b <= c) by (apply Z.div_le_upper_bound; lia).
  assert (Hlt : 2 * (a mod b) >= b -> a / b < c) by nia.
  destruct (2 * (a mod b) <? b) eqn:E1; [lia|].
  apply Z.ltb_ge in E1.
  destruct (b <? 2 * (a mod b)); [lia|].
  destruct (Z.even (a / b)); lia.
Qed.

(** Half a unit or more is rounded to one unit or more. *)
Lemma div_nearest_even_pos a b :
  0 < b -> b < 2 * a -> 1 <= div_nearest_even a b.
Proof.
  intros Hb Ha. unfold div_nearest_even.
  pose proof (Z.div_mod a b ltac:(lia)) as Hdiv.
  pose proof (Z.mod_pos_bound a b Hb) as Hmod.
  assert (Hq : 0 <= a / b) by (apply Z.div_pos; lia).
  destruct (2 * (a mod b) <? b) eqn:E1.
  - apply Z.ltb_lt in E1. nia.
  - destruct (b <? 2 * (a mod b)) eqn:E2; [lia|].
    apply Z.ltb_ge in E1, E2.
    destruct (Z.even (a / b)) eqn:Ev; [|lia].
    assert (a / b <> 0); [|lia]. intros H0. rewrite H0 in Hdiv. lia.
Qed.

(** What [div_nearest_even] returns is at most half a unit away. *)
Lemma div_nearest_even_near a b :
  0 < b -> 2 * a - b <= 2 * b * div_nearest_even a b.
Proof.
  intros Hb. unfold div_nearest_even.
  pose proof (Z.div_mod a b ltac:(lia)) as Hdiv.
  pose proof (Z.mod_pos_bound a b Hb) as Hmod.
  destruct (2 * (a mod b) <? b) eqn:E1.
  - apply Z.ltb_lt in E1. nia.
  - destruct (b <? 2 * (a mod b)) eqn:E2; [nia|].
    apply Z.ltb_ge in E1, E2. destruct (Z.even (a / b)); nia.
Qed.

Lemma ratio_log2_le n m : 0 < n <= m -> ratio_log2 n m <= 0.
Proof.
  intros H. unfold ratio_log2.
  pose proof (Z.log2_le_mono n m ltac:(lia)).
  destruct (if 0 <=? _ then _ else _); lia.
Qed.

(** The exponent of a quotient of [0 < n <= m]. *)
Lemma true_div_exponent n m :
  0 < n <= m -> Z.max (ratio_log2 n m - 52) (-1074) <= -52.
Proof. intros H. pose proof (ratio_log2_le n m H). lia. Qed.

Lemma true_div_unit n m : 0 <= n <= m -> 0 < m -> unit_float (true_div n m).
Proof.
  intros Hn Hm. unfold true_div, unit_float.
  destruct (n =? 0) eqn:E0; [cbn; lia|]. apply Z.eqb_neq in E0.
  pose proof (true_div_exponent n m ltac:(lia)) as He.
  set (e := Z.max (ratio_log2 n m - 52) (-1074)) in *.
  assert (Hlt : (e <? 0) = true) by (apply Z.ltb_lt; lia). rewrite Hlt.
  cbn [fexp fmant]. split; [lia|].
  assert (Hp : 0 < 2 ^ (- e)) by (apply Z.pow_pos_nonneg; lia).
  apply div_nearest_even_bounds; nia.
Qed.

Lemma true_div_pos n m : 0 < n <= m -> m <= 2 ^ 52 -> 0 < fmant (true_div n m).
Proof.
  intros Hn Hm. unfold true_div.
  destruct (n =? 0) eqn:E0; [apply Z.eqb_eq in E0; lia|].
  pose proof (true_div_exponent n m ltac:(lia)) as He.
  set (e := Z.max (ratio_log2 n m - 52) (-1074)) in *.
  assert (Hlt : (e <? 0) = true) by (apply Z.ltb_lt; lia). rewrite Hlt.
  cbn [fmant].
  assert (Hp : 2 ^ 52 <= 2 ^ (- e)) by (apply Z.pow_le_mono_r; lia).
  pose proof (div_nearest_even_pos (n * 2 ^ (- e)) m ltac:(lia)) as H.
  assert (m < 2 * (n * 2 ^ (- e))) by nia. lia.
Qed.

(** What [div_nearest_even] returns is at most half a unit above. *)
Lemma div_nearest_even_upper a b :
  0 < b -> 2 * b * div_nearest_even a b <= 2 * a + b.
Proof.
  intros Hb. unfold div_nearest_even.
  pose proof (Z.div_mod a b ltac:(lia)) as Hdiv.
  pose proof (Z.mod_pos_bound a b Hb) as Hmod.
  destruct (2 * (a mod b) <? b) eqn:E1.
  - apply Z.ltb_lt in E1. nia.
  - destruct (b <? 2 * (a mod b)) eqn:E2; [nia|].
    apply Z.ltb_ge in E1, E2. destruct (Z.even (a / b)); nia.
Qed.

(** More than [c] minus half a unit is rounded to [c] or more. *)
Lemma div_nearest_even_ge a b c :
  0 < b -> (2 * c - 1) * b < 2 * a -> c <= div_nearest_even a b.
Proof.
  intros Hb Hc. pose proof (div_nearest_even_near a b Hb) as Hnear.
  assert (H : (c - 1) * b < b * div_nearest_even a b) by nia.
  nia.
Qed.

(** Less than half a unit is rounded to 0. *)
Lemma div_nearest_even_zero a b :
  0 <= a -> 2 * a < b -> div_nearest_even a b = 0.
Proof.
  intros Ha Hb. unfold div_nearest_even.
  rewrite Z.div_small, Z.mod_small by lia.
  assert (E : (2 * a <? b) = true) by (apply Z.ltb_lt; lia).
  now rewrite E.
Qed.

(** [ratio_log2 n m] is the exponent of the quotient: with [l] for it,
    [2 ^ l <= n / m < 2 ^ (l + 1)]. *)
Lemma ratio_log2_bounds n m :
  0 < n <= m ->
  m <= n * 2 ^ (- ratio_log2 n m) /\ n * 2 ^ (- ratio_log2 n m) < 2 * m.
Proof.
  intros H. unfold ratio_log2.
  pose proof (Z.log2_le_mono n m ltac:(lia)) as Hab.
  pose proof (Z.log2_nonneg n) as Ha.
  destruct (Z.log2_spec n ltac:(lia)) as [Hn1 Hn2].
  destruct (Z.log2_spec m ltac:(lia)) as [Hm1 Hm2].
  rewrite Z.pow_succ_r in Hn2, Hm2 by lia.
  assert (Hpow : 2 ^ Z.log2 m = 2 ^ Z.log2 n * 2 ^ (Z.log2 m - Z.log2 n)).
  { rewrite <- Z.pow_add_r by lia. f_equal. lia. }
  assert (Hp : 0 < 2 ^ (Z.log2 m - Z.log2 n)) by (apply Z.pow_pos_nonneg; lia).
  set (a := Z.log2 n) in *. set (b := Z.log2 m) in *.
  set (p := 2 ^ (b - a)) in *.
  destruct (0 <=? a - b) eqn:E.
  - apply Z.leb_le in E. assert (Eab : a - b = 0) by lia.
    assert (Ep : p = 1) by (unfold p; replace (b - a) with 0 by lia; reflexivity).
    rewrite Eab. change (2 ^ 0) with 1.
    destruct (n <? m * 1) eqn:Elt.
    + apply Z.ltb_lt in Elt. change (- (0 - 1)) with 1. change (2 ^ 1) with 2.
      nia.
    + apply Z.ltb_ge in Elt. change (- 0) with 0. change (2 ^ 0) with 1. lia.
  - apply Z.leb_gt in E. replace (- (a - b)) with (b - a) by lia. fold p.
    destruct (n * p <? m) eqn:Elt.
    + apply Z.ltb_lt in Elt.
      replace (- (a - b - 1)) with (Z.succ (b - a)) by lia.
      rewrite Z.pow_succ_r by lia. fold p. nia.
    + apply Z.ltb_ge in Elt. replace (- (a - b)) with (b - a) by lia. fold p.
      nia.
Qed.

(** The quotient of [n] by at most [200 * n]: its mantissa, taken two
    hundred times, is above the unit of its exponent.  (The double
    nearest to 1/200 is a little above 1/200.) *)
Lemma true_div_above_half_hundredth n m :
  0 < n <= m -> m <= 200 * n ->
  fexp (true_div n m) < 0 /\
  2 ^ (- fexp (true_div n m)) < 200 * fmant (true_div n m).
Proof.
  intros Hn Hm. unfold true_div.
  destruct (n =? 0) eqn:E0; [apply Z.eqb_eq in E0; lia|].
  pose proof (ratio_log2_le n m Hn) as Hl0.
  destruct (ratio_log2_bounds n m Hn) as [Hlow Hhigh].
  set (l := ratio_log2 n m) in *.
  assert (Hl8 : -8 <= l).
  { destruct (Z_le_gt_dec (-8) l) as [|Hgt]; [assumption|exfalso].
    assert (2 ^ 9 <= 2 ^ (- l)) by (apply Z.pow_le_mono_r; lia).
    change (2 ^ 9) with 512 in *. nia. }
  replace (Z.max (l - 52) (-1074)) with (l - 52) by lia.
  assert (Hlt : (l - 52 <? 0) = true) by (apply Z.ltb_lt; lia). rewrite Hlt.
  cbn [fexp fmant]. split; [lia|].
  replace (- (l - 52)) with (52 + - l) by lia.
  rewrite Z.pow_add_r by lia. change (2 ^ 52) with 4503599627370496.
  destruct (Z.eq_dec l (-8)) as [El|Hl7].
  - rewrite El in *. change (- -8) with 8 in *. change (2 ^ 8) with 256 in *.
    pose proof (div_nearest_even_ge (n * (4503599627370496 * 256)) m
                  5764607523034235 ltac:(lia) ltac:(lia)).
    lia.
  - assert (Hq : 2 ^ (- l) <= 2 ^ 7) by (apply Z.pow_le_mono_r; lia).
    change (2 ^ 7) with 128 in Hq.
    assert (Hq0 : 0 < 2 ^ (- l)) by (apply Z.pow_pos_nonneg; lia).
    set (q := 2 ^ (- l)) in *.
    pose proof (div_nearest_even_ge (n * (4503599627370496 * q)) m
                  4503599627370496 ltac:(lia) ltac:(nia)).
    lia.
Qed.

(** The quotient of [n] by more than [200 * n]: its mantissa, taken two
    hundred times, is below the unit of its exponent. *)
Lemma true_div_below_half_hundredth n m :
  0 < n -> 200 * n < m -> m <= 2 ^ 53 ->
  fexp (true_div n m) < 0 /\
  0 <= fmant (true_div n m) /\
  200 * fmant (true_div n m) < 2 ^ (- fexp (true_div n m)).
Proof.
  intros Hn Hm Hbig. change (2 ^ 53) with 9007199254740992 in Hbig.
  pose proof (true_div_unit n m ltac:(lia) ltac:(lia)) as [_ Hmant].
  revert Hmant. unfold true_div.
  destruct (n =? 0) eqn:E0; [apply Z.eqb_eq in E0; lia|].
  destruct (ratio_log2_bounds n m ltac:(lia)) as [Hlow _].
  set (l := ratio_log2 n m) in *.
  assert (Hl8 : l <= -8).
  { destruct (Z_le_gt_dec l (-8)) as [|Hgt]; [assumption|exfalso].
    destruct (Z_le_gt_dec 0 (- l)) as [Hl|Hl].
    - assert (2 ^ (- l) <= 2 ^ 7) by (apply Z.pow_le_mono_r; lia).
      change (2 ^ 7) with 128 in *. nia.
    - rewrite Z.pow_neg_r in Hlow by lia. lia. }
  set (e := Z.max (l - 52) (-1074)) in *.
  assert (He : e <= -60) by lia.
  assert (Hlt : (e <? 0) = true) by (apply Z.ltb_lt; lia). rewrite Hlt.
  cbn [fexp fmant]. intros Hmant. split; [lia|]. split; [lia|].
  assert (Hp : 2 ^ 60 <= 2 ^ (- e)) by (apply Z.pow_le_mono_r; lia).
  change (2 ^ 60) with 1152921504606846976 in Hp.
  pose proof (div_nearest_even_upper (n * 2 ^ (- e)) m ltac:(lia)) as Hup.
  set (P := 2 ^ (- e)) in *.
  set (mant := div_nearest_even (n * P) m) in *.
  assert (H1 : 400 * (n * P) <= 2 * (m - 1) * P) by nia.
  assert (H2 : m * (200 * mant) < m * P) by nia.
  nia.
Qed.

End Ratio.

Section TypeTokenRatio.

Lemma round2_unit x : unit_float x -> unit_float (round2 x).
Proof.
  intros [He Hm]. unfold round2.
  assert (Hp : 0 < 2 ^ (- fexp x)) by (apply Z.pow_pos_nonneg; lia).
  apply true_div_unit; [|lia].
  destruct (fexp x <? 0) eqn:E.
  - apply div_nearest_even_bounds; lia.
  - apply Z.ltb_ge in E. assert (E0 : fexp x = 0) by lia.
    rewrite E0 in *. cbn in Hm. cbn. lia.
Qed.

(** A quotient of at least one two-hundredth is not rounded to 0.00. *)
Lemma round2_true_div_pos n m :
  0 < n <= m -> m <= 200 * n -> 0 < fmant (round2 (true_div n m)).
Proof.
  intros Hn Hm. unfold round2.
  pose proof (true_div_unit n m ltac:(lia) ltac:(lia)) as [_ Hmant].
  destruct (true_div_above_half_hundredth n m Hn Hm) as [He Habove].
  assert (Hlt : (fexp (true_div n m) <? 0) = true) by (apply Z.ltb_lt; lia).
  rewrite Hlt.
  assert (Hp : 0 < 2 ^ (- fexp (true_div n m)))
    by (apply Z.pow_pos_nonneg; lia).
  pose proof (div_nearest_even_pos (100 * fmant (true_div n m))
                (2 ^ (- fexp (true_div n m))) Hp ltac:(lia)) as Hk.
  pose proof (div_nearest_even_bounds (100 * fmant (true_div n m))
                (2 ^ (- fexp (true_div n m))) 100 Hp ltac:(lia) ltac:(lia))
    as Hk'.
  apply true_div_pos; [lia|]. change (2 ^ 52) with 4503599627370496. lia.
Qed.

(** A quotient below one two-hundredth is rounded to 0.00. *)
Lemma round2_true_div_zero n m :
  0 < n -> 200 * n < m -> m <= 2 ^ 53 ->
  round2 (true_div n m) = Float 0 0.
Proof.
  intros Hn Hm Hbig. unfold round2.
  destruct (true_div_below_half_hundredth n m Hn Hm Hbig) as (He & H0 & Hbelow).
  assert (Hlt : (fexp (true_div n m) <? 0) = true) by (apply Z.ltb_lt; lia).
  rewrite Hlt, div_nearest_even_zero by lia. reflexivity.
Qed.

Lemma unit_float_value x :
  unit_float x -> Qle 0 (float_value x) /\ Qle (float_value x) 1.
Proof.
  intros [He Hm]. unfold float_value, Qle.
  assert (Hp : 0 < 2 ^ (- fexp x)) by (apply Z.pow_pos_nonneg; lia).
  destruct (fexp x <? 0) eqn:E; cbn [Qnum Qden inject_Z].
  - rewrite Z2Pos.id by exact Hp. lia.
  - apply Z.ltb_ge in E. assert (E0 : fexp x = 0) by lia.
    rewrite E0 in *. cbn in Hm. cbn. lia.
Qed.

Lemma float_value_pos x :
  fexp x <= 0 -> 0 < fmant x -> Qlt 0 (float_value x).
Proof.
  intros He Hm. unfold float_value, Qlt.
  destruct (fexp x <? 0) eqn:E; cbn [Qnum Qden inject_Z]; [lia|].
  apply Z.ltb_ge in E. assert (E0 : fexp x = 0) by lia.
  rewrite E0. cbn. lia.
Qed.

Lemma sum_values_from acc freq :
  Forall (fun item : string * Z => 0 < item.2) freq ->
  acc + Z.of_nat (length freq)
    <= foldl (fun acc item => acc + item.2) acc freq.
Proof.
  intros H. revert acc.
  induction H as [|item freq Hitem _ IH]; intros acc; cbn [foldl length].
  - lia.
  - specialize (IH (acc + item.2)). lia.
Qed.

(** With counts of at least one there are no more types than tokens. *)
Lemma types_le_tokens freq :
  Forall (fun item : string * Z => 0 < item.2) freq ->
  Z.of_nat (length freq) <= sum_values freq.
Proof. intros H. apply (sum_values_from 0 freq H). Qed.

End TypeTokenRatio.

(** C4 (amended): [compute_ttr_from_frequencies] returns 0 for the empty
    table, and for every table whose counts are positive integers it
    returns a value that is at least 0 and at most 1.  The value is the
    quotient of the number of types by the number of tokens rounded to
    two decimals.  It is greater than 0 when a non-empty table has at
    most two hundred tokens for each type (the quotient is then at least
    0.005, and the double for 0.005 rounds to 0.01); it is the float 0.0
    when the table has more than two hundred tokens for each type, for
    every number of tokens up to [2 ^ 53]. *)
Theorem ttr_bounds (frequency_dictionary : list (string * Z)) :
  Forall (fun item => 0 < item.2) frequency_dictionary ->
  compute_ttr_from_frequencies [] = Int 0 /\
  Qle 0 (value (compute_ttr_from_frequencies frequency_dictionary)) /\
  Qle (value (compute_ttr_from_frequencies frequency_dictionary)) 1 /\
  (frequency_dictionary <> [] ->
   sum_values frequency_dictionary
     <= 200 * Z.of_nat (length frequency_dictionary) ->
   Qlt 0 (value (compute_ttr_from_frequencies frequency_dictionary))) /\
  (200 * Z.of_nat (length frequency_dictionary)
     < sum_values frequency_dictionary ->
   sum_values frequency_dictionary <= 2 ^ 53 ->
   compute_ttr_from_frequencies frequency_dictionary = Flt (Float 0 0)).
Proof.
  intros Hpos. split; [reflexivity|].
  pose proof (types_le_tokens _ Hpos) as Hle.
  assert (Htypes : frequency_dictionary <> [] ->
                   0 < Z.of_nat (length frequency_dictionary)).
  { intros Hne. destruct frequency_dictionary; [congruence|cbn [length]; lia]. }
  unfold compute_ttr_from_frequencies.
  destruct (0 <? sum_values frequency_dictionary) eqn:Htok.
  - apply Z.ltb_lt in Htok. cbn [value].
    assert (Hunit : unit_float (round2 (true_div
              (Z.of_nat (length frequency_dictionary))
              (sum_values frequency_dictionary)))).
    { apply round2_unit, true_div_unit; lia. }
    destruct (unit_float_value _ Hunit) as [H0 H1].
    split; [exact H0|]. split; [exact H1|]. split.
    + intros Hne H200. apply float_value_pos; [apply Hunit|].
      apply round2_true_div_pos; [|lia]. specialize (Htypes Hne). lia.
    + intros H200 Hbig. f_equal.
      apply round2_true_div_zero; [|lia|exact Hbig].
      apply Htypes. intros ->. cbn in Htok. lia.
  - apply Z.ltb_ge in Htok. cbn. unfold Qle. cbn.
    split; [lia|]. split; [lia|]. split.
    + intros Hne. specialize (Htypes Hne). lia.
    + lia.
Qed.

Lemma ttr_bounds_witness :
  (Qle 0 (value (compute_ttr_from_frequencies [("bar", 399); ("hello", 1)])) /\
   Qle (value (compute_ttr_from_frequencies [("bar", 399); ("hello", 1)])) 1 /\
   Qlt 0 (value (compute_ttr_from_frequencies [("bar", 399); ("hello", 1)]))) /\
  compute_ttr_from_frequencies [("bar", 400); ("hello", 2)] = Flt (Float 0 0).
Proof.
  split.
  - destruct (ttr_bounds [("bar", 399); ("hello", 1)])
      as (_ & Hlow & Hhigh & Hpos & _); [repeat constructor|].
    split; [exact Hlow|]. split; [exact Hhigh|].
    apply Hpos; [discriminate|vm_compute; discriminate].
  - destruct (ttr_bounds [("bar", 400); ("hello", 2)])
      as (_ & _ & _ & _ & Hzero); [repeat constructor|].
    apply Hzero; [reflexivity|vm_compute; discriminate].
Defined.

(** C4, as stated, fails: one type counted a thousand times gives
    [round(0.001, 2)], which is 0.0 and not greater than 0. *)
Lemma ttr_rounds_to_zero :
  compute_ttr_from_frequencies [("a", 1000)] = Flt (Float 0 0) /\
  ~ Qlt 0 (value (compute_ttr_from_frequencies [("a", 1000)])).
Proof.
  split; [vm_compute; reflexivity|].
  vm_compute. intros H. discriminate H.
Qed.

(** * Further properties *)

(** ** The merged lines *)

Section MergedLines.

Lemma length_append_to_last xs suffix :
  length (append_to_last xs suffix) = length xs.
Proof.
  induction xs as [|x [|y ys] IH]; [reflexivity|reflexivity|].
  change (append_to_last (x :: y :: ys) suffix)
    with (x :: append_to_last (y :: ys) suffix).
  cbn [length]. now rewrite IH.
Qed.

Lemma length_clean_line cleaned raw :
  cleaned <> [] ->
  length (clean_line cleaned raw) =
  (length cleaned + if is_marked (Py.strip raw) then 1 else 0)%nat.
Proof.
  intros Hne. unfold clean_line. destruct (is_marked (Py.strip raw)).
  - rewrite length_app. reflexivity.
  - destruct cleaned as [|x xs]; [congruence|].
    rewrite length_append_to_last. lia.
Qed.

Lemma length_clean_lines cleaned lines :
  cleaned <> [] ->
  length (foldl clean_line cleaned lines) =
  (length cleaned + length (marked_lines lines))%nat.
Proof.
  revert cleaned. induction lines as [|raw lines IH]; intros cleaned Hne;
    cbn [foldl marked_lines List.filter]; [cbn; lia|].
  rewrite IH by apply clean_line_nonempty.
  rewrite length_clean_line by exact Hne.
  fold (marked_lines lines).
  destruct (is_marked (Py.strip raw)); cbn [length]; lia.
Qed.

Lemma prefix_nil s : String.prefix EmptyString s = true.
Proof. destruct s; reflexivity. Qed.

(** Whether a line is marked is read off its first character. *)
Lemma is_marked_append line suffix :
  is_marked line = true -> is_marked (line +:+ suffix) = true.
Proof.
  destruct line as [|c t]; [discriminate|].
  rewrite append_cons. unfold is_marked, Py.startswith.
  cbn [String.prefix]. now rewrite !prefix_nil.
Qed.

Lemma append_to_last_marked xs suffix :
  Forall (fun r => is_marked r = true) xs ->
  Forall (fun r => is_marked r = true) (append_to_last xs suffix).
Proof.
  induction 1 as [|x xs Hx Hxs IH]; [constructor|].
  destruct xs as [|y ys].
  - constructor; [|constructor]. now apply is_marked_append.
  - change (append_to_last (x :: y :: ys) suffix)
      with (x :: append_to_last (y :: ys) suffix).
    constructor; assumption.
Qed.

Lemma clean_line_marked_records x cleaned raw :
  Forall (fun r => is_marked r = true) cleaned ->
  exists y cleaned', clean_line (x :: cleaned) raw = y :: cleaned' /\
    Forall (fun r => is_marked r = true) cleaned' /\
    (is_marked x = true -> is_marked y = true).
Proof.
  intros Hall. unfold clean_line. destruct (is_marked (Py.strip raw)) eqn:Hm.
  - exists x, (cleaned ++ [Py.strip raw]). split; [reflexivity|].
    split; [|auto]. apply Forall_app. split; [exact Hall|].
    constructor; [exact Hm|constructor].
  - destruct cleaned as [|z zs].
    + exists (x +:+ " " +:+ Py.strip raw), []. split; [reflexivity|].
      split; [constructor|]. apply is_marked_append.
    + exists x, (append_to_last (z :: zs) (" " +:+ Py.strip raw)).
      split; [reflexivity|]. split; [|auto].
      now apply append_to_last_marked.
Qed.

Lemma clean_lines_marked_records lines x cleaned :
  Forall (fun r => is_marked r = true) cleaned ->
  exists y cleaned', foldl clean_line (x :: cleaned) lines = y :: cleaned' /\
    Forall (fun r => is_marked r = true) cleaned' /\
    (is_marked x = true -> is_marked y = true).
Proof.
  revert x cleaned. induction lines as [|raw lines IH]; intros x cleaned Hall;
    cbn [foldl]; [eauto|].
  destruct (clean_line_marked_records x cleaned raw Hall)
    as (y & cleaned' & -> & Hall' & Hy).
  destruct (IH y cleaned' Hall') as (z & cleaned'' & -> & Hall'' & Hz).
  exists z, cleaned''. split; [reflexivity|]. split; [exact Hall''|]. auto.
Qed.

End MergedLines.

(** X1: a transcript can be merged piece by piece: where a piece begins
    with a marked line, the merged lines of the whole are those of the
    part before followed by those of the part from there on. *)
Theorem get_cleaned_transcript_app (lines rest : list string) :
  starts_marked rest ->
  get_cleaned_transcript (lines ++ rest) =
  get_cleaned_transcript lines ++ get_cleaned_transcript rest.
Proof.
  intros Hrest. unfold get_cleaned_transcript at 1.
  rewrite foldl_app. now apply clean_lines_restart.
Qed.

Lemma get_cleaned_transcript_app_witness :
  get_cleaned_transcript
    (["@Begin"; "  cont"] ++ [Py.tabbed "*CHI:" "one"; "two"]) =
  get_cleaned_transcript ["@Begin"; "  cont"]
    ++ get_cleaned_transcript [Py.tabbed "*CHI:" "one"; "two"].
Proof.
  apply (get_cleaned_transcript_app ["@Begin"; "  cont"]
           [Py.tabbed "*CHI:" "one"; "two"]).
  reflexivity.
Defined.

(** X2: there is one merged line for each raw line that is marked, and
    one more when the transcript begins with a continuation line. *)
Theorem get_cleaned_transcript_length (recording : list string) :
  length (get_cleaned_transcript recording) =
  (length (marked_lines recording) + leading_continuation recording)%nat.
Proof.
  unfold get_cleaned_transcript.
  destruct recording as [|raw lines]; [reflexivity|].
  cbn [foldl marked_lines List.filter leading_continuation].
  rewrite length_clean_lines by apply clean_line_nonempty.
  fold (marked_lines lines). unfold clean_line.
  destruct (is_marked (Py.strip raw)); cbn [length app]; lia.
Qed.

(** X3: every merged line but the first begins with [@], [*] or [%], and
    so does the first one when the first raw line, stripped, does. *)
Theorem get_cleaned_transcript_marked (recording : list string) :
  Forall (fun r => is_marked r = true) (tail (get_cleaned_transcript recording))
  /\ (starts_marked recording ->
      Forall (fun r => is_marked r = true) (get_cleaned_transcript recording)).
Proof.
  unfold get_cleaned_transcript.
  destruct recording as [|raw lines]; [split; constructor|].
  cbn [foldl starts_marked].
  assert (Hfirst : exists x, clean_line [] raw = [x] /\
            (is_marked (Py.strip raw) = true -> is_marked x = true)).
  { exists (Py.strip raw). unfold clean_line.
    destruct (is_marked (Py.strip raw)); split; auto. }
  destruct Hfirst as (x & -> & Hx).
  destruct (clean_lines_marked_records lines x [] ltac:(constructor))
    as (y & cleaned & -> & Hall & Hy).
  split; [exact Hall|]. intros Hm. constructor; auto.
Qed.

Lemma get_cleaned_transcript_marked_witness :
  Forall (fun r => is_marked r = true)
    (tail (get_cleaned_transcript ["@Begin"; "  cont"; Py.tabbed "*CHI:" "one"]))
  /\ (starts_marked ["@Begin"; "  cont"; Py.tabbed "*CHI:" "one"] ->
      Forall (fun r => is_marked r = true)
        (get_cleaned_transcript ["@Begin"; "  cont"; Py.tabbed "*CHI:" "one"])).
Proof.
  exact (get_cleaned_transcript_marked
           ["@Begin"; "  cont"; Py.tabbed "*CHI:" "one"]).
Defined.

(** X4: a transcript that begins with continuation lines keeps them: they
    make the first merged line, the first one stripped and each further
    one added after a space. *)
Theorem leading_continuation_is_kept (c : string) (more after : list string) :
  is_marked (Py.strip c) = false ->
  Forall (fun c' => is_marked (Py.strip c') = false) more ->
  starts_marked after ->
  get_cleaned_transcript (c :: more ++ after) =
  foldl (fun text c' => text +:+ " " +:+ Py.strip c') (Py.strip c) more
    :: get_cleaned_transcript after.
Proof.
  intros Hc Hmore Hafter. unfold get_cleaned_transcript at 1.
  cbn [foldl]. rewrite foldl_app.
  assert (E : clean_line [] c = [] ++ [Py.strip c]).
  { unfold clean_line. now rewrite Hc. }
  rewrite E, clean_lines_continuations by exact Hmore.
  now rewrite clean_lines_restart by exact Hafter.
Qed.

Lemma leading_continuation_is_kept_witness :
  get_cleaned_transcript ("  hello " :: ["world"] ++ ["@Begin"; "x"]) =
  foldl (fun text c' => text +:+ " " +:+ Py.strip c') (Py.strip "  hello ")
        ["world"]
    :: get_cleaned_transcript ["@Begin"; "x"].
Proof.
  apply (leading_continuation_is_kept "  hello " ["world"] ["@Begin"; "x"]).
  - reflexivity.
  - repeat constructor.
  - reflexivity.
Defined.

(** ** The structured transcript *)

Section StructuredTranscript.

(** On a line of the body [parse_line] fails exactly when the line has
    no tab. *)
Lemma parse_line_outcome st line :
  in_body line = true ->
  match line_text line with
  | Some _ => exists st', parse_line st line = Ok st'
  | None => parse_line st line = Raise IndexError
  end.
Proof.
  intros Hin. rewrite parse_line_unfold.
  destruct (in_body_branch line Hin) as [->|[-> ->]];
    destruct (line_text line); eauto.
Qed.

Lemma parse_lines_succeed lines st :
  Forall (fun line => in_body line = true) lines ->
  Forall (fun line => is_Some (line_text line)) lines ->
  exists st', for_each parse_line st lines = Ok st'.
Proof.
  intros Hin. revert st.
  induction Hin as [|line lines Hline _ IH]; intros st Htext; cbn [for_each].
  - eauto.
  - inversion Htext as [|? ? [text Ht] Hrest]; subst.
    pose proof (parse_line_outcome st line Hline) as H. rewrite Ht in H.
    destruct H as [st1 ->]. cbn. now apply IH.
Qed.

Lemma parse_lines_fail lines st :
  Forall (fun line => in_body line = true) lines ->
  Exists (fun line => line_text line = None) lines ->
  for_each parse_line st lines = Raise IndexError.
Proof.
  intros Hin. revert st.
  induction Hin as [|line lines Hline _ IH]; intros st Hex; cbn [for_each].
  - inversion Hex.
  - pose proof (parse_line_outcome st line Hline) as H.
    destruct (line_text line) as [text|] eqn:Ht.
    + destruct H as [st1 ->]. cbn. apply IH.
      inversion Hex as [? ? Hnone|]; subst; [congruence|assumption].
    + now rewrite H.
Qed.

Lemma all_text_or_not lines :
  Forall (fun line => is_Some (line_text line)) lines \/
  Exists (fun line => line_text line = None) lines.
Proof.
  induction lines as [|line lines [IH|IH]].
  - left. constructor.
  - destruct (line_text line) eqn:Ht.
    + left. constructor; [rewrite Ht; eauto|exact IH].
    + right. now apply Exists_cons_hd.
  - right. now apply Exists_cons_tl.
Qed.

End StructuredTranscript.

(** X5: [get_structured_transcript] raises an index error exactly when a
    line of the body (a merged line that starts with [*] or [%]) has no
    tab, and returns the entries exactly when every line of the body has
    one. *)
Theorem get_structured_transcript_outcome (recording : list string) :
  (get_structured_transcript recording = Raise IndexError <->
   Exists (fun line => line_text line = None)
          (body_of_transcript (get_cleaned_transcript recording))) /\
  ((exists entries, get_structured_transcript recording = Ok entries) <->
   Forall (fun line => is_Some (line_text line))
          (body_of_transcript (get_cleaned_transcript recording))).
Proof.
  unfold get_structured_transcript.
  set (body := body_of_transcript (get_cleaned_transcript recording)).
  pose proof (body_lines_in_body (get_cleaned_transcript recording)) as Hin.
  fold body in Hin.
  assert (Hok : Forall (fun line => is_Some (line_text line)) body ->
                exists entries,
                  (st ← for_each parse_line parser_init body; Ok (finish st))
                  = Ok entries).
  { intros H. destruct (parse_lines_succeed body parser_init Hin H) as [st ->].
    cbn. eauto. }
  assert (Hfail : Exists (fun line => line_text line = None) body ->
                  (st ← for_each parse_line parser_init body; Ok (finish st))
                  = Raise IndexError).
  { intros H. now rewrite (parse_lines_fail body parser_init Hin H). }
  split; split; auto.
  - intros Hraise. destruct (all_text_or_not body) as [H|H]; [|exact H].
    destruct (Hok H) as [entries E]. congruence.
  - intros [entries E]. destruct (all_text_or_not body) as [H|H]; [exact H|].
    rewrite (Hfail H) in E. discriminate.
Qed.

Lemma get_structured_transcript_outcome_witness :
  get_structured_transcript [Py.tabbed "*CHI:" "one"; "%mor: no tab here"]
  = Raise IndexError.
Proof.
  apply (get_structured_transcript_outcome
           [Py.tabbed "*CHI:" "one"; "%mor: no tab here"]).
  apply Exists_cons_tl, Exists_cons_hd. reflexivity.
Defined.

Section EntryIds.

Lemma parser_ids_init : parser_ids parser_init.
Proof. repeat split. intros i e H. destruct i; discriminate H. Qed.

Lemma close_entry_ids st : parser_ids st -> parser_ids (close_entry st).
Proof.
  intros (Hctr & Hcur & Hall). unfold close_entry.
  destruct (truthy (speakers_tier (current_entry st))); [|repeat split; auto].
  unfold parser_ids. cbn [structured_transcript current_entry id_counter entry_id].
  rewrite length_app. cbn [length]. split; [lia|]. split.
  - rewrite Nat.add_1_r. cbn [entry_id_at]. f_equal. lia.
  - intros i e Hi. apply lookup_app_Some in Hi.
    destruct Hi as [Hi|[Hlen Hi]]; [now apply Hall|].
    apply list_lookup_singleton_Some in Hi. destruct Hi as [Hi <-].
    assert (i = length (structured_transcript st)) as -> by lia. exact Hcur.
Qed.

Lemma parse_line_ids st line st' :
  parse_line st line = Ok st' -> parser_ids st -> parser_ids st'.
Proof.
  rewrite parse_line_unfold. intros Hstep Hids.
  destruct (is_speaker_line line).
  - destruct (line_text line); [|discriminate]. injection Hstep as <-.
    apply close_entry_ids in Hids. exact Hids.
  - destruct (Py.contains_char "%" (line_head line)).
    + destruct (line_text line); [|discriminate]. injection Hstep as <-.
      exact Hids.
    + injection Hstep as <-. exact Hids.
Qed.

Lemma parse_lines_ids lines st st' :
  for_each parse_line st lines = Ok st' -> parser_ids st -> parser_ids st'.
Proof.
  revert st. induction lines as [|line lines IH]; intros st; cbn [for_each].
  - now intros [= <-].
  - destruct (parse_line st line) as [st1| |] eqn:Hstep; cbn; try discriminate.
    intros Hrest Hids. eapply IH; [exact Hrest|]. eapply parse_line_ids; eauto.
Qed.

End EntryIds.

(** X6: in the list that [get_structured_transcript] returns, the first
    entry has the id [None], and the entry at each later position [i]
    (counted from 0) has the id [i + 1]: the ids run None, 2, 3, ... *)
Theorem entry_ids (recording : list string) (entries : list entry)
    (i : nat) (e : entry) :
  get_structured_transcript recording = Ok entries ->
  entries !! i = Some e ->
  entry_id e = entry_id_at i.
Proof.
  unfold get_structured_transcript.
  destruct (for_each parse_line parser_init _) as [st| |] eqn:Hrun;
    cbn; try discriminate.
  intros [= <-] Hi.
  destruct (parse_lines_ids _ _ _ Hrun parser_ids_init) as (_ & Hcur & Hall).
  unfold finish in Hi. destruct (_ || _); [|now apply Hall].
  apply lookup_app_Some in Hi. destruct Hi as [Hi|[Hlen Hi]]; [now apply Hall|].
  apply list_lookup_singleton_Some in Hi. destruct Hi as [Hi <-].
  assert (i = length (structured_transcript st)) as -> by lia. exact Hcur.
Qed.

Lemma entry_ids_witness :
  entry_id (Entry (Some 3) {[ "*CHI" := "three" ]} ∅) = entry_id_at 2.
Proof.
  apply (entry_ids
    [Py.tabbed "*CHI:" "one"; Py.tabbed "*MOT:" "two"; Py.tabbed "*CHI:" "three"]
    [Entry None {[ "*CHI" := "one" ]} ∅;
     Entry (Some 2) {[ "*MOT" := "two" ]} ∅;
     Entry (Some 3) {[ "*CHI" := "three" ]} ∅]
    2).
  - vm_compute. reflexivity.
  - reflexivity.
Defined.

Section EntryCount.

Lemma truthy_singleton (k v : string) : truthy {[ k := v ]} = true.
Proof. apply truthy_true, map_non_empty_singleton. Qed.

Lemma truthy_insert (k v : string) d : truthy (<[ k := v ]> d) = true.
Proof. apply truthy_true, insert_non_empty. Qed.

Lemma parse_lines_count lines st st' :
  Forall (fun line => in_body line = true) lines ->
  for_each parse_line st lines = Ok st' ->
  length (finish st') = entries_after st lines.
Proof.
  intros Hin. revert st.
  induction Hin as [|line lines Hline _ IH]; intros st; cbn [for_each].
  - intros [= <-]. unfold finish, entries_after. cbn [speaker_lines List.filter length].
    destruct (truthy (speakers_tier (current_entry st)));
      destruct (truthy (dependent_tiers (current_entry st)));
      cbn [orb]; rewrite ?length_app; cbn [length]; lia.
  - rewrite parse_line_unfold.
    destruct (in_body_branch line Hline) as [Hsp|[Hsp Hdep]]; rewrite Hsp.
    + destruct (line_text line) as [text|]; cbn; [|discriminate].
      intros Hrest. rewrite (IH _ Hrest).
      unfold entries_after, speaker_lines. cbn [List.filter]. rewrite Hsp.
      cbn [set_speaker close_entry current_entry speakers_tier
           structured_transcript length].
      rewrite truthy_singleton.
      unfold close_entry.
      destruct (truthy (speakers_tier (current_entry st)));
        cbn [structured_transcript]; rewrite ?length_app; cbn [length]; lia.
    + rewrite Hdep. destruct (line_text line) as [text|]; cbn; [|discriminate].
      intros Hrest. rewrite (IH _ Hrest).
      unfold entries_after, speaker_lines. cbn [List.filter]. rewrite Hsp.
      cbn [add_dependent current_entry speakers_tier dependent_tiers
           structured_transcript].
      rewrite truthy_insert.
      destruct (truthy (speakers_tier (current_entry st))); [reflexivity|].
      destruct (length (List.filter is_speaker_line lines)); [|reflexivity].
      now rewrite orb_true_r.
Qed.

End EntryCount.

(** X7: when [get_structured_transcript] returns, it returns one entry
    for each speaker line of the body; a body without a speaker line
    gives one entry, and an empty body none. *)
Theorem entry_count (recording : list string) (entries : list entry) :
  get_structured_transcript recording = Ok entries ->
  length entries =
  match length (speaker_lines
                  (body_of_transcript (get_cleaned_transcript recording))) with
  | O => match body_of_transcript (get_cleaned_transcript recording) with
         | [] => 0%nat
         | _ :: _ => 1%nat
         end
  | S n => S n
  end.
Proof.
  unfold get_structured_transcript.
  set (body := body_of_transcript (get_cleaned_transcript recording)).
  destruct (for_each parse_line parser_init body) as [st| |] eqn:Hrun;
    cbn; try discriminate.
  intros [= <-].
  rewrite (parse_lines_count body parser_init st); [|apply body_lines_in_body|exact Hrun].
  unfold entries_after. cbn.
  destruct (length (speaker_lines body)); [|reflexivity].
  destruct body; reflexivity.
Qed.

Lemma entry_count_witness :
  length [Entry None {[ "*CHI" := "one" ]} {[ "%mor" := "x" ]};
          Entry (Some 2) {[ "*MOT" := "two" ]} ∅] =
  match length (speaker_lines
                  (body_of_transcript (get_cleaned_transcript
                     ["@Begin"; Py.tabbed "%mor:" "x"; Py.tabbed "*CHI:" "one";
                      Py.tabbed "*MOT:" "two"]))) with
  | O => match body_of_transcript (get_cleaned_transcript
                     ["@Begin"; Py.tabbed "%mor:" "x"; Py.tabbed "*CHI:" "one";
                      Py.tabbed "*MOT:" "two"]) with
         | [] => 0%nat
         | _ :: _ => 1%nat
         end
  | S n => S n
  end.
Proof.
  apply (entry_count
           ["@Begin"; Py.tabbed "%mor:" "x"; Py.tabbed "*CHI:" "one";
            Py.tabbed "*MOT:" "two"]).
  vm_compute. reflexivity.
Defined.

Section EntryKeys.

Lemma lstrip_with_keeps p c s :
  p c = false -> Py.contains_char c s = true ->
  Py.contains_char c (Py.lstrip_with p s) = true.
Proof.
  intros Hc. unfold Py.contains_char.
  induction s as [|a t IH]; cbn [Py.lstrip_with Py.any_char]; [discriminate|].
  destruct (p a) eqn:Ha; [|auto].
  destruct (Ascii.eqb c a) eqn:E; [|exact IH].
  apply Ascii.eqb_eq in E. congruence.
Qed.

Lemma rstrip_with_keeps p c s :
  p c = false -> Py.contains_char c s = true ->
  Py.contains_char c (Py.rstrip_with p s) = true.
Proof.
  intros Hc. unfold Py.contains_char.
  induction s as [|a t IH]; cbn [Py.rstrip_with Py.any_char]; [discriminate|].
  intros H. destruct (Py.rstrip_with p t) as [|b r].
  - destruct (Ascii.eqb c a) eqn:E.
    + apply Ascii.eqb_eq in E. subst a. rewrite Hc. cbn. now rewrite Ascii.eqb_refl.
    + cbn in H. apply IH in H. discriminate H.
  - cbn [Py.any_char] in *. destruct (Ascii.eqb c a); [reflexivity|].
    cbn in H. cbn. now apply IH.
Qed.

Lemma lstrip_with_absent p c s :
  Py.contains_char c s = false ->
  Py.contains_char c (Py.lstrip_with p s) = false.
Proof.
  unfold Py.contains_char.
  induction s as [|a t IH]; cbn [Py.lstrip_with Py.any_char]; [reflexivity|].
  intros H. destruct (p a); [|exact H].
  apply orb_false_iff in H. now apply IH.
Qed.

Lemma rstrip_with_absent p c s :
  Py.contains_char c s = false ->
  Py.contains_char c (Py.rstrip_with p s) = false.
Proof.
  unfold Py.contains_char.
  induction s as [|a t IH]; cbn [Py.rstrip_with Py.any_char]; [reflexivity|].
  intros H. apply orb_false_iff in H. destruct H as [Ha Ht].
  specialize (IH Ht). destruct (Py.rstrip_with p t) as [|b r].
  - destruct (p a); cbn; [reflexivity|]. now rewrite Ha.
  - cbn [Py.any_char] in *. now rewrite Ha, IH.
Qed.

(** Stripping colons neither removes nor brings in another character. *)
Lemma strip_colon_contains c s :
  Ascii.eqb ":" c = false ->
  Py.contains_char c (Py.strip_colon s) = Py.contains_char c s.
Proof.
  intros Hc. unfold Py.strip_colon, Py.strip_with.
  destruct (Py.contains_char c s) eqn:E.
  - now apply rstrip_with_keeps, lstrip_with_keeps.
  - now apply rstrip_with_absent, lstrip_with_absent.
Qed.

Lemma entry_keys_init : entry_keys (Entry None ∅ ∅).
Proof. split; [now left|]. apply map_Forall_empty. Qed.

(** What holds of the keys at every turn of the loop. *)
Lemma parse_line_keys st line st' :
  parse_line st line = Ok st' ->
  Forall entry_keys (structured_transcript st) ->
  entry_keys (current_entry st) ->
  Forall entry_keys (structured_transcript st') /\
  entry_keys (current_entry st').
Proof.
  rewrite parse_line_unfold. intros Hstep Hall Hcur.
  destruct (is_speaker_line line) eqn:Hsp.
  - destruct (line_text line) as [text|]; [|discriminate].
    injection Hstep as <-.
    assert (Hmarker : Py.contains_char "*" (line_marker line) = true).
    { unfold line_marker. now rewrite strip_colon_contains. }
    unfold set_speaker, close_entry.
    destruct (truthy (speakers_tier (current_entry st)));
      cbn [structured_transcript current_entry dependent_tiers entry_id].
    + split.
      * apply Forall_app. split; [exact Hall|]. constructor; [exact Hcur|constructor].
      * split; [right; eauto|]. apply map_Forall_empty.
    + split; [exact Hall|]. split; [right; eauto|]. apply Hcur.
  - destruct (Py.contains_char "%" (line_head line)) eqn:Hdep.
    + destruct (line_text line) as [text|]; [|discriminate].
      injection Hstep as <-. unfold add_dependent.
      cbn [structured_transcript current_entry].
      split; [exact Hall|]. split; [apply Hcur|].
      cbn [dependent_tiers]. apply map_Forall_insert_2; [|apply Hcur].
      unfold line_marker. rewrite !strip_colon_contains by reflexivity. auto.
    + injection Hstep as <-. auto.
Qed.

Lemma parse_lines_keys lines st st' :
  for_each parse_line st lines = Ok st' ->
  Forall entry_keys (structured_transcript st) ->
  entry_keys (current_entry st) ->
  Forall entry_keys (structured_transcript st') /\
  entry_keys (current_entry st').
Proof.
  revert st. induction lines as [|line lines IH]; intros st; cbn [for_each].
  - intros [= <-]. auto.
  - destruct (parse_line st line) as [st1| |] eqn:Hstep; cbn; try discriminate.
    intros Hrest Hall Hcur.
    destruct (parse_line_keys _ _ _ Hstep Hall Hcur). eauto.
Qed.

End EntryKeys.

(** X8: in every entry that [get_structured_transcript] returns, the
    speaker's tier is empty or has exactly one key, and that key holds a
    [*]; every key of the dependent tiers holds a [%] and no [*].  So the
    two kinds of keys never mix. *)
Theorem entries_keys (recording : list string) (entries : list entry) :
  get_structured_transcript recording = Ok entries ->
  Forall entry_keys entries.
Proof.
  unfold get_structured_transcript.
  destruct (for_each parse_line parser_init _) as [st| |] eqn:Hrun;
    cbn; try discriminate.
  intros [= <-].
  destruct (parse_lines_keys _ _ _ Hrun) as [Hall Hcur];
    [constructor|apply entry_keys_init|].
  unfold finish. destruct (_ || _); [|exact Hall].
  apply Forall_app. split; [exact Hall|]. constructor; [exact Hcur|constructor].
Qed.

Lemma entries_keys_witness :
  Forall entry_keys
    [Entry None {[ "*CHI" := "one" ]} {[ "%mor" := "x" ]};
     Entry (Some 2) {[ "*MOT" := "two" ]} ∅].
Proof.
  apply (entries_keys
           ["@Begin"; Py.tabbed "%mor:" "x"; Py.tabbed "*CHI:" "one";
            Py.tabbed "*MOT:" "two"]).
  vm_compute. reflexivity.
Defined.

(** ** The tokens *)

Section Tokens.

Variable ignored : list string.

Lemma tokenize_raws_length fuel raws tokens :
  tokenize_raws fuel ignored raws = Ok tokens ->
  (length tokens <= length raws)%nat.
Proof.
  revert tokens. induction raws as [|raw raws IH]; intros tokens;
    cbn [tokenize_raws].
  - intros [= <-]. reflexivity.
  - destruct (strip_loop fuel ignored raw true) as [c| |]; cbn; try discriminate.
    destruct (tokenize_raws fuel ignored raws) as [toks| |]; cbn; try discriminate.
    intros [= <-]. specialize (IH toks eq_refl).
    destruct (is_token c); cbn [length]; lia.
Qed.

Lemma tokenize_raws_app fuel xs ys tx ty :
  tokenize_raws fuel ignored xs = Ok tx ->
  tokenize_raws fuel ignored ys = Ok ty ->
  tokenize_raws fuel ignored (xs ++ ys) = Ok (tx ++ ty).
Proof.
  intros Hx Hy. revert tx Hx.
  induction xs as [|x xs IH]; intros tx; cbn [tokenize_raws app].
  - now intros [= <-].
  - destruct (strip_loop fuel ignored x true) as [c| |]; cbn; try discriminate.
    destruct (tokenize_raws fuel ignored xs) as [toks| |]; cbn; try discriminate.
    intros [= <-]. rewrite (IH toks eq_refl). cbn.
    now destruct (is_token c).
Qed.

End Tokens.

Section SplitApp.

Lemma cons_first_app c xs ys :
  xs <> [] -> Py.cons_first c (xs ++ ys) = Py.cons_first c xs ++ ys.
Proof. destruct xs; [congruence|reflexivity]. Qed.

Lemma split_nonempty c t :
  Py.isspace c = false -> Py.split (String c t) <> [].
Proof.
  intros Hc. cbn [Py.split]. rewrite Hc.
  destruct t as [|c' t']; [discriminate|].
  destruct (Py.isspace c'); [discriminate|].
  destruct (Py.split (String c' t')); discriminate.
Qed.

(** Splitting a text with a whitespace character between two parts is
    splitting the two parts. *)
Lemma split_app_space a sp b :
  Py.isspace sp = true ->
  Py.split (a +:+ String sp b) = Py.split a ++ Py.split b.
Proof.
  intros Hsp. induction a as [|c t IH].
  - rewrite append_nil. cbn [Py.split]. now rewrite Hsp.
  - rewrite append_cons.
    change (Py.split (String c (t +:+ String sp b)))
      with (if Py.isspace c then Py.split (t +:+ String sp b)
            else match t +:+ String sp b with
                 | EmptyString => [String c EmptyString]
                 | String c' _ =>
                     if Py.isspace c'
                     then String c EmptyString :: Py.split (t +:+ String sp b)
                     else Py.cons_first c (Py.split (t +:+ String sp b))
                 end).
    cbn [Py.split]. destruct (Py.isspace c); [exact IH|].
    destruct t as [|c' t'].
    + rewrite append_nil in *. rewrite Hsp. now rewrite IH.
    + rewrite append_cons in *. destruct (Py.isspace c') eqn:Hc'.
      * now rewrite IH.
      * rewrite IH. apply cons_first_app. now apply split_nonempty.
Qed.

End SplitApp.

(** X9: every token that [tokenize] yields is non-empty, has at least
    one alphanumeric character and no whitespace; and there are no more
    tokens than whitespace-separated words in the text. *)
Theorem tokens_shape (fuel : nat) (text : string) (ignored tokens : list string) :
  tokenize fuel text ignored = Ok tokens ->
  Forall (fun token => token <> EmptyString /\
                       Py.any_char Py.isalnum token = true /\
                       spaceless token) tokens /\
  (length tokens <= length (Py.split text))%nat.
Proof.
  unfold tokenize. intros Hrun. split.
  - assert (Hsp : Forall spaceless (Py.split text)).
    { eapply Forall_impl; [apply split_pieces|]. simpl. tauto. }
    pose proof (tokenize_raws_tokens ignored fuel _ _ Hsp Hrun) as H.
    eapply Forall_impl; [exact H|]. simpl. intros token (Htok & Hspl & _).
    unfold is_token in Htok. apply andb_true_iff in Htok.
    destruct Htok as [Hne Hal]. apply nonempty_true in Hne. auto.
  - eapply tokenize_raws_length, Hrun.
Qed.

Lemma tokens_shape_witness :
  Forall (fun token => token <> EmptyString /\
                       Py.any_char Py.isalnum token = true /\
                       spaceless token) ["hello"; "world"] /\
  (length ["hello"; "world"] <= length (Py.split "(.)hello!! [?] world."))%nat.
Proof.
  apply (tokens_shape 21 "(.)hello!! [?] world." default_ignored).
  reflexivity.
Defined.

(** X10: tokenizing two texts joined by a whitespace character yields
    the tokens of the first followed by the tokens of the second. *)
Theorem tokenize_app (fuel : nat) (a b : string) (sp : ascii)
    (ignored ta tb : list string) :
  Py.isspace sp = true ->
  tokenize fuel a ignored = Ok ta ->
  tokenize fuel b ignored = Ok tb ->
  tokenize fuel (a +:+ String sp b) ignored = Ok (ta ++ tb).
Proof.
  unfold tokenize. intros Hsp Ha Hb.
  rewrite split_app_space by exact Hsp. now apply tokenize_raws_app.
Qed.

Lemma tokenize_app_witness :
  tokenize 9 ("hello, (.)" +:+ String " " "world.") default_ignored
  = Ok (["hello"] ++ ["world"]).
Proof.
  apply (tokenize_app 9 "hello, (.)" "world." " " default_ignored);
    reflexivity.
Defined.

Section Substrings.

Lemma append_empty_r s : s +:+ EmptyString = s.
Proof. induction s as [|c t IH]; [reflexivity|]. now rewrite append_cons, IH. Qed.

Lemma append_assoc s t u : (s +:+ t) +:+ u = s +:+ (t +:+ u).
Proof.
  induction s as [|c s IH]; [reflexivity|]. now rewrite !append_cons, IH.
Qed.

Lemma take_drop n s : Py.take n s +:+ Py.drop n s = s.
Proof.
  revert s. induction n as [|n IH]; intros [|c t]; cbn [Py.take Py.drop];
    try reflexivity.
  now rewrite append_cons, IH.
Qed.

Lemma substring_refl s : substring_of s s.
Proof. exists EmptyString, EmptyString. now rewrite append_nil, append_empty_r. Qed.

Lemma substring_trans s t u :
  substring_of s t -> substring_of t u -> substring_of s u.
Proof.
  intros (b1 & a1 & ->) (b2 & a2 & ->).
  exists (b2 +:+ b1), (a1 +:+ a2). now rewrite !append_assoc.
Qed.

Lemma substring_empty s : substring_of EmptyString s.
Proof. exists EmptyString, s. reflexivity. Qed.

Lemma substring_drop n s : substring_of (Py.drop n s) s.
Proof.
  exists (Py.take n s), EmptyString. now rewrite append_empty_r, take_drop.
Qed.

Lemma substring_take n s : substring_of (Py.take n s) s.
Proof. exists EmptyString, (Py.drop n s). now rewrite append_nil, take_drop. Qed.

Lemma substring_drop_last k s : substring_of (Py.drop_last k s) s.
Proof. destruct k; [apply substring_empty|apply substring_take]. Qed.

Lemma substring_cons c s t : substring_of s t -> substring_of s (String c t).
Proof. intros (b & a & ->). exists (String c b), a. reflexivity. Qed.

Lemma strip_ign_substring cleaned stripping ign :
  substring_of (strip_ign (cleaned, stripping) ign).1 cleaned.
Proof.
  unfold strip_ign.
  destruct (Py.startswith cleaned ign); destruct (Py.endswith _ ign);
    cbn [fst];
    eauto using substring_refl, substring_drop, substring_drop_last,
      substring_trans.
Qed.

Lemma strip_fold_substring igns cleaned stripping :
  substring_of (foldl strip_ign (cleaned, stripping) igns).1 cleaned.
Proof.
  revert cleaned stripping.
  induction igns as [|ign igns IH]; intros cleaned stripping; cbn [foldl].
  - apply substring_refl.
  - pose proof (strip_ign_substring cleaned stripping ign) as H.
    destruct (strip_ign (cleaned, stripping) ign) as [c b].
    eapply substring_trans; [apply IH|exact H].
Qed.

Lemma strip_loop_substring fuel ignored cleaned stripping cleaned' :
  strip_loop fuel ignored cleaned stripping = Ok cleaned' ->
  substring_of cleaned' cleaned.
Proof.
  revert cleaned stripping.
  induction fuel as [|fuel IH]; intros cleaned stripping; cbn [strip_loop];
    destruct (stripping && Py.nonempty cleaned); try discriminate;
    try (intros [= <-]; apply substring_refl).
  pose proof (strip_fold_substring ignored cleaned false) as H.
  fold (strip_pass ignored cleaned) in H.
  destruct (strip_pass ignored cleaned) as [c b]. intros Hrun.
  eapply substring_trans; [eapply IH, Hrun|exact H].
Qed.

(** The pieces of a split are runs of the text, and the first one is a
    prefix when the text does not begin with whitespace. *)
Lemma split_substrings s :
  Forall (fun raw => substring_of raw s) (Py.split s) /\
  (forall c t, s = String c t -> Py.isspace c = false ->
     exists w ws after, Py.split s = w :: ws /\ s = w +:+ after).
Proof.
  induction s as [|c t [IHall IHfirst]].
  - split; [constructor|discriminate].
  - assert (Hlift : Forall (fun raw => substring_of raw (String c t)) (Py.split t)).
    { eapply Forall_impl; [exact IHall|]. intros raw. apply substring_cons. }
    cbn [Py.split]. destruct (Py.isspace c) eqn:Hc.
    + split; [exact Hlift|]. intros c0 t0 [= <- <-]. congruence.
    + destruct t as [|c' t'].
      * split.
        -- constructor; [apply substring_refl|constructor].
        -- intros _ _ _ _. exists (String c ""), [], "". split; reflexivity.
      * destruct (Py.isspace c') eqn:Hc'.
        -- split.
           ++ constructor; [|exact Hlift].
              exists EmptyString, (String c' t'). reflexivity.
           ++ intros _ _ _ _. exists (String c ""), (Py.split (String c' t')),
                (String c' t'). split; reflexivity.
        -- destruct (IHfirst c' t' eq_refl Hc') as (w & ws & after & E & Et).
           rewrite E in *. cbn [Py.cons_first].
           inversion Hlift as [|? ? _ Hws]; subst.
           split.
           ++ constructor; [|exact Hws].
              exists EmptyString, after. rewrite append_nil, append_cons.
              now rewrite <- Et.
           ++ intros _ _ _ _. exists (String c w), ws, after.
              split; [reflexivity|]. rewrite append_cons. now rewrite <- Et.
Qed.

Lemma tokenize_raws_substrings fuel ignored raws tokens text :
  Forall (fun raw => substring_of raw text) raws ->
  tokenize_raws fuel ignored raws = Ok tokens ->
  Forall (fun token => substring_of token text) tokens.
Proof.
  intros Hraws. revert tokens.
  induction Hraws as [|raw raws Hraw _ IH]; intros tokens; cbn [tokenize_raws].
  - intros [= <-]. constructor.
  - destruct (strip_loop fuel ignored raw true) as [c| |] eqn:Hc;
      cbn; try discriminate.
    destruct (tokenize_raws fuel ignored raws) as [toks| |];
      cbn; try discriminate.
    intros [= <-]. specialize (IH toks eq_refl).
    destruct (is_token c); [|exact IH].
    constructor; [|exact IH].
    eapply substring_trans; [eapply strip_loop_substring, Hc|exact Hraw].
Qed.

End Substrings.

(** X11: [tokenize] makes up no character: every token it yields is a
    run of consecutive characters of the text. *)
Theorem tokens_are_substrings (fuel : nat) (text : string)
    (ignored tokens : list string) :
  tokenize fuel text ignored = Ok tokens ->
  Forall (fun token => substring_of token text) tokens.
Proof.
  unfold tokenize. apply tokenize_raws_substrings, split_substrings.
Qed.

Lemma tokens_are_substrings_witness :
  Forall (fun token => substring_of token "(.)hello!! [?] world.")
         ["hello"; "world"].
Proof.
  apply (tokens_are_substrings 21 "(.)hello!! [?] world." default_ignored).
  reflexivity.
Defined.

(** ** The frequency table *)

Section Table.

Lemma count_token_keys wc token k :
  k ∈ map fst (count_token wc token) -> k ∈ map fst wc \/ k = token.
Proof.
  induction wc as [|[k' v] rest IH]; cbn [count_token map fst].
  - intros H. apply list_elem_of_singleton in H. now right.
  - destruct (String.eqb k' token); cbn [map fst]; [now left|].
    intros H. apply elem_of_cons in H. destruct H as [->|H].
    + left. left.
    + destruct (IH H) as [H'|H']; [left; now right|now right].
Qed.

Lemma count_token_NoDup wc token :
  NoDup (map fst wc) -> NoDup (map fst (count_token wc token)).
Proof.
  induction wc as [|[k v] rest IH]; cbn [count_token map fst]; intros Hnd.
  - apply NoDup_singleton.
  - destruct (String.eqb k token) eqn:E; cbn [map fst]; [exact Hnd|].
    apply NoDup_cons in Hnd. destruct Hnd as [Hk Hrest].
    apply NoDup_cons. split; [|now apply IH].
    intros H. apply count_token_keys in H. destruct H as [H|H]; [contradiction|].
    apply String.eqb_neq in E. congruence.
Qed.

Lemma count_token_Forall (P : string * Z -> Prop) wc token :
  (forall k v, P (k, v) -> P (k, v + 1)) -> P (token, 1) ->
  Forall P wc -> Forall P (count_token wc token).
Proof.
  intros Hstep Hnew. induction 1 as [|[k v] rest Hkv Hrest IH];
    cbn [count_token].
  - constructor; [exact Hnew|constructor].
  - destruct (String.eqb k token); constructor; auto.
Qed.

Lemma count_token_count wc token k :
  table_count (count_token wc token) k =
  table_count wc k + if String.eqb k token then 1 else 0.
Proof.
  induction wc as [|[k' v] rest IH]; cbn [count_token table_count].
  - rewrite String.eqb_sym. destruct (String.eqb k token); lia.
  - destruct (String.eqb k' token) eqn:E; cbn [table_count].
    + apply String.eqb_eq in E. subst k'. rewrite (String.eqb_sym k token).
      destruct (String.eqb token k); lia.
    + destruct (String.eqb k' k) eqn:E'; [|exact IH].
      apply String.eqb_eq in E'. subst k'. rewrite E. lia.
Qed.

Lemma insert_by_count_perm item sorted :
  insert_by_count item sorted ≡ₚ item :: sorted.
Proof.
  induction sorted as [|item' rest IH]; cbn [insert_by_count]; [reflexivity|].
  destruct (item.2 <? item'.2); [|reflexivity].
  rewrite IH. apply Permutation_swap.
Qed.

Lemma sorted_by_count_perm items : sorted_by_count items ≡ₚ items.
Proof.
  unfold sorted_by_count. induction items as [|item items IH]; cbn [foldr];
    [reflexivity|].
  now rewrite insert_by_count_perm, IH.
Qed.

Lemma insert_by_count_HdRel a item sorted :
  count_ge a item -> HdRel count_ge a sorted ->
  HdRel count_ge a (insert_by_count item sorted).
Proof.
  intros Ha Hhd. destruct sorted as [|item' rest]; cbn [insert_by_count].
  - now constructor.
  - destruct (item.2 <? item'.2); constructor; [|exact Ha].
    now inversion Hhd.
Qed.

Lemma insert_by_count_Sorted item sorted :
  Sorted count_ge sorted -> Sorted count_ge (insert_by_count item sorted).
Proof.
  induction 1 as [|item' rest Hrest IH Hhd]; cbn [insert_by_count].
  - repeat constructor.
  - destruct (item.2 <? item'.2) eqn:E.
    + apply Z.ltb_lt in E. constructor; [exact IH|].
      apply insert_by_count_HdRel; [unfold count_ge; lia|exact Hhd].
    + apply Z.ltb_ge in E. constructor; [now constructor|].
      constructor. exact E.
Qed.

Lemma sorted_by_count_Sorted items : Sorted count_ge (sorted_by_count items).
Proof.
  unfold sorted_by_count. induction items as [|item items IH]; cbn [foldr].
  - constructor.
  - now apply insert_by_count_Sorted.
Qed.

Lemma count_ge_trans a b c : count_ge a b -> count_ge b c -> count_ge a c.
Proof. unfold count_ge. lia. Qed.

(** A key of a table without repeated keys is looked up at its item. *)
Lemma table_count_elem table k v :
  NoDup (map fst table) -> (k, v) ∈ table -> table_count table k = v.
Proof.
  induction table as [|[k' v'] rest IH]; cbn [map fst table_count]; intros Hnd Hin.
  - inversion Hin.
  - apply NoDup_cons in Hnd. destruct Hnd as [Hk Hrest].
    apply elem_of_cons in Hin. destruct Hin as [[= <- <-]|Hin].
    + now rewrite String.eqb_refl.
    + destruct (String.eqb k' k) eqn:E; [|now apply IH].
      apply String.eqb_eq in E. subst k'. exfalso. apply Hk.
      apply list_elem_of_fmap. exists (k, v). auto.
Qed.

Lemma table_count_absent table k :
  k ∉ map fst table -> table_count table k = 0.
Proof.
  induction table as [|[k' v'] rest IH]; cbn [map fst table_count]; [reflexivity|].
  intros Hk. apply not_elem_of_cons in Hk. destruct Hk as [Hne Hk].
  destruct (String.eqb k' k) eqn:E; [|now apply IH].
  apply String.eqb_eq in E. congruence.
Qed.

Lemma table_count_perm table table' k :
  NoDup (map fst table) -> table ≡ₚ table' ->
  table_count table k = table_count table' k.
Proof.
  intros Hnd Hperm.
  assert (Hnd' : NoDup (map fst table')) by now rewrite <- Hperm.
  destruct (decide (k ∈ map fst table)) as [Hin|Hout].
  - apply list_elem_of_fmap in Hin. destruct Hin as ([k0 v] & -> & Hin).
    cbn [fst]. rewrite (table_count_elem table k0 v Hnd Hin).
    symmetry. apply table_count_elem; [exact Hnd'|]. now rewrite <- Hperm.
  - rewrite (table_count_absent table k Hout).
    symmetry. apply table_count_absent. now rewrite <- Hperm.
Qed.

End Table.

Section FrequencyLoops.

Variables (fuel : nat) (speaker tier : string) (pattern : option string)
          (match_type : string).

Lemma for_each_invariant {S A} (I : S -> Prop) (step : S -> A -> result S)
    xs st st' :
  (forall s x s', step s x = Ok s' -> I s -> I s') ->
  for_each step st xs = Ok st' -> I st -> I st'.
Proof.
  intros Hstep. revert st. induction xs as [|x xs IH]; intros st; cbn [for_each].
  - now intros [= <-].
  - destruct (step st x) as [s1| |] eqn:E; cbn; try discriminate.
    intros Hrest Hst. eapply IH; [exact Hrest|]. eapply Hstep; eauto.
Qed.

Lemma tokenize_tokens text ignored tokens :
  tokenize fuel text ignored = Ok tokens ->
  Forall (fun token => is_token token = true) tokens.
Proof.
  unfold tokenize. intros Hrun.
  assert (Hsp : Forall spaceless (Py.split text)).
  { eapply Forall_impl; [apply split_pieces|]. simpl. tauto. }
  pose proof (tokenize_raws_tokens ignored fuel _ _ Hsp Hrun) as H.
  eapply Forall_impl; [exact H|]. simpl. tauto.
Qed.

Lemma frequency_table_count wc token :
  is_token token = true -> skipped pattern match_type token = false ->
  frequency_table pattern match_type wc ->
  frequency_table pattern match_type (count_token wc token).
Proof.
  intros Htok Hskip (Hnd & Hpos & Hkeys). split; [|split].
  - now apply count_token_NoDup.
  - apply count_token_Forall; [cbn; intros; lia|cbn; lia|exact Hpos].
  - apply count_token_Forall; cbn; auto.
Qed.

Lemma frequency_table_tokens tokens wc :
  Forall (fun token => is_token token = true) tokens ->
  frequency_table pattern match_type wc ->
  frequency_table pattern match_type
    (foldl (fun wc token =>
              if skipped pattern match_type token then wc
              else count_token wc token) wc tokens).
Proof.
  intros Htoks. revert wc. induction Htoks as [|token tokens Htok _ IH];
    intros wc Hwc; cbn [foldl]; [exact Hwc|].
  apply IH. destruct (skipped pattern match_type token) eqn:E; [exact Hwc|].
  now apply frequency_table_count.
Qed.

Lemma count_entry_table wc el wc' :
  count_entry fuel speaker tier pattern match_type wc el = Ok wc' ->
  frequency_table pattern match_type wc ->
  frequency_table pattern match_type wc'.
Proof.
  unfold count_entry.
  destruct (tokenize fuel _ default_ignored) as [tokens| |] eqn:Htok;
    cbn; try discriminate.
  intros [= <-]. apply frequency_table_tokens. eapply tokenize_tokens, Htok.
Qed.

(** The three stages of a call that returns. *)
Lemma get_frequencies_stages recording freq :
  get_frequencies fuel recording speaker tier pattern match_type = Ok freq ->
  exists entries wc,
    get_structured_transcript recording = Ok entries /\
    pattern_given pattern && negb (is_match_type match_type) = false /\
    for_each (count_entry fuel speaker tier pattern match_type) []
             (filtered_by_speaker speaker entries) = Ok wc /\
    freq = sorted_by_count wc.
Proof.
  unfold get_frequencies.
  destruct (get_structured_transcript recording) as [entries| |];
    cbn [mbind result_bind]; try discriminate.
  destruct (pattern_given pattern && negb (is_match_type match_type));
    [discriminate|].
  fold (filtered_by_speaker speaker entries).
  destruct (for_each _ [] (filtered_by_speaker speaker entries)) as [wc| |] eqn:E;
    cbn; try discriminate.
  intros [= <-]. eauto 6.
Qed.

Lemma get_frequencies_table recording freq :
  get_frequencies fuel recording speaker tier pattern match_type = Ok freq ->
  frequency_table pattern match_type freq /\ Sorted count_ge freq.
Proof.
  intros H. apply get_frequencies_stages in H.
  destruct H as (entries & wc & _ & _ & Hloop & ->).
  assert (Hwc : frequency_table pattern match_type wc).
  { eapply (for_each_invariant (frequency_table pattern match_type));
      [|exact Hloop|].
    - intros s x s'. apply count_entry_table.
    - repeat split; constructor. }
  split; [|apply sorted_by_count_Sorted].
  destruct Hwc as (Hnd & Hpos & Hkeys).
  pose proof (sorted_by_count_perm wc) as Hperm.
  unfold frequency_table. now rewrite !Hperm.
Qed.

End FrequencyLoops.

(** X12: the table that [get_frequencies] returns is a dictionary of
    positive counts: no token is a key twice and every count is at
    least 1. *)
Theorem frequencies_positive (fuel : nat) (recording : list string)
    (speaker tier : string) (pattern : option string) (match_type : string)
    (freq : list (string * Z)) :
  get_frequencies fuel recording speaker tier pattern match_type = Ok freq ->
  NoDup (map fst freq) /\ Forall (fun item => 1 <= item.2) freq.
Proof.
  intros H. apply get_frequencies_table in H.
  destruct H as [(Hnd & Hpos & _) _]. auto.
Qed.

Lemma frequencies_positive_witness :
  NoDup (map fst [("b", 2); ("c", 2); ("a", 1); ("d", 1)]) /\
  Forall (fun item : string * Z => 1 <= item.2)
         [("b", 2); ("c", 2); ("a", 1); ("d", 1)].
Proof.
  apply (frequencies_positive 40
    [Py.tabbed "*CHI:" "a b b c"; Py.tabbed "*MOT:" "b"; Py.tabbed "*CHI:" "c d"]
    "*CHI" "utterance" None "contains").
  vm_compute. reflexivity.
Defined.

(** X13: the table that [get_frequencies] returns is sorted by
    descending count: each item's count is at least the count of every
    item after it. *)
Theorem frequencies_sorted (fuel : nat) (recording : list string)
    (speaker tier : string) (pattern : option string) (match_type : string)
    (freq : list (string * Z)) :
  get_frequencies fuel recording speaker tier pattern match_type = Ok freq ->
  StronglySorted count_ge freq.
Proof.
  intros H. apply get_frequencies_table in H. destruct H as [_ H].
  apply Sorted_StronglySorted; [|exact H].
  intros a b c. apply count_ge_trans.
Qed.

Lemma frequencies_sorted_witness :
  StronglySorted count_ge [("b", 2); ("c", 2); ("a", 1); ("d", 1)].
Proof.
  apply (frequencies_sorted 40
    [Py.tabbed "*CHI:" "a b b c"; Py.tabbed "*MOT:" "b"; Py.tabbed "*CHI:" "c d"]
    "*CHI" "utterance" None "contains").
  vm_compute. reflexivity.
Defined.

(** X14: every key of the table that [get_frequencies] returns is a
    token (non-empty, with an alphanumeric character) that the filter of
    [pattern] and [match_type] lets through. *)
Theorem frequencies_keys (fuel : nat) (recording : list string)
    (speaker tier : string) (pattern : option string) (match_type : string)
    (freq : list (string * Z)) :
  get_frequencies fuel recording speaker tier pattern match_type = Ok freq ->
  Forall (fun item => is_token item.1 = true /\
                      skipped pattern match_type item.1 = false) freq.
Proof.
  intros H. apply get_frequencies_table in H.
  destruct H as [(_ & _ & Hkeys) _]. exact Hkeys.
Qed.

Lemma frequencies_keys_witness :
  Forall (fun item : string * Z =>
            is_token item.1 = true /\
            skipped (Some "ba") "startswith" item.1 = false)
         [("bar", 3); ("baz", 2)].
Proof.
  apply (frequencies_keys 40
    [Py.tabbed "*CHI:" "[:foo] bar bar . baz bar baz qux"]
    "*CHI" "utterance" (Some "ba") "startswith").
  vm_compute. reflexivity.
Defined.

(** X15: with a non-empty pattern and the mode ["equals"] the table has
    at most one item, and its key is the pattern. *)
Theorem frequencies_equals (fuel : nat) (recording : list string)
    (speaker tier p : string) (freq : list (string * Z)) :
  Py.nonempty p = true ->
  get_frequencies fuel recording speaker tier (Some p) "equals" = Ok freq ->
  freq = [] \/ exists n, freq = [(p, n)] /\ 1 <= n.
Proof.
  intros Hp H. apply get_frequencies_table in H.
  destruct H as [(Hnd & Hpos & Hkeys) _].
  assert (Hall : Forall (fun item : string * Z => item.1 = p) freq).
  { eapply Forall_impl; [exact Hkeys|]. intros [k v] [_ Hskip].
    unfold skipped in Hskip. rewrite Hp in Hskip. cbn in Hskip.
    destruct (String.eqb k p) eqn:E; [|discriminate].
    now apply String.eqb_eq in E. }
  destruct freq as [|[k v] [|[k' v'] rest]]; [now left| |].
  - right. inversion Hall as [|? ? Hk _]; subst. cbn in *.
    inversion Hpos; subst. eauto.
  - exfalso. inversion Hall as [|? ? Hk Hall']; subst.
    inversion Hall' as [|? ? Hk' _]; subst. cbn in *. subst.
    apply NoDup_cons in Hnd. destruct Hnd as [Hnd _]. apply Hnd. left.
Qed.

Lemma frequencies_equals_witness :
  [("bar", 2)] = [] \/ exists n, [("bar", 2)] = [("bar", n)] /\ 1 <= n.
Proof.
  apply (frequencies_equals 14 [Py.tabbed "*CHI:" "[:foo] bar bar"]
           "*CHI" "utterance" "bar").
  - reflexivity.
  - vm_compute. reflexivity.
Defined.

Section FrequencyResults.

Variables (fuel : nat) (speaker tier : string) (pattern : option string)
          (match_type : string).

Lemma filtered_by_speaker_absent entries :
  Forall (fun e => speakers_tier e !! speaker = None) entries ->
  filtered_by_speaker speaker entries = [].
Proof.
  unfold filtered_by_speaker.
  induction 1 as [|e entries He _ IH]; cbn [List.filter]; [reflexivity|].
  rewrite He. exact IH.
Qed.

Lemma list_filter_Forall {A} (P : A -> Prop) (f : A -> bool) xs :
  Forall P xs -> Forall P (List.filter f xs).
Proof.
  induction 1 as [|x xs Hx _ IH]; cbn [List.filter]; [constructor|].
  destruct (f x); [constructor|]; assumption.
Qed.

Lemma tokenize_returns text ignored :
  (String.length text <= fuel)%nat ->
  exists tokens, tokenize fuel text ignored = Ok tokens.
Proof.
  intros H. unfold tokenize. apply tokenize_raws_terminates, split_lengths, H.
Qed.

Lemma count_entries_return els wc :
  Forall (fun el => (String.length (tier_text speaker tier el) <= fuel)%nat) els ->
  exists wc',
    for_each (count_entry fuel speaker tier pattern match_type) wc els = Ok wc'.
Proof.
  intros H. revert wc. induction H as [|el els Hel _ IH]; intros wc;
    cbn [for_each]; [eauto|].
  assert (Hstep : exists wc1,
            count_entry fuel speaker tier pattern match_type wc el = Ok wc1).
  { unfold count_entry.
    destruct (tokenize_returns _ default_ignored Hel) as [tokens ->].
    cbn. eauto. }
  destruct Hstep as [wc1 ->]. cbn. apply IH.
Qed.

Lemma count_entry_ok wc el wc' :
  count_entry fuel speaker tier pattern match_type wc el = Ok wc' ->
  exists tokens,
    tokenize fuel (tier_text speaker tier el) default_ignored = Ok tokens /\
    wc' = foldl (fun wc token =>
                   if skipped pattern match_type token then wc
                   else count_token wc token) wc tokens.
Proof.
  unfold count_entry.
  destruct (tokenize fuel _ default_ignored) as [tokens| |];
    cbn; try discriminate.
  intros [= <-]. eauto.
Qed.

(** Counting the tokens one by one gives each key its number of
    occurrences. *)
Lemma count_tokens_occurrences tokens wc k :
  table_count
    (foldl (fun wc token =>
              if skipped pattern match_type token then wc
              else count_token wc token) wc tokens) k =
  table_count wc k +
  occurrences (List.filter (fun token => negb (skipped pattern match_type token))
                           tokens) k.
Proof.
  unfold occurrences. revert wc.
  induction tokens as [|token tokens IH]; intros wc; cbn [foldl List.filter].
  - cbn. lia.
  - rewrite IH. destruct (skipped pattern match_type token); cbn [negb];
      [reflexivity|].
    rewrite count_token_count. cbn [List.filter].
    destruct (String.eqb k token); cbn [length]; lia.
Qed.

Lemma occurrences_app xs ys k :
  occurrences (xs ++ ys) k = occurrences xs k + occurrences ys k.
Proof.
  unfold occurrences. rewrite List.filter_app, length_app. lia.
Qed.

Lemma count_entries_occurrences els wc wc' acc :
  for_each (count_entry fuel speaker tier pattern match_type) wc els = Ok wc' ->
  (forall k, table_count wc k = occurrences acc k) ->
  exists acc',
    for_each (fun acc el =>
                tokens ← tokenize fuel (tier_text speaker tier el) default_ignored;
                Ok (acc ++ List.filter
                      (fun token => negb (skipped pattern match_type token))
                      tokens))
             acc els = Ok acc' /\
    forall k, table_count wc' k = occurrences acc' k.
Proof.
  revert wc acc. induction els as [|el els IH]; intros wc acc; cbn [for_each].
  - intros [= <-] H. eauto.
  - destruct (count_entry fuel speaker tier pattern match_type wc el)
      as [wc1| |] eqn:Hstep; cbn; try discriminate.
    apply count_entry_ok in Hstep. destruct Hstep as (tokens & -> & ->).
    cbn. intros Hrest Hacc. eapply IH; [exact Hrest|].
    intros k. now rewrite count_tokens_occurrences, occurrences_app, Hacc.
Qed.

End FrequencyResults.

Section RatioOfTable.

(** A table of positive counts has a ratio between 0 and 1. *)
Lemma ttr_unit freq :
  Forall (fun item : string * Z => 1 <= item.2) freq ->
  Qle 0 (value (compute_ttr_from_frequencies freq)) /\
  Qle (value (compute_ttr_from_frequencies freq)) 1.
Proof.
  intros Hpos.
  assert (Hpos' : Forall (fun item : string * Z => 0 < item.2) freq).
  { eapply Forall_impl; [exact Hpos|]. cbn. intros; lia. }
  pose proof (types_le_tokens _ Hpos') as Hle.
  unfold compute_ttr_from_frequencies.
  destruct (0 <? sum_values freq) eqn:Htok.
  - apply Z.ltb_lt in Htok. cbn [value].
    apply unit_float_value, round2_unit, true_div_unit; lia.
  - cbn. unfold Qle. cbn. lia.
Qed.

End RatioOfTable.

(** X16: when no entry of the structured transcript has the speaker as a
    key of its speaker's tier, [get_frequencies] returns the empty
    table (unless it rejects the match mode). *)
Theorem frequencies_absent_speaker (fuel : nat) (recording : list string)
    (speaker tier : string) (pattern : option string) (match_type : string)
    (entries : list entry) :
  get_structured_transcript recording = Ok entries ->
  Forall (fun e => speakers_tier e !! speaker = None) entries ->
  pattern_given pattern && negb (is_match_type match_type) = false ->
  get_frequencies fuel recording speaker tier pattern match_type = Ok [].
Proof.
  intros Hst Habs Hmode. unfold get_frequencies. rewrite Hst.
  cbn [mbind result_bind]. rewrite Hmode.
  fold (filtered_by_speaker speaker entries).
  now rewrite filtered_by_speaker_absent.
Qed.

Lemma frequencies_absent_speaker_witness :
  get_frequencies 0
    [Py.tabbed "*CHI:" "hello world ."; Py.tabbed "%mor:" "n|hello n|world"]
    "*MOT" "utterance" None "contains" = Ok [].
Proof.
  apply (frequencies_absent_speaker 0
    [Py.tabbed "*CHI:" "hello world ."; Py.tabbed "%mor:" "n|hello n|world"]
    "*MOT" "utterance" None "contains"
    [Entry None {[ "*CHI" := "hello world ." ]} {[ "%mor" := "n|hello n|world" ]}]).
  - vm_compute. reflexivity.
  - repeat constructor.
  - reflexivity.
Defined.

(** X17: the type-token ratio of any table that [get_frequencies]
    returns lies between 0 and 1. *)
Theorem ttr_of_frequencies (fuel : nat) (recording : list string)
    (speaker tier : string) (pattern : option string) (match_type : string)
    (freq : list (string * Z)) :
  get_frequencies fuel recording speaker tier pattern match_type = Ok freq ->
  Qle 0 (value (compute_ttr_from_frequencies freq)) /\
  Qle (value (compute_ttr_from_frequencies freq)) 1.
Proof.
  intros H. apply get_frequencies_table in H.
  destruct H as [(_ & Hpos & _) _]. now apply ttr_unit.
Qed.

Lemma ttr_of_frequencies_witness :
  Qle 0 (value (compute_ttr_from_frequencies
                  [("b", 2); ("c", 2); ("a", 1); ("d", 1)])) /\
  Qle (value (compute_ttr_from_frequencies
                [("b", 2); ("c", 2); ("a", 1); ("d", 1)])) 1.
Proof.
  apply (ttr_of_frequencies 40
    [Py.tabbed "*CHI:" "a b b c"; Py.tabbed "*MOT:" "b"; Py.tabbed "*CHI:" "c d"]
    "*CHI" "utterance" None "contains").
  vm_compute. reflexivity.
Defined.

(** X18: [get_frequencies] returns a table whenever the structured
    transcript can be built and the match mode is not rejected: the
    tokenizer's loop ends on every text (a number of passes equal to the
    length of the longest text is enough). *)
Theorem frequencies_return (fuel : nat) (recording : list string)
    (speaker tier : string) (pattern : option string) (match_type : string)
    (entries : list entry) :
  get_structured_transcript recording = Ok entries ->
  pattern_given pattern && negb (is_match_type match_type) = false ->
  Forall (fun el => (String.length (tier_text speaker tier el) <= fuel)%nat)
         entries ->
  exists freq,
    get_frequencies fuel recording speaker tier pattern match_type = Ok freq.
Proof.
  intros Hst Hmode Hfuel. unfold get_frequencies. rewrite Hst.
  cbn [mbind result_bind]. rewrite Hmode.
  destruct (count_entries_return fuel speaker tier pattern match_type
              (List.filter (fun el => bool_decide (is_Some (speakers_tier el !! speaker)))
                           entries) [])
    as [wc ->]; [now apply list_filter_Forall|].
  cbn. eauto.
Qed.

Lemma frequencies_return_witness :
  exists freq,
    get_frequencies 13
      [Py.tabbed "*CHI:" "hello world ."; Py.tabbed "%mor:" "n|hello n|world"]
      "*CHI" "utterance" (Some "o") "contains" = Ok freq.
Proof.
  apply (frequencies_return 13
    [Py.tabbed "*CHI:" "hello world ."; Py.tabbed "%mor:" "n|hello n|world"]
    "*CHI" "utterance" (Some "o") "contains"
    [Entry None {[ "*CHI" := "hello world ." ]} {[ "%mor" := "n|hello n|world" ]}]).
  - vm_compute. reflexivity.
  - reflexivity.
  - repeat constructor.
Defined.

(** X19: the count that [get_frequencies] returns for a token is the
    number of times the token occurs among the counted tokens (those of
    the chosen tier of the speaker's entries that pass the filter); a
    token that does not occur is not a key. *)
Theorem frequencies_count (fuel : nat) (recording : list string)
    (speaker tier : string) (pattern : option string) (match_type : string)
    (entries : list entry) (freq : list (string * Z)) :
  get_structured_transcript recording = Ok entries ->
  get_frequencies fuel recording speaker tier pattern match_type = Ok freq ->
  exists tokens,
    counted_tokens fuel speaker tier pattern match_type entries = Ok tokens /\
    forall token, table_count freq token = occurrences tokens token.
Proof.
  intros Hst H. pose proof (get_frequencies_stages _ _ _ _ _ _ _ H) as Hstages.
  destruct Hstages as (entries' & wc & Hst' & _ & Hloop & ->).
  assert (entries' = entries) as -> by congruence.
  assert (Hwc : frequency_table pattern match_type wc).
  { eapply (for_each_invariant (frequency_table pattern match_type));
      [|exact Hloop|].
    - intros s x s'. apply count_entry_table.
    - repeat split; constructor. }
  destruct (count_entries_occurrences _ _ _ _ _ _ _ _ [] Hloop)
    as (tokens & Htokens & Hcount); [reflexivity|].
  exists tokens. split; [exact Htokens|]. intros token.
  rewrite <- Hcount. symmetry. apply table_count_perm; [apply Hwc|].
  symmetry. apply sorted_by_count_perm.
Qed.

Lemma frequencies_count_witness :
  exists tokens,
    counted_tokens 40 "*CHI" "utterance" None "contains"
      [Entry None {[ "*CHI" := "a b b c" ]} ∅;
       Entry (Some 2) {[ "*MOT" := "b" ]} ∅;
       Entry (Some 3) {[ "*CHI" := "c d" ]} ∅] = Ok tokens /\
    forall token,
      table_count [("b", 2); ("c", 2); ("a", 1); ("d", 1)] token
      = occurrences tokens token.
Proof.
  apply (frequencies_count 40
    [Py.tabbed "*CHI:" "a b b c"; Py.tabbed "*MOT:" "b"; Py.tabbed "*CHI:" "c d"]
    "*CHI" "utterance" None "contains").
  - vm_compute. reflexivity.
  - vm_compute. reflexivity.
Defined.

(** ** Exact quotients *)

Section ExactQuotient.

Lemma div_nearest_even_exact q b : 0 < b -> div_nearest_even (q * b) b = q.
Proof.
  intros Hb. unfold div_nearest_even.
  rewrite Z.div_mul, Z.mod_mul by lia.
  assert (H : (2 * 0 <? b) = true) by (apply Z.ltb_lt; lia).
  now rewrite H.
Qed.

(** The exponent of an integer quotient [k] is that of [k]. *)
Lemma ratio_log2_multiple k m :
  0 < k -> 0 < m -> ratio_log2 (k * m) m = Z.log2 k.
Proof.
  intros Hk Hm. unfold ratio_log2.
  pose proof (Z.log2_mul_below k m Hk Hm) as Hlo.
  pose proof (Z.log2_mul_above k m ltac:(lia) ltac:(lia)) as Hhi.
  pose proof (Z.log2_nonneg k) as Hk0.
  pose proof (Z.log2_spec k Hk) as [Hk1 Hk2].
  set (l := Z.log2 (k * m) - Z.log2 m) in *.
  assert (Hl : l = Z.log2 k \/ l = Z.log2 k + 1) by lia.
  assert (H0 : (0 <=? l) = true) by (apply Z.leb_le; lia). rewrite H0.
  destruct Hl as [Hl|Hl]; rewrite Hl.
  - assert (H : (k * m <? m * 2 ^ Z.log2 k) = false) by (apply Z.ltb_ge; nia).
    now rewrite H.
  - replace (Z.log2 k + 1) with (Z.succ (Z.log2 k)) by lia.
    assert (H : (k * m <? m * 2 ^ Z.succ (Z.log2 k)) = true)
      by (apply Z.ltb_lt; nia).
    rewrite H. lia.
Qed.

(** A quotient that is an integer below [2^53] is computed exactly. *)
Lemma true_div_multiple k m :
  0 < k < 2 ^ 53 -> 0 < m ->
  true_div (k * m) m = Float (k * 2 ^ (52 - Z.log2 k)) (Z.log2 k - 52).
Proof.
  intros Hk Hm. unfold true_div.
  assert (H0 : (k * m =? 0) = false) by (apply Z.eqb_neq; nia). rewrite H0.
  rewrite ratio_log2_multiple by lia.
  assert (Hlog : 0 <= Z.log2 k < 53).
  { split; [apply Z.log2_nonneg|]. apply Z.log2_lt_pow2; lia. }
  rewrite Z.max_l by lia.
  destruct (Z.log2 k - 52 <? 0) eqn:E.
  - replace (- (Z.log2 k - 52)) with (52 - Z.log2 k) by lia.
    replace (k * m * 2 ^ (52 - Z.log2 k)) with (k * 2 ^ (52 - Z.log2 k) * m) by lia.
    now rewrite div_nearest_even_exact.
  - apply Z.ltb_ge in E. assert (Hl : Z.log2 k = 52) by lia. rewrite Hl.
    change (52 - 52) with 0. change (2 ^ 0) with 1.
    replace (m * 1) with m by lia.
    rewrite div_nearest_even_exact by lia. f_equal. lia.
Qed.

(** Rounding an integer to two decimals leaves it as it is. *)
Lemma round2_multiple k :
  0 < k < 2 ^ 53 ->
  round2 (Float (k * 2 ^ (52 - Z.log2 k)) (Z.log2 k - 52))
  = Float (k * 2 ^ (52 - Z.log2 k)) (Z.log2 k - 52).
Proof.
  intros Hk. unfold round2. cbn [fexp fmant].
  assert (Hlog : 0 <= Z.log2 k < 53).
  { split; [apply Z.log2_nonneg|]. apply Z.log2_lt_pow2; lia. }
  assert (Hh : (if Z.log2 k - 52 <? 0
                then div_nearest_even (100 * (k * 2 ^ (52 - Z.log2 k)))
                       (2 ^ (- (Z.log2 k - 52)))
                else 100 * (k * 2 ^ (52 - Z.log2 k)) * 2 ^ (Z.log2 k - 52))
               = k * 100).
  { destruct (Z.log2 k - 52 <? 0) eqn:E.
    - replace (- (Z.log2 k - 52)) with (52 - Z.log2 k) by lia.
      replace (100 * (k * 2 ^ (52 - Z.log2 k)))
        with (k * 100 * 2 ^ (52 - Z.log2 k)) by lia.
      apply div_nearest_even_exact. apply Z.pow_pos_nonneg; lia.
    - apply Z.ltb_ge in E. assert (Hl : Z.log2 k = 52) by lia. rewrite Hl.
      change (52 - 52) with 0. change (2 ^ 0) with 1. lia. }
  rewrite Hh. now apply true_div_multiple.
Qed.

Lemma float_value_multiple k :
  0 < k < 2 ^ 53 ->
  Qeq (float_value (Float (k * 2 ^ (52 - Z.log2 k)) (Z.log2 k - 52)))
      (inject_Z k).
Proof.
  intros Hk. unfold float_value, Qeq. cbn [fexp fmant].
  assert (Hlog : 0 <= Z.log2 k < 53).
  { split; [apply Z.log2_nonneg|]. apply Z.log2_lt_pow2; lia. }
  destruct (Z.log2 k - 52 <? 0) eqn:E; cbn [Qnum Qden inject_Z].
  - replace (- (Z.log2 k - 52)) with (52 - Z.log2 k) by lia.
    rewrite Z2Pos.id by (apply Z.pow_pos_nonneg; lia). lia.
  - apply Z.ltb_ge in E. assert (Hl : Z.log2 k = 52) by lia. rewrite Hl.
    change (52 - 52) with 0. change (2 ^ 0) with 1. lia.
Qed.

(** [round(k * m / m, 2)] is the float of value [k]. *)
Lemma round2_true_div_multiple k m :
  0 <= k < 2 ^ 53 -> 0 < m ->
  Qeq (float_value (round2 (true_div (k * m) m))) (inject_Z k).
Proof.
  intros Hk Hm. destruct (Z.eq_dec k 0) as [->|Hne].
  - reflexivity.
  - rewrite true_div_multiple, round2_multiple by lia.
    apply float_value_multiple. lia.
Qed.

End ExactQuotient.

(** ** The ratio as a two-decimal number *)

Section TwoDecimals.

Lemma round2_hundredths x :
  unit_float x -> exists k, 0 <= k <= 100 /\ round2 x = true_div k 100.
Proof.
  intros [He Hm]. unfold round2.
  assert (Hp : 0 < 2 ^ (- fexp x)) by (apply Z.pow_pos_nonneg; lia).
  eexists. split; [|reflexivity].
  destruct (fexp x <? 0) eqn:E.
  - apply div_nearest_even_bounds; lia.
  - apply Z.ltb_ge in E. assert (E0 : fexp x = 0) by lia.
    rewrite E0 in *. change (2 ^ (- 0)) with 1 in Hm. change (2 ^ 0) with 1. lia.
Qed.

Lemma sum_values_ones_from acc freq :
  Forall (fun item : string * Z => item.2 = 1) freq ->
  foldl (fun acc item => acc + item.2) acc freq = acc + Z.of_nat (length freq).
Proof.
  intros H. revert acc.
  induction H as [|item freq Hitem _ IH]; intros acc; cbn [foldl length].
  - lia.
  - rewrite IH, Hitem. lia.
Qed.

End TwoDecimals.

(** X20: for a non-empty table of positive counts the ratio that
    [compute_ttr_from_frequencies] returns is a float with two decimals:
    the float nearest to [k / 100] for an integer [k] from 0 to 100. *)
Theorem ttr_two_decimals (freq : list (string * Z)) :
  Forall (fun item => 1 <= item.2) freq -> freq <> [] ->
  exists k, 0 <= k <= 100 /\
            compute_ttr_from_frequencies freq = Flt (true_div k 100).
Proof.
  intros Hpos Hne.
  assert (Hpos' : Forall (fun item : string * Z => 0 < item.2) freq).
  { eapply Forall_impl; [exact Hpos|]. cbn. intros; lia. }
  pose proof (types_le_tokens _ Hpos') as Hle.
  assert (Hlen : 0 < Z.of_nat (length freq)).
  { destruct freq; [congruence|cbn [length]; lia]. }
  unfold compute_ttr_from_frequencies.
  assert (Htok : (0 <? sum_values freq) = true) by (apply Z.ltb_lt; lia).
  rewrite Htok.
  destruct (round2_hundredths (true_div (Z.of_nat (length freq)) (sum_values freq)))
    as (k & Hk & ->); [apply true_div_unit; lia|].
  eauto.
Qed.

Lemma ttr_two_decimals_witness :
  exists k, 0 <= k <= 100 /\
    compute_ttr_from_frequencies [("bar", 2); ("hello", 1)]
    = Flt (true_div k 100).
Proof.
  apply (ttr_two_decimals [("bar", 2); ("hello", 1)]).
  - repeat constructor; cbn; lia.
  - discriminate.
Defined.

(** X21: when every token of a non-empty table was counted once, the
    ratio that [compute_ttr_from_frequencies] returns is exactly 1.0. *)
Theorem ttr_all_distinct (freq : list (string * Z)) :
  Forall (fun item => item.2 = 1) freq -> freq <> [] ->
  compute_ttr_from_frequencies freq = Flt (Float (2 ^ 52) (-52)) /\
  Qeq (value (compute_ttr_from_frequencies freq)) 1.
Proof.
  intros Hones Hne.
  assert (Hlen : 0 < Z.of_nat (length freq)).
  { destruct freq; [congruence|cbn [length]; lia]. }
  assert (Hsum : sum_values freq = Z.of_nat (length freq)).
  { unfold sum_values. now rewrite sum_values_ones_from. }
  assert (E : compute_ttr_from_frequencies freq = Flt (Float (2 ^ 52) (-52))).
  { unfold compute_ttr_from_frequencies. rewrite Hsum.
    assert (Htok : (0 <? Z.of_nat (length freq)) = true) by (apply Z.ltb_lt; lia).
    rewrite Htok. f_equal.
    replace (true_div (Z.of_nat (length freq)) (Z.of_nat (length freq)))
      with (true_div (1 * Z.of_nat (length freq)) (Z.of_nat (length freq)))
      by (f_equal; lia).
    rewrite true_div_multiple; [vm_compute; reflexivity|split; reflexivity|lia]. }
  split; [exact E|]. rewrite E. reflexivity.
Qed.

Lemma ttr_all_distinct_witness :
  compute_ttr_from_frequencies [("hello", 1); ("world", 1)]
    = Flt (Float (2 ^ 52) (-52)) /\
  Qeq (value (compute_ttr_from_frequencies [("hello", 1); ("world", 1)])) 1.
Proof.
  apply (ttr_all_distinct [("hello", 1); ("world", 1)]).
  - repeat constructor.
  - discriminate.
Defined.

(** ** The header fields *)

Section HeaderFields.

(** No piece of a split holds the separator. *)
Lemma split_on_pieces sep s :
  Forall (fun piece => Py.contains_char sep piece = false) (Py.split_on sep s).
Proof.
  unfold Py.contains_char.
  induction s as [|c t IH]; cbn [Py.split_on].
  - repeat constructor.
  - destruct (Ascii.eqb c sep) eqn:E; [constructor; [reflexivity|exact IH]|].
    destruct (Py.split_on sep t) as [|w ws]; cbn [Py.cons_first].
    + constructor; [|constructor]. cbn. now rewrite Ascii.eqb_sym, E.
    + inversion IH as [|? ? Hw Hws]; subst. constructor; [|exact Hws].
      cbn [Py.any_char]. now rewrite Ascii.eqb_sym, E, Hw.
Qed.

(** A character that is not in the string is in none of its pieces. *)
Lemma split_on_absent_pieces c sep s :
  Py.contains_char c s = false ->
  Forall (fun piece => Py.contains_char c piece = false) (Py.split_on sep s).
Proof.
  unfold Py.contains_char.
  induction s as [|a t IH]; cbn [Py.split_on Py.any_char].
  - repeat constructor.
  - intros H. apply orb_false_iff in H. destruct H as [Ha Ht].
    specialize (IH Ht).
    destruct (Ascii.eqb a sep); [constructor; [reflexivity|exact IH]|].
    destruct (Py.split_on sep t) as [|w ws]; cbn [Py.cons_first].
    + constructor; [|constructor]. cbn. now rewrite Ha.
    + inversion IH as [|? ? Hw Hws]; subst. constructor; [|exact Hws].
      cbn [Py.any_char]. now rewrite Ha, Hw.
Qed.

(** A string that holds the separator splits in two pieces or more. *)
Lemma split_on_two sep s :
  Py.contains_char sep s = true ->
  exists a b rest, Py.split_on sep s = a :: b :: rest.
Proof.
  unfold Py.contains_char.
  induction s as [|c t IH]; cbn [Py.split_on Py.any_char]; [discriminate|].
  rewrite Ascii.eqb_sym. destruct (Ascii.eqb c sep); cbn [orb].
  - intros _. destruct (split_on_cons sep t) as (w & ws & ->). eauto.
  - intros H. destruct (IH H) as (a & b & rest & ->). cbn. eauto.
Qed.

Lemma filter_head_elem {A} (f : A -> bool) (xs : list A) y ys :
  List.filter f xs = y :: ys -> y ∈ xs.
Proof.
  induction xs as [|x xs IH]; cbn [List.filter]; [discriminate|].
  destruct (f x); [intros [= <- _]; left|intros H; right; auto].
Qed.

(** The age field that is returned holds a [;] and no [|]. *)
Lemma age_field_shape recording pa :
  get_participants_and_age recording = Ok pa ->
  Py.contains_char ";" (age pa) = true /\
  Py.contains_char "|" (age pa) = false.
Proof.
  rewrite get_participants_and_age_unfold.
  destruct (participants_lines recording) as [|pline ?]; [discriminate|].
  destruct (line_text pline) as [text|]; [|discriminate].
  destruct (age_lines recording) as [|aline ?]; [discriminate|].
  destruct (age_fields aline) as [|field fields] eqn:E; [discriminate|].
  intros [= <-]. cbn [age]. unfold age_fields in E. split.
  - eapply filter_head, E.
  - apply filter_head_elem in E.
    pose proof (split_on_pieces "|" aline) as H.
    rewrite Forall_forall in H. now apply H.
Qed.

End HeaderFields.

(** X22: the age field that [get_participants_and_age] returns always
    contains a [;] and never a [|]. *)
Theorem age_field_has_semicolon (recording : list string)
    (pa : participants_and_age) :
  get_participants_and_age recording = Ok pa ->
  Py.contains_char ";" (age pa) = true /\
  Py.contains_char "|" (age pa) = false.
Proof. apply age_field_shape. Qed.

Lemma age_field_has_semicolon_witness :
  Py.contains_char ";" (age (ParticipantsAndAge "CHI Gijs Target_Child" "2;3.15"))
    = true /\
  Py.contains_char "|" (age (ParticipantsAndAge "CHI Gijs Target_Child" "2;3.15"))
    = false.
Proof.
  apply (age_field_has_semicolon
    [Py.tabbed "@Participants:" "CHI Gijs Target_Child";
     Py.tabbed "@ID:" "nld|Schaerlaekens|CHI|2;3.15|male|||Target_Child|||"]).
  reflexivity.
Defined.

(** X23: an age field without a [.] (such as "2;3") never gives a number
    of days: [get_age_in_days] raises, a [ValueError] from [int] or else
    the [IndexError] of the missing days. *)
Theorem age_without_days_raises (recording : list string)
    (pa : participants_and_age) :
  get_participants_and_age recording = Ok pa ->
  Py.contains_char "." (age pa) = false ->
  exists e, get_age_in_days recording = Raise e.
Proof.
  intros Hpa Hdot. destruct (age_field_shape _ _ Hpa) as [Hsemi _].
  unfold get_age_in_days. rewrite Hpa. cbn [mbind result_bind].
  destruct (split_on_two ";" (age pa) Hsemi) as (a & b & rest & E).
  pose proof (split_on_absent_pieces "." ";" (age pa) Hdot) as Hpieces.
  rewrite E in *. inversion Hpieces as [|? ? _ Hrest]; subst.
  inversion Hrest as [|? ? Hb _]; subst.
  cbn [index lookup list_lookup mbind result_bind].
  assert (Hint : forall s, (exists v, py_int s = Ok v) \/ py_int s = Raise ValueError).
  { intros s. unfold py_int.
    destruct (Py.strip_with int_space s) as [|c t].
    - right. reflexivity.
    - destruct (Ascii.eqb c "+"); [|destruct (Ascii.eqb c "-")];
        destruct (digits_value 0 false _); eauto;
        destruct (int_max_str_digits <? _); eauto. }
  destruct (Hint a) as [[y ->]| ->]; [|cbn; eauto].
  cbn [mbind result_bind]. rewrite (split_on_absent "." b Hb).
  cbn [index lookup list_lookup mbind result_bind].
  destruct (Hint b) as [[m ->]| ->]; cbn; eauto.
Qed.

Lemma age_without_days_raises_witness :
  exists e,
    get_age_in_days
      [Py.tabbed "@Participants:" "CHI Gijs Target_Child";
       Py.tabbed "@ID:" "nld|Schaerlaekens|CHI|2;3|male|||Target_Child|||"]
    = Raise e.
Proof.
  apply (age_without_days_raises
    [Py.tabbed "@Participants:" "CHI Gijs Target_Child";
     Py.tabbed "@ID:" "nld|Schaerlaekens|CHI|2;3|male|||Target_Child|||"]
    (ParticipantsAndAge "CHI Gijs Target_Child" "2;3")); reflexivity.
Defined.

(** X24: every marker that [get_participant_tiers_markers] returns is a
    [*] followed by three characters, none of them a space. *)
Theorem participant_tiers_markers_shape (recording markers : list string) :
  get_participant_tiers_markers recording = Ok markers ->
  Forall (fun marker => String.length marker = 4%nat /\
                        Py.startswith marker "*" = true /\
                        Py.contains_char " " marker = false) markers.
Proof.
  unfold get_participant_tiers_markers.
  destruct (get_participants_and_age recording) as [pa| |]; cbn; try discriminate.
  intros [= <-]. apply Forall_fmap.
  pose proof (split_on_pieces " " (participants pa)) as Hpieces.
  induction Hpieces as [|bit bits Hbit _ IH]; cbn [List.filter]; [constructor|].
  destruct (Nat.eqb (String.length bit) 3) eqn:E; [|exact IH].
  constructor; [|exact IH]. apply Nat.eqb_eq in E.
  unfold compose. change ("*" +:+ bit) with (String "*" bit).
  cbn [String.length]. rewrite E.
  split; [reflexivity|]. split.
  - unfold Py.startswith. cbn [String.prefix].
    destruct (ascii_dec "*" "*"); [apply prefix_nil|congruence].
  - unfold Py.contains_char in *. cbn [Py.any_char]. exact Hbit.
Qed.

Lemma participant_tiers_markers_shape_witness :
  Forall (fun marker => String.length marker = 4%nat /\
                        Py.startswith marker "*" = true /\
                        Py.contains_char " " marker = false)
         ["*CHI"; "*MOT"].
Proof.
  apply (participant_tiers_markers_shape
    [Py.tabbed "@Participants:" "CHI Gijs Target_Child , MOT Mother";
     Py.tabbed "@ID:" "nld|Schaerlaekens|CHI|2;3.15|male|||Target_Child|||"]).
  reflexivity.
Defined.

(** ** The mean length of utterance *)

Section MeanLength.

Variable std_dev_of : list Z -> float.
Variables (speaker : string) (ignored : list string).

(** The loop of [get_word_mlu]: the words add up, the utterances are
    counted, and the counts are kept in order. *)
Lemma count_utterances els st :
  foldl (count_utterance speaker ignored) st els =
  MluState (total_words st + sum_ints (map (utterance_words speaker ignored) els))
           (total_utterances st + Z.of_nat (length els))
           (word_mlus st ++ map (utterance_words speaker ignored) els).
Proof.
  revert st. induction els as [|el els IH]; intros st; cbn [foldl map length].
  - destruct st. cbn. f_equal; [lia|lia|now rewrite app_nil_r].
  - rewrite IH. unfold count_utterance.
    cbn [total_words total_utterances word_mlus].
    fold (utterance_words speaker ignored el).
    unfold sum_ints. cbn [foldl].
    assert (Hsum : forall xs a, foldl Z.add a xs = a + foldl Z.add 0 xs).
    { induction xs as [|x xs IHx]; intros a; cbn [foldl]; [lia|].
      rewrite (IHx (a + x)), (IHx (0 + x)). lia. }
    rewrite (Hsum _ (0 + utterance_words speaker ignored el)).
    f_equal; [lia|lia|now rewrite <- app_assoc].
Qed.

Lemma sum_ints_constant c xs :
  Forall (fun x => x = c) xs -> sum_ints xs = c * Z.of_nat (length xs).
Proof.
  unfold sum_ints.
  assert (H : forall a, Forall (fun x => x = c) xs ->
                        foldl Z.add a xs = a + c * Z.of_nat (length xs)).
  { induction xs as [|x xs IH]; intros a Hall; cbn [foldl length]; [lia|].
    inversion Hall; subst. rewrite IH by assumption. lia. }
  intros Hall. now rewrite H.
Qed.

(** What [get_word_mlu] returns once the structured transcript is
    built. *)
Lemma get_word_mlu_unfold recording entries :
  get_structured_transcript recording = Ok entries ->
  get_word_mlu std_dev_of recording speaker ignored =
  let counts := map (utterance_words speaker ignored)
                    (filtered_by_speaker speaker entries) in
  Ok (WordMLU
        (if 0 <? Z.of_nat (length counts)
         then Flt (round2 (true_div (sum_ints counts) (Z.of_nat (length counts))))
         else Int 0)
        (if (1 <? length counts)%nat then Flt (std_dev_of counts) else Int 0)).
Proof.
  intros Hst. unfold get_word_mlu. rewrite Hst. cbn [mbind result_bind].
  rewrite count_utterances. cbn [total_words total_utterances word_mlus app].
  cbn zeta. rewrite !length_map, !Z.add_0_l. reflexivity.
Qed.

End MeanLength.

(** X25: when no entry of the structured transcript has the speaker as a
    key of its speaker's tier, [get_word_mlu] returns 0 for the mean and
    0 for the standard deviation. *)
Theorem word_mlu_absent_speaker (std_dev_of : list Z -> float)
    (recording : list string) (speaker : string) (ignored : list string)
    (entries : list entry) :
  get_structured_transcript recording = Ok entries ->
  Forall (fun e => speakers_tier e !! speaker = None) entries ->
  get_word_mlu std_dev_of recording speaker ignored
  = Ok (WordMLU (Int 0) (Int 0)).
Proof.
  intros Hst Habs.
  rewrite (get_word_mlu_unfold std_dev_of speaker ignored recording entries Hst).
  now rewrite filtered_by_speaker_absent.
Qed.

Lemma word_mlu_absent_speaker_witness :
  get_word_mlu (fun _ => Float 0 0)
    [Py.tabbed "*CHI:" "hello world ."; Py.tabbed "%mor:" "n|hello n|world"]
    "*MOT" default_ignored
  = Ok (WordMLU (Int 0) (Int 0)).
Proof.
  apply (word_mlu_absent_speaker (fun _ => Float 0 0)
    [Py.tabbed "*CHI:" "hello world ."; Py.tabbed "%mor:" "n|hello n|world"]
    "*MOT" default_ignored
    [Entry None {[ "*CHI" := "hello world ." ]} {[ "%mor" := "n|hello n|world" ]}]).
  - vm_compute. reflexivity.
  - repeat constructor.
Defined.

(** X26: when the utterances of the speaker all have the same number [c]
    of counted words, the mean that [get_word_mlu] returns is the float
    of value [c]: the quotient is computed exactly and rounding to two
    decimals leaves it. *)
Theorem word_mlu_equal_lengths (std_dev_of : list Z -> float)
    (recording : list string) (speaker : string) (ignored : list string)
    (entries : list entry) (c : Z) :
  get_structured_transcript recording = Ok entries ->
  filtered_by_speaker speaker entries <> [] ->
  Forall (fun el => utterance_words speaker ignored el = c)
         (filtered_by_speaker speaker entries) ->
  c < 2 ^ 53 ->
  exists r x,
    get_word_mlu std_dev_of recording speaker ignored = Ok r /\
    word_mlu r = Flt x /\ Qeq (float_value x) (inject_Z c).
Proof.
  intros Hst Hne Hall Hc.
  rewrite (get_word_mlu_unfold std_dev_of speaker ignored recording entries Hst).
  cbn zeta. rewrite length_map.
  set (els := filtered_by_speaker speaker entries) in *.
  assert (Hlen : 0 < Z.of_nat (length els)).
  { destruct els; [congruence|cbn [length]; lia]. }
  assert (Hpos : (0 <? Z.of_nat (length els)) = true) by (apply Z.ltb_lt; lia).
  rewrite Hpos. eexists _, _. split; [reflexivity|]. split; [reflexivity|].
  rewrite (sum_ints_constant c), length_map by now apply Forall_fmap.
  apply round2_true_div_multiple; [|lia].
  split; [|exact Hc].
  destruct els as [|el els']; [congruence|].
  inversion Hall as [|? ? Hel _]; subst. unfold utterance_words. lia.
Qed.

Lemma word_mlu_equal_lengths_witness :
  exists r x,
    get_word_mlu (fun _ => Float 0 0)
      [Py.tabbed "*CHI:" "hello world ."; Py.tabbed "*MOT:" "yes";
       Py.tabbed "*CHI:" "a [: b] c !"]
      "*CHI" default_ignored = Ok r /\
    word_mlu r = Flt x /\ Qeq (float_value x) (inject_Z 2).
Proof.
  apply (word_mlu_equal_lengths (fun _ => Float 0 0)
    [Py.tabbed "*CHI:" "hello world ."; Py.tabbed "*MOT:" "yes";
     Py.tabbed "*CHI:" "a [: b] c !"]
    "*CHI" default_ignored
    [Entry None {[ "*CHI" := "hello world ." ]} ∅;
     Entry (Some 2) {[ "*MOT" := "yes" ]} ∅;
     Entry (Some 3) {[ "*CHI" := "a [: b] c !" ]} ∅] 2).
  - vm_compute. reflexivity.
  - vm_compute. discriminate.
  - vm_compute. repeat constructor.
  - reflexivity.
Defined.

(** X27: with at most one utterance of the speaker the standard
    deviation that [get_word_mlu] returns is the integer 0. *)
Theorem word_mlu_single_utterance (std_dev_of : list Z -> float)
    (recording : list string) (speaker : string) (ignored : list string)
    (entries : list entry) :
  get_structured_transcript recording = Ok entries ->
  (length (filtered_by_speaker speaker entries) <= 1)%nat ->
  exists mean,
    get_word_mlu std_dev_of recording speaker ignored
    = Ok (WordMLU mean (Int 0)).
Proof.
  intros Hst Hlen.
  rewrite (get_word_mlu_unfold std_dev_of speaker ignored recording entries Hst).
  cbn zeta. rewrite length_map.
  assert (H : (1 <? length (filtered_by_speaker speaker entries))%nat = false)
    by (apply Nat.ltb_ge; lia).
  rewrite H. eauto.
Qed.

Lemma word_mlu_single_utterance_witness :
  exists mean,
    get_word_mlu (fun _ => Float 1 0)
      [Py.tabbed "*CHI:" "hello world ."; Py.tabbed "%mor:" "n|hello n|world"]
      "*CHI" default_ignored
    = Ok (WordMLU mean (Int 0)).
Proof.
  apply (word_mlu_single_utterance (fun _ => Float 1 0)
    [Py.tabbed "*CHI:" "hello world ."; Py.tabbed "%mor:" "n|hello n|world"]
    "*CHI" default_ignored
    [Entry None {[ "*CHI" := "hello world ." ]} {[ "%mor" := "n|hello n|world" ]}]).
  - vm_compute. reflexivity.
  - vm_compute. lia.
Defined.

(** ** Header lines and the utterances *)

Section HeaderLines.

(** Lines that are all marked are only stripped. *)
Lemma get_cleaned_transcript_marked_lines lines :
  Forall (fun raw => is_marked (Py.strip raw) = true) lines ->
  get_cleaned_transcript lines = map Py.strip lines.
Proof.
  unfold get_cleaned_transcript.
  assert (H : forall cleaned,
            Forall (fun raw => is_marked (Py.strip raw) = true) lines ->
            foldl clean_line cleaned lines = cleaned ++ map Py.strip lines).
  { induction lines as [|raw lines IH]; intros cleaned Hall; cbn [foldl map].
    - now rewrite app_nil_r.
    - inversion Hall as [|? ? Hraw Hrest]; subst.
      rewrite clean_line_marked by exact Hraw.
      rewrite IH by exact Hrest. now rewrite <- app_assoc. }
  intros Hall. now rewrite H.
Qed.

Lemma header_not_in_body line :
  Py.startswith line "@" = true -> in_body line = false.
Proof.
  intros H. apply startswith_char in H. destruct H as [t ->]. reflexivity.
Qed.

Lemma header_is_marked line :
  Py.startswith line "@" = true -> is_marked line = true.
Proof. unfold is_marked. now intros ->. Qed.

End HeaderLines.

(** X28: the header lines in front of a transcript do not change its
    utterances: when lines that start with [@] once stripped are put
    before lines that begin with a marked line, [get_structured_transcript]
    returns what it returns without them. *)
Theorem headers_do_not_matter (headers lines : list string) :
  Forall (fun raw => Py.startswith (Py.strip raw) "@" = true) headers ->
  starts_marked lines ->
  get_structured_transcript (headers ++ lines) = get_structured_transcript lines.
Proof.
  intros Hhead Hlines. unfold get_structured_transcript.
  assert (E : body_of_transcript (get_cleaned_transcript (headers ++ lines))
              = body_of_transcript (get_cleaned_transcript lines)).
  { unfold get_cleaned_transcript at 1. rewrite foldl_app.
    rewrite clean_lines_restart by exact Hlines.
    fold (get_cleaned_transcript headers).
    rewrite get_cleaned_transcript_marked_lines.
    - unfold body_of_transcript. rewrite List.filter_app.
      assert (Hnone : List.filter in_body (map Py.strip headers) = []).
      { induction Hhead as [|raw raws Hraw _ IH]; cbn [map List.filter];
          [reflexivity|].
        now rewrite (header_not_in_body _ Hraw). }
      now rewrite Hnone.
    - eapply Forall_impl; [exact Hhead|]. intros raw. apply header_is_marked. }
  now rewrite E.
Qed.

Lemma headers_do_not_matter_witness :
  get_structured_transcript
    (["@UTF8"; Py.tabbed "@Participants:" "CHI Gijs Target_Child"]
       ++ [Py.tabbed "*CHI:" "hello world ."; Py.tabbed "%mor:" "n|hello n|world"])
  = get_structured_transcript
      [Py.tabbed "*CHI:" "hello world ."; Py.tabbed "%mor:" "n|hello n|world"].
Proof.
  apply (headers_do_not_matter
           ["@UTF8"; Py.tabbed "@Participants:" "CHI Gijs Target_Child"]
           [Py.tabbed "*CHI:" "hello world ."; Py.tabbed "%mor:" "n|hello n|world"]).
  - repeat constructor.
  - reflexivity.
Defined.
